(** * Cold-pool detection on temperature and rainfall time series

    A shallow embedding of [coldpooling/cp_detection_timeseries.py] (class
    [cp_detection]) and the properties of its detection loop, period
    indexer and query methods.

    Numbers are binary64 floats, as in the NumPy arrays the code works on:
    the kernel's primitive floats give the same rounding, NaN and infinity
    behaviour.  Indices and sample counts are Python integers, here [Z].
    Exceptions and printed diagnostics are explicit: a computation yields the
    list of diagnostics it printed together with a value or a raised
    exception.

    Of the libraries, [np.sum] is embedded with the order in which NumPy
    adds the values, since the detection tests its result; the numeric
    column reductions of pandas, which only the queries call, are a
    parameter of the development (class [Pandas]). *)

From Stdlib Require Import ZArith List Bool Lia String Sorted Floats.
Import ListNotations.

Local Open Scope Z_scope.

(* ------------------------------------------------------------------------ *)
(** ** Exceptions, diagnostics and the evaluation monad *)

Inductive exn : Set :=
| IndexError
| AttributeError
| ZeroDivisionError
| ValueError
| OverflowError
| TypeError.

Inductive res (A : Type) : Type :=
| Ok (a : A)
| Raise (e : exn).
Arguments Ok {A} a.
Arguments Raise {A} e.

(** The [print] calls of the source, by content (the percentages of the
    availability warning are kept as numbers, not formatted). *)
Inductive diag : Set :=
| NoRegularGrid                                   (* "No regular datetime array detected!" *)
| NotDatetimeIndex                                (* "dtdata is not a DatetimeIndex object!" *)
| LengthMismatch (varstr : string)                (* "... data array does not have the same length ..." *)
| ResolutionTooLow (param : string)               (* "Temporal resolution of data is too low for given ..." *)
| AvailWarning (warnstr : string) (threshold avail : float)
| FunctionUnavailable (funcstr : string)          (* "Function ... is not available! ..." *)
| PeriodUnavailable (period : string).            (* "Period ... is not available! ..." *)

Definition M (A : Type) : Type := (list diag * res A)%type.

Definition ret {A} (a : A) : M A := ([], Ok a).
Definition raise {A} (e : exn) : M A := ([], Raise e).
Definition print (d : diag) : M unit := ([d], Ok tt).
Definition bind {A B} (m : M A) (k : A -> M B) : M B :=
  match m with
  | (out, Ok a) => let (out', r) := k a in (out ++ out', r)
  | (out, Raise e) => (out, Raise e)
  end.
Definition lift {A} (r : res A) : M A := ([], r).
Definition when (b : bool) (m : M unit) : M unit := if b then m else ret tt.

Notation "x <- m ;; k" := (bind m (fun x => k))
  (at level 61, m at next level, right associativity).
Notation "m ;;; k" := (bind m (fun _ => k))
  (at level 61, right associativity).

(** Reading an instance attribute that [__init__] may not have assigned. *)
Definition getattr {A} (field : option A) : M A :=
  match field with
  | Some a => ret a
  | None => raise AttributeError
  end.

(** Bind on bare results, for code that prints nothing. *)
Definition rbind {A B} (r : res A) (k : A -> res B) : res B :=
  match r with
  | Ok a => k a
  | Raise e => Raise e
  end.

(* ------------------------------------------------------------------------ *)
(** ** Python sequences: indexing, slicing, [np.where], [np.arange] *)

Definition zlen {A} (l : list A) : Z := Z.of_nat (List.length l).

(** [l[i]] for an integer [i]: a negative index counts from the end, an index
    out of range raises. *)
Definition py_getitem {A} (l : list A) (i : Z) : res A :=
  let j := if i <? 0 then i + zlen l else i in
  if j <? 0 then Raise IndexError
  else match nth_error l (Z.to_nat j) with
       | Some a => Ok a
       | None => Raise IndexError
       end.

(** A slice object [slice(start, stop)]. *)
Record slice : Set := mkslice { start : Z; stop : Z }.

(** How a slice bound is clamped against a sequence of length [n]. *)
Definition py_bound (n i : Z) : Z :=
  let j := if i <? 0 then i + n else i in
  Z.max 0 (Z.min n j).

(** [l[start:stop]]. *)
Definition py_slice {A} (l : list A) (s : slice) : list A :=
  let a := py_bound (zlen l) (start s) in
  let b := py_bound (zlen l) (stop s) in
  firstn (Z.to_nat (b - a)) (skipn (Z.to_nat a) l).

(** [l[n:]] and [l[:n]]. *)
Definition py_slice_from {A} (l : list A) (n : Z) : list A :=
  py_slice l (mkslice n (zlen l)).
Definition py_slice_to {A} (l : list A) (n : Z) : list A :=
  py_slice l (mkslice 0 n).

(** [np.where(mask)[0]]: the positions at which a boolean array is true. *)
Fixpoint where_from (i : Z) (mask : list bool) : list Z :=
  match mask with
  | [] => []
  | b :: rest => if b then i :: where_from (i + 1) rest
                 else where_from (i + 1) rest
  end.
Definition np_where (mask : list bool) : list Z := where_from 0 mask.

(** [np.arange(lo, hi)]. *)
Fixpoint arange_from (lo : Z) (n : nat) : list Z :=
  match n with
  | O => []
  | S n' => lo :: arange_from (lo + 1) n'
  end.
Definition np_arange (lo hi : Z) : list Z := arange_from lo (Z.to_nat (hi - lo)).

(* ------------------------------------------------------------------------ *)
(** ** Floats *)

(** The float nearest to a count (an integer from 0 to 2^63 - 1). *)
Definition float_of_Z (z : Z) : float := PrimFloat.of_uint63 (Uint63.of_Z z).

(** Python's [a / b] on floats. *)
Definition py_truediv (a b : float) : res float :=
  if PrimFloat.eqb b 0%float then Raise ZeroDivisionError
  else Ok (PrimFloat.div a b).

(** Python's [int(x)] on a float: truncation toward zero. *)
Definition py_int (x : float) : res Z :=
  match Prim2SF x with
  | S754_nan => Raise ValueError
  | S754_infinity _ => Raise OverflowError
  | S754_zero _ => Ok 0
  | S754_finite s m e =>
      let v := if 0 <=? e then Z.pos m * 2 ^ e else Z.pos m / 2 ^ (- e) in
      Ok (if s then - v else v)
  end.

(** [np.isfinite]. *)
Definition np_isfinite (x : float) : bool := PrimFloat.is_finite x.

(** [np.sum] of a float array.  NumPy reduces a contiguous array with its
    pairwise summation: fewer than 8 values are added in sequence; up to 128
    values are added in eight interleaved lanes, the lanes are combined as a
    balanced tree, and the values after the last full block of eight are added
    in sequence; a longer array is split in two at a multiple of 8 and the two
    sums are added. *)
Definition add_seq (acc : float) (l : list float) : float :=
  fold_left PrimFloat.add l acc.

(** [r[j] += a[i + j]] for [blocks] further blocks of eight. *)
Fixpoint add_lanes (blocks : nat) (r a : list float) : list float * list float :=
  match blocks with
  | O => (r, a)
  | S k =>
      add_lanes k (map (fun xy : float * float => (fst xy + snd xy)%float)
                       (combine r (firstn 8 a)))
                (skipn 8 a)
  end.

Definition sum_lanes (r : list float) : float :=
  match r with
  | [r0; r1; r2; r3; r4; r5; r6; r7] =>
      (((r0 + r1) + (r2 + r3)) + ((r4 + r5) + (r6 + r7)))%float
  | _ => add_seq PrimFloat.neg_zero r
  end.

(** The unrolled block, for 8 to 128 values. *)
Definition block_sum (a : list float) : float :=
  let p := add_lanes (Nat.div (List.length a) 8 - 1) (firstn 8 a) (skipn 8 a) in
  add_seq (sum_lanes (fst p)) (snd p).

(** The recursion halves the array, so the length of the array is fuel
    enough ([pairwise_sum_split]). *)
Fixpoint pairwise_sum (fuel : nat) (a : list float) : float :=
  let n := List.length a in
  if Nat.ltb n 8 then add_seq PrimFloat.neg_zero a
  else if Nat.leb n 128 then block_sum a
  else
    match fuel with
    | O => block_sum a
    | S fuel' =>
        let n2 := (Nat.div n 2 - Nat.modulo (Nat.div n 2) 8)%nat in
        (pairwise_sum fuel' (firstn n2 a) + pairwise_sum fuel' (skipn n2 a))%float
    end.

(** The reduction starts from the identity of addition.  Its iterator hands
    the array to the summation loop in chunks of the buffer size, 8192
    values, and the pairwise sum of each chunk is added to the running
    result in turn.  A chunk takes at least one value, so the length of the
    array is fuel enough ([add_chunks_fuel]). *)
Definition np_bufsize : nat := (64 * 128)%nat.

Fixpoint add_chunks (fuel : nat) (acc : float) (l : list float) : float :=
  match l with
  | [] => acc
  | _ :: _ =>
      match fuel with
      | O => acc
      | S fuel' =>
          let chunk := firstn np_bufsize l in
          add_chunks fuel' (acc + pairwise_sum (List.length chunk) chunk)%float
            (skipn np_bufsize l)
      end
  end.

Definition np_sum (l : list float) : float :=
  add_chunks (List.length l) 0%float l.

(* ------------------------------------------------------------------------ *)
(** ** Inputs and configuration *)

(** A [pd.DatetimeIndex]: its timestamps (whole seconds) and the frequency
    pandas infers for it ([None] when the grid is not regular). *)
Record DatetimeIndex : Set := mkDatetimeIndex {
  stamps : list Z;
  inferred_freq : option string
}.

(** The [dtdata] argument: a [DatetimeIndex] or any other object. *)
Inductive pydt : Set :=
| DtIndex (d : DatetimeIndex)
| OtherObject.

(** A data argument, as far as its [shape] tells: a one-dimensional array of
    floats (a [pd.Series] is converted to one on entry), a zero-dimensional
    array or NumPy scalar (its [shape] is the empty tuple), or an object
    without a [shape]. *)
Inductive pydata : Set :=
| NdArray (v : list float)
| Scalar (x : float)
| Unshaped.

(** The keyword arguments of [__init__]. *)
Record config : Set := mkconfig {
  d_tt : float;
  d_time : float;
  time_pre : float;
  time_post : float;
  d_tt_p : float;
  data_avail_cp : float;
  data_avail_all : float;
  warn_avail_cp : bool;
  warn_avail_all : bool
}.

(** The module-level defaults. *)
Definition default_config : config :=
  {| d_tt := (-2)%float;
     d_time := 20%float;
     time_pre := 30%float;
     time_post := 60%float;
     d_tt_p := (-0.5)%float;
     data_avail_cp := 1%float;
     data_avail_all := 0x1.ccccccccccccdp-1%float;   (* 0.9 *)
     warn_avail_cp := true;
     warn_avail_all := true |}.

(* ------------------------------------------------------------------------ *)
(** ** The instance *)

(** The attributes of a [cp_detection] instance.  Those assigned only inside
    [if check_all:] are optional. *)
Record instance : Set := mkinstance {
  self_ntime : Z;
  self_data_avail_cp : option float;
  self_data_avail_all : option float;
  self_warn_avail_cp : option bool;
  self_warn_avail_all : option bool;
  self_npre : option Z;
  self_npost : option Z;
  self_dtdata : pydt;
  self_ttdata : pydata;
  self_rrdata : pydata;
  self_cp_index : list Z;
  self_cp_datetime : list Z;
  self_ncp : Z
}.

(** [self] right after [self.ntime = ...]. *)
Definition new_instance (ntime : Z) : instance :=
  {| self_ntime := ntime;
     self_data_avail_cp := None; self_data_avail_all := None;
     self_warn_avail_cp := None; self_warn_avail_all := None;
     self_npre := None; self_npost := None;
     self_dtdata := OtherObject; self_ttdata := Unshaped; self_rrdata := Unshaped;
     self_cp_index := []; self_cp_datetime := []; self_ncp := 0 |}.

Definition set_avail (self : instance) (cfg : config) : instance :=
  {| self_ntime := self_ntime self;
     self_data_avail_cp := Some (data_avail_cp cfg);
     self_data_avail_all := Some (data_avail_all cfg);
     self_warn_avail_cp := Some (warn_avail_cp cfg);
     self_warn_avail_all := Some (warn_avail_all cfg);
     self_npre := self_npre self; self_npost := self_npost self;
     self_dtdata := self_dtdata self; self_ttdata := self_ttdata self;
     self_rrdata := self_rrdata self;
     self_cp_index := self_cp_index self;
     self_cp_datetime := self_cp_datetime self; self_ncp := self_ncp self |}.

Definition set_windows (self : instance) (npre npost : Z) : instance :=
  {| self_ntime := self_ntime self;
     self_data_avail_cp := self_data_avail_cp self;
     self_data_avail_all := self_data_avail_all self;
     self_warn_avail_cp := self_warn_avail_cp self;
     self_warn_avail_all := self_warn_avail_all self;
     self_npre := Some npre; self_npost := Some npost;
     self_dtdata := self_dtdata self; self_ttdata := self_ttdata self;
     self_rrdata := self_rrdata self;
     self_cp_index := self_cp_index self;
     self_cp_datetime := self_cp_datetime self; self_ncp := self_ncp self |}.

Definition set_results (self : instance) (dtdata : pydt) (ttdata rrdata : pydata)
    (cp_index cp_datetime : list Z) : instance :=
  {| self_ntime := self_ntime self;
     self_data_avail_cp := self_data_avail_cp self;
     self_data_avail_all := self_data_avail_all self;
     self_warn_avail_cp := self_warn_avail_cp self;
     self_warn_avail_all := self_warn_avail_all self;
     self_npre := self_npre self; self_npost := self_npost self;
     self_dtdata := dtdata; self_ttdata := ttdata; self_rrdata := rrdata;
     self_cp_index := cp_index;
     self_cp_datetime := cp_datetime; self_ncp := zlen cp_index |}.

(* ------------------------------------------------------------------------ *)
(** ** Internal methods *)

(** The three period slices of an event at [index_cp]. *)
Definition index_cp_slices (npre npost index_cp : Z) (period : string)
    : option slice :=
  let ipre := index_cp - npre in
  let ipost := index_cp + npost + 1 in
  if String.eqb period "pre" then Some (mkslice ipre (index_cp + 1))
  else if String.eqb period "post" then Some (mkslice (index_cp + 1) ipost)
  else if String.eqb period "all" then Some (mkslice ipre ipost)
  else None.

(** [_index_cp]: reads [self.npre] and [self.npost]; falls off the end (returns
    [None]) for any other period name. *)
Definition _index_cp (self : instance) (index_cp : Z) (period : string)
    : M (option slice) :=
  npre <- getattr (self_npre self) ;;
  npost <- getattr (self_npost self) ;;
  ret (index_cp_slices npre npost index_cp period).

(** [indata.shape[0]]: the attribute is missing on an object without
    [shape], and the empty shape of a zero-dimensional array has no first
    entry. *)
Definition shape0 (indata : pydata) : res Z :=
  match indata with
  | NdArray v => Ok (zlen v)
  | Scalar _ => Raise IndexError
  | Unshaped => Raise AttributeError
  end.

(** [_check_data_len]: [except AttributeError] makes an object without
    [shape] count as length 0; any other exception propagates. *)
Definition _check_data_len (self : instance) (indata : pydata) (varstr : string)
    : M bool :=
  len_indata <- match shape0 indata with
                | Raise AttributeError => ret 0
                | r => lift r
                end ;;
  if len_indata =? self_ntime self then ret true
  else
    when (negb (self_ntime self =? -1)) (print (LengthMismatch varstr)) ;;;
    ret false.

(** [np.sum(np.isfinite(indata)) / indata.shape[0]]. *)
Definition data_avail (indata : list float) : float :=
  (float_of_Z (zlen (filter np_isfinite indata)) / float_of_Z (zlen indata))%float.

(** [_check_data_avail]. *)
Definition _check_data_avail (indata : list float) (threshold : float)
    (warn : bool) (warnstr : string) : M bool :=
  let avail := data_avail indata in
  if (threshold <=? avail)%float then ret true
  else
    when warn (print (AvailWarning warnstr threshold avail)) ;;;
    ret false.

(** The array behind a data argument that passed the length check.  The
    other two cases pass no length check that leads here; reading their
    [shape[0]] in [_check_data_avail] would raise as in [shape0]. *)
Definition as_array (indata : pydata) : M (list float) :=
  match indata with
  | NdArray v => ret v
  | Scalar _ => raise IndexError
  | Unshaped => raise TypeError
  end.

(* ------------------------------------------------------------------------ *)
(** ** Detection ([__init__]) *)

(** [int(duration / tres)]. *)
Definition sample_count (duration tres : float) : res Z :=
  rbind (py_truediv duration tres) py_int.

(** [np.where((ttdata[ntt:] - ttdata[:-ntt]) <= d_tt)[0]]. *)
Definition drop_candidates (ttdata : list float) (ntt : Z) (d_tt : float)
    : list Z :=
  np_where (map (fun ab : float * float => (fst ab - snd ab <=? d_tt)%float)
                (combine (py_slice_from ttdata ntt) (py_slice_to ttdata (- ntt)))).

(** Time of cold-pool passage for the raw candidate [t]:
    [np.where(ttdata[slc_p] <= tt_p)[0][0] + slc_p.start - 1]. *)
Definition passage_index (ttdata : list float) (ntt : Z) (d_tt_p : float) (t : Z)
    : res Z :=
  let slc_p := mkslice t (t + ntt + 1) in
  rbind (py_getitem ttdata (start slc_p)) (fun tt0 =>
  let tt_p := (tt0 + d_tt_p)%float in
  rbind (py_getitem
           (np_where (map (fun x => (x <=? tt_p)%float) (py_slice ttdata slc_p))) 0)
        (fun k => Ok (k + start slc_p - 1))).

(** The body of [for t in t_ttlim:], from the candidates still to visit, the
    previous accepted index and the indices accepted so far. *)
Fixpoint detect_loop (self : instance) (ttdata rrdata : list float) (ntt : Z)
    (d_tt_p : float) (t_ttlim : list Z) (icp_prev : Z) (cp_index : list Z)
    : M (list Z) :=
  match t_ttlim with
  | [] => ret cp_index
  | t :: rest =>
      let continue := detect_loop self ttdata rrdata ntt d_tt_p rest in
      npost <- getattr (self_npost self) ;;
      if t - icp_prev <=? npost then continue icp_prev cp_index
      else
        icp <- lift (passage_index ttdata ntt d_tt_p t) ;;
        slc_post <- (s <- _index_cp self icp "post" ;; getattr s) ;;
        slc_all <- (s <- _index_cp self icp "all" ;; getattr s) ;;
        if (start slc_all <? 0) || (self_ntime self <? stop slc_all)
        then continue icp_prev cp_index
        else
          avail_cp <- getattr (self_data_avail_cp self) ;;
          check_avail_tt <-
            _check_data_avail (py_slice ttdata slc_all) avail_cp false "event" ;;
          check_avail_rr <-
            _check_data_avail (py_slice rrdata slc_all) avail_cp false "event" ;;
          if negb check_avail_tt || negb check_avail_rr
          then continue icp_prev cp_index
          else if (np_sum (py_slice rrdata slc_post) =? 0)%float
          then continue icp_prev cp_index
          else continue icp (cp_index ++ [icp])
  end.

(** [check_dt], and [tres] when a frequency was inferred. *)
Definition check_grid (dtdata : pydt) : M (bool * option float) :=
  match dtdata with
  | DtIndex d =>
      match inferred_freq d with
      | None => print NoRegularGrid ;;; ret (true, None)
      | Some _ =>
          d1 <- lift (py_getitem (stamps d) 1) ;;
          d0 <- lift (py_getitem (stamps d) 0) ;;
          (* Timedelta.seconds, then true division by 60 *)
          ret (true, Some (float_of_Z ((d1 - d0) mod 86400) / 60)%float)
      end
  | OtherObject => print NotDatetimeIndex ;;; ret (false, None)
  end.

(** The block under [if check_all:]. *)
Definition detect (self : instance) (ttdata rrdata : pydata) (tres : float)
    (cfg : config) : M (instance * list Z) :=
  let self := set_avail self cfg in
  avail_all <- getattr (self_data_avail_all self) ;;
  warn_all <- getattr (self_warn_avail_all self) ;;
  tt <- as_array ttdata ;;
  rr <- as_array rrdata ;;
  _check_data_avail tt avail_all warn_all "TT" ;;;
  _check_data_avail rr avail_all warn_all "RR" ;;;
  ntt <- lift (sample_count (d_time cfg) tres) ;;
  npre <- lift (sample_count (time_pre cfg) tres) ;;
  npost <- lift (sample_count (time_post cfg) tres) ;;
  when (ntt <=? 0) (print (ResolutionTooLow "d_time")) ;;;
  when (npre <=? 0) (print (ResolutionTooLow "time_pre")) ;;;
  when (npost <=? 0) (print (ResolutionTooLow "time_post")) ;;;
  let t_ttlim :=
    if (0 <? ntt) && (0 <? npre) && (0 <? npost)
    then drop_candidates tt ntt (d_tt cfg)
    else [] in
  let self := set_windows self npre npost in
  cp_index <- detect_loop self tt rr ntt (d_tt_p cfg) t_ttlim (-99999) [] ;;
  ret (self, cp_index).

(** [dtdata[self.cp_index]]. *)
Fixpoint take_stamps (l : list Z) (idx : list Z) : res (list Z) :=
  match idx with
  | [] => Ok []
  | i :: rest =>
      rbind (py_getitem l i) (fun x =>
      rbind (take_stamps l rest) (fun xs => Ok (x :: xs)))
  end.

(** [cp_detection.__init__]. *)
Definition cp_detection (dtdata : pydt) (ttdata rrdata : pydata) (cfg : config)
    : M instance :=
  g <- check_grid dtdata ;;
  let check_dt := fst g in
  let check_tres := match snd g with Some _ => true | None => false end in
  let ntime :=
    match dtdata with
    | DtIndex d => if check_dt then zlen (stamps d) else -1
    | OtherObject => -1
    end in
  let self := new_instance ntime in
  check_len_tt <- _check_data_len self ttdata "TT" ;;
  check_len_rr <- _check_data_len self rrdata "RR" ;;
  let check_all := check_dt && check_tres && check_len_tt && check_len_rr in
  r <- match snd g with
       | Some tres =>
           if check_all then detect self ttdata rrdata tres cfg
           else ret (self, [])
       | None => ret (self, [])
       end ;;
  let self := fst r in
  let cp_index := snd r in
  cp_datetime <-
    match dtdata with
    | DtIndex d =>
        if check_dt then lift (take_stamps (stamps d) cp_index) else ret cp_index
    | OtherObject => ret cp_index
    end ;;
  ret (set_results self dtdata ttdata rrdata cp_index cp_datetime).

(* ------------------------------------------------------------------------ *)
(** ** Data frames and reductions (pandas) *)

(** A [pd.DataFrame] of floats: the row labels and, per column key, the values
    down the rows. *)
Record DataFrame : Set := mkframe {
  df_index : list Z;
  df_columns : list (Z * list float)
}.

(** What the queries return: a frame, a series keyed like a frame's columns,
    or [None]. *)
Inductive pdobj : Set :=
| Frame (d : DataFrame)
| Series (s : list (Z * float))
| PyNone.

(** [pd.DataFrame()]. *)
Definition empty_frame : DataFrame := mkframe [] [].

(** [DataFrame.empty]: some axis has length 0. *)
Definition df_empty (d : DataFrame) : bool :=
  (zlen (df_index d) =? 0) || (zlen (df_columns d) =? 0).

Definition lookup {V : Type} (k : Z) (l : list (Z * V)) : option V :=
  option_map snd (find (fun p => fst p =? k) l).

Fixpoint set_assoc {V : Type} (k : Z) (v : V) (l : list (Z * V)) : list (Z * V) :=
  match l with
  | [] => [(k, v)]
  | p :: rest => if fst p =? k then (k, v) :: rest else p :: set_assoc k v rest
  end.

(** [outdata[key] = value]: an array must be as long as the index, a scalar
    ([None] here, standing for [np.nan]) fills the column. *)
Definition set_column (outdata : DataFrame) (key : Z) (value : option (list float))
    : res DataFrame :=
  match value with
  | Some col =>
      if zlen col =? zlen (df_index outdata)
      then Ok (mkframe (df_index outdata) (set_assoc key col (df_columns outdata)))
      else Raise ValueError
  | None =>
      Ok (mkframe (df_index outdata)
            (set_assoc key (map (fun _ => PrimFloat.nan) (df_index outdata))
               (df_columns outdata)))
  end.

(** The value of column [key] at row label [label]. *)
Definition cell (d : DataFrame) (key label : Z) : option float :=
  match lookup key (df_columns d) with
  | Some col => lookup label (combine (df_index d) col)
  | None => None
  end.

(** Label slicing [eventdata.loc[...]] on the rows. *)
Definition select_rows (keep : Z -> bool) (d : DataFrame) : DataFrame :=
  mkframe (filter keep (df_index d))
    (map (fun kc : Z * list float =>
            (fst kc,
             map snd (filter (fun p : Z * float => keep (fst p))
                        (combine (df_index d) (snd kc)))))
         (df_columns d)).

(** The numeric reductions of one column: what [DataFrame.median], [mean],
    [max], [min] and [sum] compute down the rows of each column.  They are
    library code of pandas, and their rounding and their treatment of signed
    zeros and of missing values are not fixed by this program; the queries
    are modelled for any such reductions.  All that is used of them is that
    each yields, for every column, one float computed from the values of
    that column. *)
Class Pandas : Type := {
  pd_median : list float -> float;
  pd_mean : list float -> float;
  pd_max : list float -> float;
  pd_min : list float -> float;
  pd_sum : list float -> float
}.

(** A reduction applied to every column: a series keyed like the columns. *)
Definition reduce_columns (f : list float -> float) (d : DataFrame) : pdobj :=
  Series (map (fun kc : Z * list float => (fst kc, f (snd kc))) (df_columns d)).

(** [eventdata.iloc[i]] for [i] = 0 or -1: one row, as a series. *)
Definition iloc_row (d : DataFrame) (i : Z) : res pdobj :=
  rbind (py_getitem (df_index d) i) (fun _ =>
  Ok (Series (map (fun kc : Z * list float =>
                     (fst kc,
                      match py_getitem (snd kc) i with
                      | Ok x => x
                      | Raise _ => PrimFloat.nan
                      end))
                  (df_columns d)))).

Definition union_keys (a b : list Z) : list Z :=
  a ++ filter (fun k => negb (existsb (Z.eqb k) a)) b.

(** [x - y] on series: aligned on their keys. *)
Definition series_sub (x y : list (Z * float)) : list (Z * float) :=
  map (fun k => (k, match lookup k x, lookup k y with
                    | Some a, Some b => (a - b)%float
                    | _, _ => PrimFloat.nan
                    end))
      (union_keys (map fst x) (map fst y)).

(** [x - y] on frames: aligned on rows and columns. *)
Definition frame_sub (x y : DataFrame) : DataFrame :=
  let idx := union_keys (df_index x) (df_index y) in
  let keys := union_keys (map fst (df_columns x)) (map fst (df_columns y)) in
  mkframe idx
    (map (fun k => (k, map (fun r => match cell x k r, cell y k r with
                                     | Some a, Some b => (a - b)%float
                                     | _, _ => PrimFloat.nan
                                     end) idx))
         keys).

(** A frame and a series: the series is aligned with the columns and applied
    to every row. *)
Definition frame_series (f : float -> float -> float) (d : DataFrame)
    (s : list (Z * float)) : DataFrame :=
  let keys := union_keys (map fst (df_columns d)) (map fst s) in
  mkframe (df_index d)
    (map (fun k => (k, map (fun r => match cell d k r, lookup k s with
                                     | Some a, Some b => f a b
                                     | _, _ => PrimFloat.nan
                                     end) (df_index d)))
         keys).

(** The [-] of [post_val - pre_val]. *)
Definition py_sub (x y : pdobj) : res pdobj :=
  match x, y with
  | Series a, Series b => Ok (Series (series_sub a b))
  | Frame a, Frame b => Ok (Frame (frame_sub a b))
  | Frame a, Series b => Ok (Frame (frame_series PrimFloat.sub a b))
  | Series a, Frame b =>
      Ok (Frame (frame_series (fun u v => PrimFloat.sub v u) b a))
  | _, _ => Raise TypeError
  end.

(* ------------------------------------------------------------------------ *)
(** ** Reductions over event periods *)

Definition funcavail : list string :=
  ["median"; "mean"; "max"; "min"; "sum"; "first"; "last"]%string.

Definition periods : list string := ["pre"; "post"; "all"]%string.

Definition py_in (x : string) (l : list string) : bool :=
  existsb (String.eqb x) l.

Section Queries.
Context {pandas : Pandas}.

(** [_calc_val]. *)
Definition _calc_val (eventdata : DataFrame) (funcstr : string) : M pdobj :=
  if negb (py_in funcstr funcavail) then
    print (FunctionUnavailable funcstr) ;;;
    ret (Frame empty_frame)
  else if String.eqb funcstr "median" then ret (reduce_columns pd_median eventdata)
  else if String.eqb funcstr "mean" then ret (reduce_columns pd_mean eventdata)
  else if String.eqb funcstr "max" then ret (reduce_columns pd_max eventdata)
  else if String.eqb funcstr "min" then ret (reduce_columns pd_min eventdata)
  else if String.eqb funcstr "sum" then ret (reduce_columns pd_sum eventdata)
  else if String.eqb funcstr "first" then lift (iloc_row eventdata 0)
  else if String.eqb funcstr "last" then lift (iloc_row eventdata (-1))
  else ret PyNone.

(** [_pre_val]: rows up to label [slc_pre.stop - 1]. *)
Definition _pre_val (self : instance) (eventdata : DataFrame) (funcstr : string)
    : M pdobj :=
  if df_empty eventdata then ret (Frame eventdata)
  else
    slc_pre <- (s <- _index_cp self 0 "pre" ;; getattr s) ;;
    _calc_val (select_rows (fun l => l <=? stop slc_pre - 1) eventdata) funcstr.

(** [_post_val]: rows from label [slc_post.start] on. *)
Definition _post_val (self : instance) (eventdata : DataFrame) (funcstr : string)
    : M pdobj :=
  if df_empty eventdata then ret (Frame eventdata)
  else
    slc_post <- (s <- _index_cp self 0 "post" ;; getattr s) ;;
    _calc_val (select_rows (fun l => start slc_post <=? l) eventdata) funcstr.

(** [_all_val]. *)
Definition _all_val (self : instance) (eventdata : DataFrame) (funcstr : string)
    : M pdobj :=
  if df_empty eventdata then ret (Frame eventdata)
  else _calc_val eventdata funcstr.

(* ------------------------------------------------------------------------ *)
(** ** External methods *)

Definition number (self : instance) : Z := self_ncp self.
Definition indices (self : instance) : list Z := self_cp_index self.
Definition datetimes (self : instance) : list Z := self_cp_datetime self.

(** The loop of [var_time] over [enumerate(self.cp_index)]. *)
Fixpoint var_time_loop (self : instance) (indata : list float) (cp : Z)
    (cp_index : list Z) (outdata : DataFrame) : M DataFrame :=
  match cp_index with
  | [] => ret outdata
  | icp :: rest =>
      slc_all <- (s <- _index_cp self icp "all" ;; getattr s) ;;
      avail_cp <- getattr (self_data_avail_cp self) ;;
      warn_cp <- getattr (self_warn_avail_cp self) ;;
      check_avail <-
        _check_data_avail (py_slice indata slc_all) avail_cp warn_cp "event" ;;
      key <- lift (py_getitem (self_cp_datetime self) cp) ;;
      outdata <- lift (set_column outdata key
                         (if check_avail then Some (py_slice indata slc_all)
                          else None)) ;;
      var_time_loop self indata (cp + 1) rest outdata
  end.

(** [var_time]. *)
Definition var_time (self : instance) (indata : pydata) : M DataFrame :=
  check_len <- _check_data_len self indata "Provided" ;;
  if negb check_len then ret empty_frame
  else
    avail_all <- getattr (self_data_avail_all self) ;;
    warn_all <- getattr (self_warn_avail_all self) ;;
    v <- as_array indata ;;
    _check_data_avail v avail_all warn_all "provided" ;;;
    npre <- getattr (self_npre self) ;;
    npost <- getattr (self_npost self) ;;
    let event_index := np_arange (- npre) (npost + 1) in
    var_time_loop self v 0 (self_cp_index self) (mkframe event_index []).

(** [var_pert]. *)
Definition var_pert (self : instance) (indata : pydata) (prefunc postfunc : string)
    : M pdobj :=
  ev_pre <- var_time self indata ;;
  pre_val <- _pre_val self ev_pre prefunc ;;
  ev_post <- var_time self indata ;;
  post_val <- _post_val self ev_post postfunc ;;
  lift (py_sub post_val pre_val).

(** [var_val]. *)
Definition var_val (self : instance) (indata : pydata) (period funcstr : string)
    : M pdobj :=
  if negb (py_in period periods) then
    print (PeriodUnavailable period) ;;;
    ret (Frame empty_frame)
  else if String.eqb period "pre" then
    ev <- var_time self indata ;; _pre_val self ev funcstr
  else if String.eqb period "post" then
    ev <- var_time self indata ;; _post_val self ev funcstr
  else if String.eqb period "all" then
    ev <- var_time self indata ;; _all_val self ev funcstr
  else ret PyNone.

Definition tt_pert (self : instance) : M pdobj :=
  var_pert self (self_ttdata self) "median" "min".
Definition tt_pre (self : instance) : M pdobj :=
  ev <- var_time self (self_ttdata self) ;; _pre_val self ev "median".
Definition tt_time (self : instance) : M DataFrame :=
  var_time self (self_ttdata self).
Definition rr_sum (self : instance) : M pdobj :=
  ev <- var_time self (self_rrdata self) ;; _all_val self ev "sum".
Definition rr_max (self : instance) : M pdobj :=
  ev <- var_time self (self_rrdata self) ;; _all_val self ev "max".
Definition rr_time (self : instance) : M DataFrame :=
  var_time self (self_rrdata self).
Definition pp_pert (self : instance) (ppdata : pydata) : M pdobj :=
  var_pert self ppdata "median" "max".
Definition ff_pert (self : instance) (ffdata : pydata) : M pdobj :=
  var_pert self ffdata "median" "max".

End Queries.

(* ------------------------------------------------------------------------ *)
(** ** Vocabulary of the statements *)

(** What the loop body has checked when it appends [icp] for the candidate
    [t], the previous accepted index being [prev]. *)
Definition accepted_at (ntime npre npost : Z) (avail_cp : float)
    (ttdata rrdata : list float) (ntt : Z) (p : float) (prev t icp : Z) : Prop :=
  npost < t - prev /\
  passage_index ttdata ntt p t = Ok icp /\
  0 <= icp - npre /\
  icp + npost + 1 <= ntime /\
  (avail_cp <=? data_avail
     (py_slice ttdata (mkslice (icp - npre) (icp + npost + 1))))%float = true /\
  (avail_cp <=? data_avail
     (py_slice rrdata (mkslice (icp - npre) (icp + npost + 1))))%float = true /\
  (np_sum (py_slice rrdata (mkslice (icp + 1) (icp + npost + 1))) =? 0)%float = false.

(** The candidates the loop visits, given the three sample counts. *)
Definition visited (ttdata : list float) (ntt npre npost : Z) (d : float) : list Z :=
  if (0 <? ntt) && (0 <? npre) && (0 <? npost)
  then drop_candidates ttdata ntt d
  else [].

(** [tres]: the first step of the grid in minutes,
    [(dtdata[1] - dtdata[0]).seconds / 60]. *)
Definition grid_tres (d : DatetimeIndex) : res float :=
  rbind (py_getitem (stamps d) 1) (fun d1 =>
  rbind (py_getitem (stamps d) 0) (fun d0 =>
  Ok (float_of_Z ((d1 - d0) mod 86400) / 60)%float)).

(** The instance [e] was built with all checks passed: the grid [d], the two
    arrays, the sample counts, and the run of the loop that gave its events. *)
Record detection_ran (dtdata : pydt) (ttdata rrdata : pydata) (cfg : config)
    (e : instance) (d : DatetimeIndex) (tt rr : list float) (ntt npre npost : Z)
    : Prop := mk_detection_ran {
  ran_dt : dtdata = DtIndex d;
  ran_tt : ttdata = NdArray tt;
  ran_rr : rrdata = NdArray rr;
  ran_len_tt : zlen tt = zlen (stamps d);
  ran_len_rr : zlen rr = zlen (stamps d);
  ran_ntime : self_ntime e = zlen (stamps d);
  ran_npre : self_npre e = Some npre;
  ran_npost : self_npost e = Some npost;
  ran_avail_cp : self_data_avail_cp e = Some (data_avail_cp cfg);
  ran_avail_all : self_data_avail_all e = Some (data_avail_all cfg);
  ran_warn_cp : self_warn_avail_cp e = Some (warn_avail_cp cfg);
  ran_warn_all : self_warn_avail_all e = Some (warn_avail_all cfg);
  ran_self_rr : self_rrdata e = NdArray rr;
  ran_self_tt : self_ttdata e = NdArray tt;
  ran_stamps : take_stamps (stamps d) (self_cp_index e) = Ok (self_cp_datetime e);
  ran_ncp : self_ncp e = zlen (self_cp_index e);
  ran_counts :
    exists tres,
      grid_tres d = Ok tres /\
      sample_count (d_time cfg) tres = Ok ntt /\
      sample_count (time_pre cfg) tres = Ok npre /\
      sample_count (time_post cfg) tres = Ok npost;
  ran_loop :
    exists out,
      detect_loop
        (set_windows (set_avail (new_instance (zlen (stamps d))) cfg) npre npost)
        tt rr ntt (d_tt_p cfg) (visited tt ntt npre npost (d_tt cfg)) (-99999) []
      = (out, Ok (self_cp_index e))
}.

(** [e] is what [cp_detection(dtdata, ttdata, rrdata, ...)] constructs. *)
Definition constructed (dtdata : pydt) (ttdata rrdata : pydata) (cfg : config)
    (e : instance) : Prop :=
  exists out, cp_detection dtdata ttdata rrdata cfg = (out, Ok e).

(** The rainfall samples of the post-period of the event at [icp],
    [rrdata[slc_post]], and the sum the loop tests, [np.sum(rrdata[slc_post])]. *)
Definition post_samples (rr : list float) (npost icp : Z) : list float :=
  py_slice rr (mkslice (icp + 1) (icp + npost + 1)).
Definition post_rain (rr : list float) (npost icp : Z) : float :=
  np_sum (post_samples rr npost icp).

(** A float that is zero, positive or plus infinity, as its specification
    value shows it. *)
Definition sf_nonneg (x : spec_float) : Prop :=
  match x with
  | S754_zero _ => True
  | S754_infinity s => s = false
  | S754_finite s _ _ => s = false
  | S754_nan => False
  end.

(** The column [var_time] writes for the event at [icp]: the slice of the
    "all" period when the availability gate passes, else NaN throughout. *)
Definition event_column (indata : list float) (avail_cp : float)
    (npre npost icp : Z) : list float :=
  let slc_all := mkslice (icp - npre) (icp + npost + 1) in
  if (avail_cp <=? data_avail (py_slice indata slc_all))%float
  then py_slice indata slc_all
  else map (fun _ => PrimFloat.nan) (np_arange (- npre) (npost + 1)).

(** Column assignments in sequence. *)
Definition assign_columns (pairs : list (Z * list float))
    (cols : list (Z * list float)) : list (Z * list float) :=
  fold_left (fun cols kc => set_assoc (fst kc) (snd kc) cols) pairs cols.

(** The length [_check_data_len] compares with the grid's; a
    zero-dimensional array has none. *)
Definition data_len (indata : pydata) : option Z :=
  match indata with
  | NdArray v => Some (zlen v)
  | Scalar _ => None
  | Unshaped => Some 0
  end.

(** The structural failures of validation: [dtdata] is not a
    [DatetimeIndex], no frequency is inferred for it, or a data array has
    another length than the grid. *)
Definition structurally_invalid (dtdata : pydt) (ttdata rrdata : pydata) : Prop :=
  match dtdata with
  | OtherObject => True
  | DtIndex d =>
      inferred_freq d = None \/
      data_len ttdata <> Some (zlen (stamps d)) \/
      data_len rrdata <> Some (zlen (stamps d))
  end.

(** pandas infers a frequency only for a grid of three timestamps or more. *)
Definition freq_needs_three (dtdata : pydt) : Prop :=
  match dtdata with
  | OtherObject => True
  | DtIndex d => inferred_freq d <> None -> 3 <= zlen (stamps d)
  end.

(** The timestamps of the grid are pairwise distinct. *)
Definition distinct_stamps (dtdata : pydt) : Prop :=
  match dtdata with
  | DtIndex d => NoDup (stamps d)
  | OtherObject => True
  end.

(* ------------------------------------------------------------------------ *)
(** ** Vocabulary of binary64 rounding *)

(** The value of a finite binary64 number, counted in units of 2^-1074, the
    smallest positive binary64 number: every finite binary64 number is a
    whole number of these units. *)
Definition sf_units (x : spec_float) : Z :=
  match x with
  | S754_finite s m e => cond_Zopp s (Z.pos m * 2 ^ (e + 1074))
  | _ => 0
  end.

(** A zero or a finite non-zero number: neither NaN nor an infinity. *)
Definition sf_finite (x : spec_float) : Prop :=
  match x with
  | S754_zero _ | S754_finite _ _ _ => True
  | _ => False
  end.

(** A right shift lost a non-zero bit. *)
Definition shr_inexact (mrs : shr_record) : bool := shr_r mrs || shr_s mrs.

(** The largest finite binary64 number, in units. *)
Definition max_units : Z := (2 ^ 53 - 1) * 2 ^ 2045.

(** [R] is a rounding of the exact value [V] (in units): no binary64 number
    lies strictly between the two, and an infinity stands for a value beyond
    the largest finite number. *)
Definition rounds_to (V : Z) (R : spec_float) : Prop :=
  match R with
  | S754_nan => False
  | S754_infinity s => if s then V < - max_units else max_units < V
  | _ => forall y, valid_binary y = true -> sf_finite y ->
           (sf_units y <= V -> sf_units y <= sf_units R) /\
           (V <= sf_units y -> sf_units R <= sf_units y)
  end.

(* ------------------------------------------------------------------------ *)
(** ** Sample runs *)

(** Reductions to run the sample queries with: each gives the first value of
    the column.  They stand in for pandas in the sample runs only; the
    properties hold for every [Pandas] and none depends on these. *)
Definition sample_pandas : Pandas :=
  {| pd_median := hd PrimFloat.nan;
     pd_mean := hd PrimFloat.nan;
     pd_max := hd PrimFloat.nan;
     pd_min := hd PrimFloat.nan;
     pd_sum := hd PrimFloat.nan |}.

(** A regular grid of [n] timestamps, [step] seconds apart. *)
Definition grid (step : Z) (n : nat) : DatetimeIndex :=
  mkDatetimeIndex (map (fun i => step * Z.of_nat i) (seq 0 n)) (Some "T"%string).

Definition instance_of (r : M instance) : instance :=
  match snd r with
  | Ok e => e
  | Raise _ => new_instance 0
  end.

(** Two drops on a 20-minute grid with the default thresholds; the second
    starts from a sample of 2^60 (a fill value left in the record). *)
Definition tt_two : list float := [300; 300; 290; 290; 290; 0x1p60; 0; 0]%float.
Definition rr_two : list float := [0; 0; 1; 0; 0; 1; 0; 0]%float.
Definition run_two : M instance :=
  cp_detection (DtIndex (grid 1200 8)) (NdArray tt_two) (NdArray rr_two)
    default_config.
Definition self_two : instance := Eval vm_compute in instance_of run_two.

(** One drop, a rainfall gap after it, and events accepted at half coverage. *)
Definition cfg_half : config :=
  {| d_tt := (-2)%float; d_time := 20%float; time_pre := 30%float;
     time_post := 60%float; d_tt_p := (-0.5)%float;
     data_avail_cp := 0.5%float; data_avail_all := 0.5%float;
     warn_avail_cp := true; warn_avail_all := true |}.
Definition tt_gap : list float := [300; 300; 290; 290; 290]%float.
Definition rr_gap : list float := [0; 0; 0; PrimFloat.nan; 0]%float.
Definition run_gap : M instance :=
  cp_detection (DtIndex (grid 1200 5)) (NdArray tt_gap) (NdArray rr_gap) cfg_half.
Definition self_gap : instance := Eval vm_compute in instance_of run_gap.

(** A drop on a grid of 225 seconds (post-period of 16 samples) followed by
    rainfall whose large values cancel: the eight lanes of the pairwise
    summation keep the two small amounts that a sum in sequence loses. *)
Definition tt_lanes : list float :=
  (repeat 300 9 ++ repeat 290 16)%float.
Definition rr_lanes : list float :=
  (repeat 0 9
   ++ [0x1p200; 1; 1; 0; 0; 0; 0; 0; -0x1p200; 0; 0; 0; 0; 0; 0; 0])%float.
Definition run_lanes : M instance :=
  cp_detection (DtIndex (grid 225 25)) (NdArray tt_lanes) (NdArray rr_lanes)
    default_config.

(** A temperature array one sample short of a 10-minute grid. *)
Definition run_short : M instance :=
  cp_detection (DtIndex (grid 600 3)) (NdArray [300; 290]%float)
    (NdArray [0; 1; 0]%float) default_config.
Definition self_short : instance := Eval vm_compute in instance_of run_short.

(* ------------------------------------------------------------------------ *)
(** ** Vocabulary of the further properties *)

(** [self.ntime]: the length of the grid, or -1 without a grid. *)
Definition grid_len (dtdata : pydt) : Z :=
  match dtdata with
  | DtIndex d => zlen (stamps d)
  | OtherObject => -1
  end.

(** None of the attributes assigned under [if check_all:] is set. *)
Definition unconfigured (e : instance) : Prop :=
  self_data_avail_cp e = None /\ self_data_avail_all e = None /\
  self_warn_avail_cp e = None /\ self_warn_avail_all e = None /\
  self_npre e = None /\ self_npost e = None.

(** The "all" period of the event at [icp]. *)
Definition all_slice (npre npost icp : Z) : slice :=
  mkslice (icp - npre) (icp + npost + 1).

(** A float that is zero, of either sign, as its specification value shows
    it. *)
Definition sf_zero (x : spec_float) : Prop :=
  match x with
  | S754_zero _ => True
  | _ => False
  end.

(** What [_check_data_len] prints when the lengths differ. *)
Definition length_diag (e : instance) (varstr : string) : list diag :=
  if self_ntime e =? -1 then [] else [LengthMismatch varstr].

(** What [_check_data_avail] prints. *)
Definition avail_diag (indata : list float) (threshold : float) (warn : bool)
    (warnstr : string) : list diag :=
  fst (_check_data_avail indata threshold warn warnstr).

(** The warnings [var_time] prints for the events, one per event whose
    window fails the gate (when the per-event warning flag is set). *)
Definition event_diags (indata : list float) (avail_cp : float) (warn_cp : bool)
    (npre npost : Z) (cp_index : list Z) : list diag :=
  flat_map (fun icp => avail_diag (py_slice indata (all_slice npre npost icp))
                         avail_cp warn_cp "event")
           cp_index.

(** Two configurations that differ at most in the global availability
    threshold and the two warning flags. *)
Definition same_detection_config (cfg cfg' : config) : Prop :=
  d_tt cfg = d_tt cfg' /\ d_time cfg = d_time cfg' /\
  time_pre cfg = time_pre cfg' /\ time_post cfg = time_post cfg' /\
  d_tt_p cfg = d_tt_p cfg' /\ data_avail_cp cfg = data_avail_cp cfg'.

(** The value [var_time] holds for an event at offset [k] of a series: the
    sample [k] steps from the passage when the gate passes on the event's
    window, NaN when it fails. *)
Definition windowed_value (series : list float) (avail_cp : float)
    (npre npost icp k : Z) : option float :=
  if (avail_cp <=? data_avail (py_slice series (all_slice npre npost icp)))%float
  then nth_error series (Z.to_nat (icp + k))
  else Some PrimFloat.nan.

(* ======================================================================== *)
(** * Properties *)

(* ------------------------------------------------------------------------ *)
(** ** The evaluation monad *)

Lemma bind_ret_l {A B} (a : A) (k : A -> M B) : bind (ret a) k = k a.
Proof. unfold bind, ret. destruct (k a); reflexivity. Qed.

Lemma bind_lift_Ok {A B} (a : A) (k : A -> M B) : bind (lift (Ok a)) k = k a.
Proof. apply bind_ret_l. Qed.

Lemma bind_getattr_Some {A B} (a : A) (k : A -> M B) :
  bind (getattr (Some a)) k = k a.
Proof. apply bind_ret_l. Qed.

Lemma bind_Ok {A B} (m : M A) (k : A -> M B) out b :
  bind m k = (out, Ok b) ->
  exists o1 a o2, m = (o1, Ok a) /\ k a = (o2, Ok b) /\ out = o1 ++ o2.
Proof.
  unfold bind. destruct m as [o1 [a | e]]; [| discriminate].
  destruct (k a) as [o2 r] eqn:Hk. intros H. inversion H; subst.
  exists o1, a, o2. auto.
Qed.

Lemma lift_Ok_inv {A} (r : res A) out a : lift r = (out, Ok a) -> r = Ok a /\ out = [].
Proof. unfold lift. intros H. inversion H. auto. Qed.

Lemma ret_inv {A} (a b : A) out : ret a = (out, Ok b) -> a = b /\ out = [].
Proof. unfold ret. intros H. inversion H. auto. Qed.

Lemma check_data_avail_quiet indata threshold warnstr :
  _check_data_avail indata threshold false warnstr
  = ret (threshold <=? data_avail indata)%float.
Proof.
  unfold _check_data_avail. destruct (threshold <=? data_avail indata)%float; reflexivity.
Qed.

Lemma check_data_avail_value indata threshold warn warnstr :
  exists out, _check_data_avail indata threshold warn warnstr
              = (out, Ok (threshold <=? data_avail indata)%float).
Proof.
  unfold _check_data_avail.
  destruct (threshold <=? data_avail indata)%float; [eexists; reflexivity |].
  destruct warn; eexists; reflexivity.
Qed.

Lemma check_data_len_value self indata varstr n :
  data_len indata = Some n ->
  exists out, _check_data_len self indata varstr
    = (out, Ok (n =? self_ntime self)).
Proof.
  intros H.
  assert (Hlen : match shape0 indata with
                 | Raise AttributeError => ret 0
                 | r => lift r
                 end = ret n)
    by (destruct indata; inversion H; reflexivity).
  unfold _check_data_len. rewrite Hlen, bind_ret_l.
  destruct (n =? self_ntime self); [eexists; reflexivity |].
  destruct (negb _); eexists; reflexivity.
Qed.

Lemma check_data_len_pass self indata varstr :
  data_len indata = Some (self_ntime self) ->
  _check_data_len self indata varstr = ret true.
Proof.
  intros H.
  assert (Hlen : match shape0 indata with
                 | Raise AttributeError => ret 0
                 | r => lift r
                 end = ret (self_ntime self))
    by (destruct indata; inversion H; reflexivity).
  unfold _check_data_len. rewrite Hlen, bind_ret_l, Z.eqb_refl. reflexivity.
Qed.

Lemma check_data_len_scalar self x varstr :
  _check_data_len self (Scalar x) varstr = ([], Raise IndexError).
Proof. reflexivity. Qed.

Lemma data_len_None indata : data_len indata = None -> exists x, indata = Scalar x.
Proof. destruct indata; cbn; intros H; inversion H. eauto. Qed.

Lemma index_cp_set self npre npost i period :
  self_npre self = Some npre -> self_npost self = Some npost ->
  _index_cp self i period = ret (index_cp_slices npre npost i period).
Proof. intros H1 H2. unfold _index_cp. rewrite H1, H2. reflexivity. Qed.

(* ------------------------------------------------------------------------ *)
(** ** Sequences *)

Lemma zlen_nonneg {A} (l : list A) : 0 <= zlen l.
Proof. unfold zlen. lia. Qed.

Lemma py_bound_inside n i : 0 <= i <= n -> py_bound n i = i.
Proof. intros H. unfold py_bound. destruct (i <? 0) eqn:E; lia. Qed.

Lemma py_slice_inside {A} (l : list A) a b :
  0 <= a -> a <= b -> b <= zlen l ->
  py_slice l (mkslice a b) = firstn (Z.to_nat (b - a)) (skipn (Z.to_nat a) l).
Proof.
  intros. unfold py_slice; cbn [start stop].
  rewrite !py_bound_inside by lia. reflexivity.
Qed.

Lemma py_slice_length {A} (l : list A) a b :
  0 <= a -> a <= b -> b <= zlen l -> zlen (py_slice l (mkslice a b)) = b - a.
Proof.
  intros. rewrite py_slice_inside by assumption. unfold zlen in *.
  rewrite length_firstn, length_skipn. lia.
Qed.

Lemma py_slice_nth {A} (l : list A) a b k :
  0 <= a -> a <= b -> b <= zlen l -> 0 <= k < b - a ->
  nth_error (py_slice l (mkslice a b)) (Z.to_nat k) = nth_error l (Z.to_nat (a + k)).
Proof.
  intros. rewrite py_slice_inside by assumption.
  rewrite nth_error_firstn.
  destruct (Nat.ltb_spec (Z.to_nat k) (Z.to_nat (b - a))); [| lia].
  rewrite nth_error_skipn. f_equal. lia.
Qed.

Lemma py_getitem_Ok {A} (l : list A) i x :
  0 <= i -> (py_getitem l i = Ok x <-> nth_error l (Z.to_nat i) = Some x).
Proof.
  intros Hi. unfold py_getitem.
  destruct (i <? 0) eqn:E; [lia |]. rewrite E.
  destruct (nth_error l (Z.to_nat i)); split; intros H; inversion H; auto.
Qed.

(** The positions [np.where] returns, and the first of them. *)
Lemma where_from_In mask : forall i k,
  In k (where_from i mask) <->
  i <= k /\ nth_error mask (Z.to_nat (k - i)) = Some true.
Proof.
  induction mask as [| b rest IH]; intros i k; cbn [where_from].
  - split; [intros [] | intros [_ H]]. destruct (Z.to_nat (k - i)); discriminate.
  - assert (Hstep : i + 1 <= k ->
              nth_error (b :: rest) (Z.to_nat (k - i))
              = nth_error rest (Z.to_nat (k - (i + 1)))).
    { intros Hk. replace (Z.to_nat (k - i)) with (S (Z.to_nat (k - (i + 1)))) by lia.
      reflexivity. }
    destruct b.
    + cbn [In]. rewrite IH. split.
      * intros [<- | [Hk Hn]].
        -- split; [lia |]. replace (Z.to_nat (i - i)) with O by lia. reflexivity.
        -- split; [lia |]. rewrite Hstep; assumption.
      * intros [Hk Hn]. destruct (Z.eq_dec i k) as [-> | Hne]; [left; reflexivity |].
        right. split; [lia |]. rewrite <- Hstep by lia. assumption.
    + rewrite IH. split.
      * intros [Hk Hn]. split; [lia |]. rewrite Hstep; assumption.
      * intros [Hk Hn]. destruct (Z.eq_dec i k) as [-> | Hne].
        -- replace (Z.to_nat (k - k)) with O in Hn by lia. discriminate.
        -- split; [lia |]. rewrite <- Hstep by lia. assumption.
Qed.

Lemma where_from_first mask : forall i k,
  py_getitem (where_from i mask) 0 = Ok k <->
  i <= k /\ nth_error mask (Z.to_nat (k - i)) = Some true /\
  forall j, i <= j < k -> nth_error mask (Z.to_nat (j - i)) = Some false.
Proof.
  induction mask as [| b rest IH]; intros i k.
  - cbn. split; [discriminate | intros (_ & H & _)].
    destruct (Z.to_nat (k - i)); discriminate.
  - assert (Hstep : forall j, i + 1 <= j ->
              nth_error (b :: rest) (Z.to_nat (j - i))
              = nth_error rest (Z.to_nat (j - (i + 1)))).
    { intros j Hj. replace (Z.to_nat (j - i)) with (S (Z.to_nat (j - (i + 1)))) by lia.
      reflexivity. }
    cbn [where_from]. destruct b.
    + split.
      * intros H. cbn in H. inversion H; subst k. split; [lia |].
        split; [replace (Z.to_nat (i - i)) with O by lia; reflexivity |]. intros; lia.
      * intros (Hk & Hn & Hfirst). destruct (Z.eq_dec i k) as [-> | Hne]; [reflexivity |].
        specialize (Hfirst i ltac:(lia)).
        replace (Z.to_nat (i - i)) with O in Hfirst by lia. discriminate.
    + rewrite IH. split.
      * intros (Hk & Hn & Hfirst). split; [lia |]. split; [rewrite Hstep by lia; assumption |].
        intros j Hj. destruct (Z.eq_dec i j) as [<- | Hne].
        -- replace (Z.to_nat (i - i)) with O by lia. reflexivity.
        -- rewrite Hstep by lia. apply Hfirst. lia.
      * intros (Hk & Hn & Hfirst). destruct (Z.eq_dec i k) as [-> | Hne].
        -- replace (Z.to_nat (k - k)) with O in Hn by lia. discriminate.
        -- split; [lia |]. split; [rewrite <- Hstep by lia; assumption |].
           intros j Hj. rewrite <- Hstep by lia. apply Hfirst. lia.
Qed.

Lemma nth_error_combine {A B} (l : list A) (l' : list B) : forall n,
  nth_error (combine l l') n =
  match nth_error l n, nth_error l' n with
  | Some a, Some b => Some (a, b)
  | _, _ => None
  end.
Proof.
  revert l'. induction l as [| a l IH]; intros [| b l'] [| n]; cbn; try reflexivity.
  - destruct (nth_error l n); reflexivity.
  - apply IH.
Qed.

Lemma py_slice_nth_full {A} (l : list A) a b k :
  0 <= a -> a <= b -> b <= zlen l -> 0 <= k ->
  nth_error (py_slice l (mkslice a b)) (Z.to_nat k) =
  if k <? b - a then nth_error l (Z.to_nat (a + k)) else None.
Proof.
  intros Ha Hab Hb Hk. destruct (Z.ltb_spec k (b - a)).
  - apply py_slice_nth; lia.
  - apply nth_error_None.
    pose proof (py_slice_length l a b Ha Hab Hb) as Hlen. unfold zlen in Hlen. lia.
Qed.

Lemma py_slice_from_nth {A} (l : list A) n k :
  0 <= n ->
  nth_error (py_slice_from l n) k = nth_error l (Z.to_nat n + k).
Proof.
  intros Hn. unfold py_slice_from, py_slice; cbn [start stop].
  pose proof (zlen_nonneg l) as Hl.
  rewrite (py_bound_inside (zlen l) (zlen l)) by lia.
  destruct (Z.leb_spec n (zlen l)).
  - rewrite py_bound_inside by lia.
    rewrite firstn_all2 by (rewrite length_skipn; unfold zlen; lia).
    apply nth_error_skipn.
  - assert (Hb : py_bound (zlen l) n = zlen l).
    { unfold py_bound. destruct (n <? 0) eqn:E; lia. }
    rewrite Hb, Z.sub_diag. cbn [Z.to_nat firstn].
    symmetry. destruct k; [| cbn [nth_error]]; apply nth_error_None; unfold zlen in *; lia.
Qed.

Lemma py_slice_to_neg_nth {A} (l : list A) n k :
  0 < n ->
  nth_error (py_slice_to l (- n)) k =
  if Z.of_nat k <? zlen l - n then nth_error l k else None.
Proof.
  intros Hn. unfold py_slice_to, py_slice; cbn [start stop].
  pose proof (zlen_nonneg l) as Hl.
  rewrite (py_bound_inside (zlen l) 0) by lia.
  assert (Hb : py_bound (zlen l) (- n) = Z.max 0 (zlen l - n)).
  { unfold py_bound. destruct (- n <? 0) eqn:E; lia. }
  rewrite Hb, Z.sub_0_r. cbn [Z.to_nat skipn].
  rewrite nth_error_firstn.
  destruct (Z.ltb_spec (Z.of_nat k) (zlen l - n));
    destruct (Nat.ltb_spec k (Z.to_nat (Z.max 0 (zlen l - n)))); try reflexivity; lia.
Qed.

(** The raw candidates: the positions [t] whose sample [ntt] steps later is
    lower by at least the drop threshold. *)
Lemma drop_candidates_spec ttdata ntt d t :
  0 < ntt ->
  In t (drop_candidates ttdata ntt d) <->
  0 <= t /\ t + ntt < zlen ttdata /\
  exists a b, nth_error ttdata (Z.to_nat (t + ntt)) = Some a /\
              nth_error ttdata (Z.to_nat t) = Some b /\
              (a - b <=? d)%float = true.
Proof.
  intros Hntt. unfold drop_candidates, np_where.
  rewrite where_from_In, Z.sub_0_r, nth_error_map, nth_error_combine.
  rewrite py_slice_from_nth by lia.
  rewrite py_slice_to_neg_nth by assumption.
  split.
  - intros [Ht H]. split; [assumption |].
    replace (Z.to_nat ntt + Z.to_nat t)%nat with (Z.to_nat (t + ntt)) in H by lia.
    destruct (nth_error ttdata (Z.to_nat (t + ntt))) as [a |] eqn:Ha; [| discriminate].
    destruct (Z.ltb_spec (Z.of_nat (Z.to_nat t)) (zlen ttdata - ntt)); [| discriminate].
    destruct (nth_error ttdata (Z.to_nat t)) as [b |] eqn:Hb; [| discriminate].
    cbn in H. inversion H. split; [lia |]. exists a, b. auto.
  - intros (Ht & Hlt & a & b & Ha & Hb & Hle). split; [assumption |].
    replace (Z.to_nat ntt + Z.to_nat t)%nat with (Z.to_nat (t + ntt)) by lia.
    rewrite Ha.
    destruct (Z.ltb_spec (Z.of_nat (Z.to_nat t)) (zlen ttdata - ntt)); [| lia].
    rewrite Hb. cbn. rewrite Hle. reflexivity.
Qed.

(** An in-range sample exists. *)
Lemma nth_error_in_range {A} (l : list A) i :
  0 <= i < zlen l -> exists x, nth_error l (Z.to_nat i) = Some x.
Proof.
  intros H. destruct (nth_error l (Z.to_nat i)) eqn:E; [eauto |].
  apply nth_error_None in E. unfold zlen in H. lia.
Qed.

(** [passage_index], for a window inside the series: one before the first
    position of the window at or below [ttdata[t] + d_tt_p]. *)
Lemma passage_index_spec ttdata ntt p t icp :
  0 <= ntt -> 0 <= t -> t + ntt < zlen ttdata ->
  passage_index ttdata ntt p t = Ok icp <->
  exists tt0 j,
    nth_error ttdata (Z.to_nat t) = Some tt0 /\
    t <= j <= t + ntt /\
    (exists x, nth_error ttdata (Z.to_nat j) = Some x /\ (x <=? tt0 + p)%float = true) /\
    (forall i, t <= i < j ->
       exists x, nth_error ttdata (Z.to_nat i) = Some x /\ (x <=? tt0 + p)%float = false) /\
    icp = j - 1.
Proof.
  intros Hntt Ht Hlen. unfold passage_index; cbn [start].
  destruct (nth_error_in_range ttdata t ltac:(lia)) as [tt0 Htt0].
  assert (Hget : py_getitem ttdata t = Ok tt0) by (apply py_getitem_Ok; [lia | assumption]).
  rewrite Hget. cbn [rbind].
  set (mask := map (fun x => (x <=? tt0 + p)%float)
                 (py_slice ttdata (mkslice t (t + ntt + 1)))).
  assert (Hmask : forall k, 0 <= k ->
            nth_error mask (Z.to_nat k) =
            if k <? ntt + 1
            then option_map (fun x => (x <=? tt0 + p)%float)
                   (nth_error ttdata (Z.to_nat (t + k)))
            else None).
  { intros k Hk. unfold mask. rewrite nth_error_map, py_slice_nth_full by lia.
    replace (t + ntt + 1 - t) with (ntt + 1) by lia.
    destruct (k <? ntt + 1); reflexivity. }
  unfold np_where.
  destruct (py_getitem (where_from 0 mask) 0) as [k |] eqn:Hfirst; cbn [rbind].
  - apply where_from_first in Hfirst. destruct Hfirst as (Hk & Hn & Hbefore).
    rewrite Z.sub_0_r in Hn. rewrite Hmask in Hn by lia.
    destruct (Z.ltb_spec k (ntt + 1)); [| discriminate].
    destruct (nth_error ttdata (Z.to_nat (t + k))) as [x |] eqn:Hx; [| discriminate].
    cbn in Hn. inversion Hn as [Hle].
    assert (Hpre : forall i, t <= i < t + k ->
              exists y, nth_error ttdata (Z.to_nat i) = Some y
                        /\ (y <=? tt0 + p)%float = false).
    { intros i Hi. specialize (Hbefore (i - t) ltac:(lia)).
      rewrite Z.sub_0_r, Hmask in Hbefore by lia.
      destruct (Z.ltb_spec (i - t) (ntt + 1)); [| discriminate].
      replace (t + (i - t)) with i in Hbefore by lia.
      destruct (nth_error ttdata (Z.to_nat i)) as [y |]; [| discriminate].
      cbn in Hbefore. inversion Hbefore. eauto. }
    split.
    + intros Hicp. inversion Hicp; subst icp. exists tt0, (t + k).
      repeat split; try lia; eauto.
    + intros (tt0' & j & Htt0' & Hj & (y & Hy & Hyle) & Hjfirst & ->).
      rewrite Htt0 in Htt0'. inversion Htt0'; subst tt0'.
      f_equal. destruct (Z.lt_trichotomy j (t + k)) as [Hlt | [-> | Hgt]]; [| lia |].
      * destruct (Hpre j ltac:(lia)) as (y' & Hy' & Hfalse).
        rewrite Hy in Hy'. inversion Hy'; subst. congruence.
      * destruct (Hjfirst (t + k) ltac:(lia)) as (x' & Hx' & Hfalse).
        rewrite Hx in Hx'. inversion Hx'; subst. congruence.
  - split; [discriminate |].
    intros (tt0' & j & Htt0' & Hj & (y & Hy & Hyle) & Hjfirst & ->).
    rewrite Htt0 in Htt0'. inversion Htt0'; subst tt0'.
    assert (Hok : py_getitem (where_from 0 mask) 0 = Ok (j - t)).
    { apply where_from_first. split; [lia |]. rewrite Z.sub_0_r. split.
      - rewrite Hmask by lia. destruct (Z.ltb_spec (j - t) (ntt + 1)); [| lia].
        replace (t + (j - t)) with j by lia. rewrite Hy. cbn. rewrite Hyle. reflexivity.
      - intros i Hi. rewrite Z.sub_0_r, Hmask by lia.
        destruct (Z.ltb_spec i (ntt + 1)); [| lia].
        destruct (Hjfirst (t + i) ltac:(lia)) as (x & Hx & Hfalse).
        rewrite Hx. cbn. rewrite Hfalse. reflexivity. }
    congruence.
Qed.

(** Whatever the window, a passage index is at most one sample before [t]. *)
Lemma passage_index_lower ttdata ntt p t icp :
  passage_index ttdata ntt p t = Ok icp -> t - 1 <= icp.
Proof.
  unfold passage_index; cbn [start].
  destruct (py_getitem ttdata t) as [tt0 |]; [| discriminate]. cbn [rbind].
  unfold np_where.
  destruct (py_getitem (where_from 0 _) 0) as [k |] eqn:Hfirst; [| discriminate].
  apply where_from_first in Hfirst. cbn [rbind]. intros H. inversion H. lia.
Qed.

(* ------------------------------------------------------------------------ *)
(** ** The detection loop *)

Section DetectionLoop.

Variable self : instance.
Variables ttdata rrdata : list float.
Variable ntt : Z.
Variable p : float.
Variables npre npost : Z.
Variable avail_cp : float.
Hypothesis self_has_npre : self_npre self = Some npre.
Hypothesis self_has_npost : self_npost self = Some npost.
Hypothesis self_has_avail : self_data_avail_cp self = Some avail_cp.

(** Invariants of the loop: a property of (previous accepted index, accepted
    indices) kept by every acceptance holds when the loop ends. *)
Lemma detect_loop_inv (P : Z -> list Z -> Prop) : forall t_ttlim,
  (forall t icp prev acc,
      In t t_ttlim ->
      accepted_at (self_ntime self) npre npost avail_cp ttdata rrdata ntt p prev t icp ->
      P prev acc -> P icp (acc ++ [icp])) ->
  forall prev acc out cp_index,
    P prev acc ->
    detect_loop self ttdata rrdata ntt p t_ttlim prev acc = (out, Ok cp_index) ->
    exists last, P last cp_index.
Proof.
  induction t_ttlim as [| t rest IH]; intros Hstep prev acc out cp_index HP Hrun.
  - apply ret_inv in Hrun as [<- _]. eauto.
  - assert (Hrest : forall t' icp prev' acc',
              In t' rest ->
              accepted_at (self_ntime self) npre npost avail_cp ttdata rrdata ntt p
                prev' t' icp ->
              P prev' acc' -> P icp (acc' ++ [icp])).
    { intros. eapply Hstep; eauto. right. assumption. }
    cbn [detect_loop] in Hrun.
    rewrite self_has_npost, bind_getattr_Some in Hrun.
    destruct (t - prev <=? npost) eqn:Hsep; [eapply IH; eauto |].
    destruct (passage_index ttdata ntt p t) as [icp | e] eqn:Hicp;
      [| discriminate].
    rewrite bind_lift_Ok in Hrun.
    rewrite !(index_cp_set self npre npost) in Hrun by assumption.
    cbn [index_cp_slices String.eqb Ascii.eqb Bool.eqb] in Hrun.
    rewrite !bind_ret_l, !bind_getattr_Some in Hrun. cbn [start stop] in Hrun.
    destruct ((icp - npre <? 0) || (self_ntime self <? icp + npost + 1)) eqn:Hbnd;
      [eapply IH; eauto |].
    rewrite self_has_avail, bind_getattr_Some in Hrun.
    rewrite !check_data_avail_quiet, !bind_ret_l in Hrun.
    destruct (avail_cp <=? data_avail
                (py_slice ttdata (mkslice (icp - npre) (icp + npost + 1))))%float
      eqn:Havtt; cbn [negb orb] in Hrun; [| eapply IH; eauto].
    destruct (avail_cp <=? data_avail
                (py_slice rrdata (mkslice (icp - npre) (icp + npost + 1))))%float
      eqn:Havrr; cbn [negb] in Hrun; [| eapply IH; eauto].
    destruct (np_sum (py_slice rrdata (mkslice (icp + 1) (icp + npost + 1))) =? 0)%float
      eqn:Hsum; [eapply IH; eauto |].
    eapply IH; [exact Hrest | | exact Hrun].
    eapply Hstep; [left; reflexivity | | exact HP].
    apply orb_false_iff in Hbnd as [Hlo Hhi].
    unfold accepted_at. repeat split; auto; lia.
Qed.

End DetectionLoop.

(* ------------------------------------------------------------------------ *)
(** ** What a completed construction tells *)

Lemma as_array_Ok indata out v :
  as_array indata = (out, Ok v) -> indata = NdArray v.
Proof. destruct indata; cbn; intros H; inversion H; reflexivity. Qed.

Lemma check_data_len_Ok self indata varstr out b :
  _check_data_len self indata varstr = (out, Ok b) ->
  exists n, data_len indata = Some n /\ b = (n =? self_ntime self).
Proof.
  destruct (data_len indata) as [n |] eqn:Hn.
  - destruct (check_data_len_value self indata varstr n Hn) as [o Ho].
    rewrite Ho. intros H. inversion H. eauto.
  - apply data_len_None in Hn as [x ->]. rewrite check_data_len_scalar.
    intros H. inversion H.
Qed.

Lemma check_grid_Ok dtdata out check_dt tres :
  check_grid dtdata = (out, Ok (check_dt, Some tres)) ->
  exists d, dtdata = DtIndex d /\ check_dt = true /\ grid_tres d = Ok tres.
Proof.
  unfold check_grid, grid_tres.
  destruct dtdata as [d |]; [| intros H; inversion H].
  destruct (inferred_freq d); [| intros H; inversion H].
  intros H.
  apply bind_Ok in H as (? & d1 & ? & H1 & H & _).
  apply bind_Ok in H as (? & d0 & ? & H0 & H & _).
  apply lift_Ok_inv in H1 as [H1 _]. apply lift_Ok_inv in H0 as [H0 _].
  apply ret_inv in H as [H _]. inversion H. exists d.
  rewrite H1, H0. cbn [rbind]. auto.
Qed.

Lemma detect_Ok self ttdata rrdata tres cfg out self' cp_index :
  detect self ttdata rrdata tres cfg = (out, Ok (self', cp_index)) ->
  exists tt rr ntt npre npost out',
    ttdata = NdArray tt /\ rrdata = NdArray rr /\
    sample_count (d_time cfg) tres = Ok ntt /\
    sample_count (time_pre cfg) tres = Ok npre /\
    sample_count (time_post cfg) tres = Ok npost /\
    self' = set_windows (set_avail self cfg) npre npost /\
    detect_loop self' tt rr ntt (d_tt_p cfg)
      (visited tt ntt npre npost (d_tt cfg)) (-99999) [] = (out', Ok cp_index).
Proof.
  unfold detect. cbn [set_avail self_data_avail_all self_warn_avail_all].
  rewrite !bind_getattr_Some. intros H.
  apply bind_Ok in H as (? & tt & ? & Htt & H & _).
  apply bind_Ok in H as (? & rr & ? & Hrr & H & _).
  apply bind_Ok in H as (? & ? & ? & _ & H & _).
  apply bind_Ok in H as (? & ? & ? & _ & H & _).
  apply bind_Ok in H as (? & ntt & ? & Hntt & H & _).
  apply bind_Ok in H as (? & npre & ? & Hnpre & H & _).
  apply bind_Ok in H as (? & npost & ? & Hnpost & H & _).
  apply bind_Ok in H as (? & ? & ? & _ & H & _).
  apply bind_Ok in H as (? & ? & ? & _ & H & _).
  apply bind_Ok in H as (? & ? & ? & _ & H & _).
  apply bind_Ok in H as (out' & l & ? & Hloop & H & _).
  apply ret_inv in H as [H _]. inversion H; subst.
  apply as_array_Ok in Htt. apply as_array_Ok in Hrr.
  apply lift_Ok_inv in Hntt as [Hntt _]. apply lift_Ok_inv in Hnpre as [Hnpre _].
  apply lift_Ok_inv in Hnpost as [Hnpost _].
  exists tt, rr, ntt, npre, npost, out'. repeat split; assumption.
Qed.

(** A construction that completes either found no event or ran the loop. *)
Lemma cp_detection_inv dtdata ttdata rrdata cfg out e :
  cp_detection dtdata ttdata rrdata cfg = (out, Ok e) ->
  (self_cp_index e = [] /\ self_cp_datetime e = [] /\ self_ncp e = 0) \/
  exists d tt rr ntt npre npost,
    detection_ran dtdata ttdata rrdata cfg e d tt rr ntt npre npost.
Proof.
  unfold cp_detection. intros H.
  apply bind_Ok in H as (? & [check_dt tres] & ? & Hg & H & _).
  apply bind_Ok in H as (? & clt & ? & Hclt & H & _).
  apply bind_Ok in H as (? & clr & ? & Hclr & H & _).
  apply bind_Ok in H as (? & [self' cp_index] & ? & Hr & H & _).
  apply bind_Ok in H as (? & cp_datetime & ? & Hcpd & H & _).
  apply ret_inv in H as [<- _]. cbn [fst snd] in *.
  assert (Hnone : cp_index = [] ->
            self_cp_index (set_results self' dtdata ttdata rrdata cp_index cp_datetime) = []
            /\ self_cp_datetime
                 (set_results self' dtdata ttdata rrdata cp_index cp_datetime) = []
            /\ self_ncp (set_results self' dtdata ttdata rrdata cp_index cp_datetime) = 0).
  { intros ->. cbn. split; [reflexivity |]. split; [| reflexivity].
    destruct dtdata as [d |]; [destruct check_dt |];
      cbn in Hcpd; inversion Hcpd; reflexivity. }
  destruct tres as [tres |];
    [| left; apply Hnone; apply ret_inv in Hr as [Hr _]; inversion Hr; reflexivity].
  destruct (check_dt && true && clt && clr) eqn:Hall;
    [| left; apply Hnone; apply ret_inv in Hr as [Hr _]; inversion Hr; reflexivity].
  right.
  apply check_grid_Ok in Hg as (d & -> & -> & Htres).
  apply andb_true_iff in Hall as [Hall ->]. apply andb_true_iff in Hall as [_ ->].
  apply check_data_len_Ok in Hclt as (nt & Hnt & Hclt).
  apply check_data_len_Ok in Hclr as (nr & Hnr & Hclr).
  apply detect_Ok in Hr
    as (tt & rr & ntt & npre & npost & out' & -> & -> & Hntt & Hnpre & Hnpost
        & -> & Hloop).
  cbn [new_instance self_ntime data_len] in Hclt, Hclr, Hnt, Hnr.
  inversion Hnt; subst nt. inversion Hnr; subst nr.
  symmetry in Hclt, Hclr. apply Z.eqb_eq in Hclt, Hclr.
  exists d, tt, rr, ntt, npre, npost.
  cbn in Hcpd. apply lift_Ok_inv in Hcpd as [Hcpd _].
  constructor; cbn; try reflexivity; try assumption.
  - exists tres. auto.
  - exists out'. exact Hloop.
Qed.

Lemma visited_In ttdata ntt npre npost d t :
  In t (visited ttdata ntt npre npost d) ->
  0 < ntt /\ 0 < npre /\ 0 < npost /\ In t (drop_candidates ttdata ntt d).
Proof.
  unfold visited. destruct (0 <? ntt) eqn:H1; [| intros []].
  destruct (0 <? npre) eqn:H2; [| intros []].
  destruct (0 <? npost) eqn:H3; [| intros []].
  cbn [andb]. intros H. repeat split; try lia. assumption.
Qed.

(** Every index in the event index set was appended by the loop body for some
    raw candidate, with all its checks passed. *)
Lemma events_accepted dtdata ttdata rrdata cfg e d tt rr ntt npre npost :
  detection_ran dtdata ttdata rrdata cfg e d tt rr ntt npre npost ->
  Forall (fun icp => exists prev t,
            In t (visited tt ntt npre npost (d_tt cfg)) /\
            accepted_at (zlen (stamps d)) npre npost (data_avail_cp cfg)
              tt rr ntt (d_tt_p cfg) prev t icp)
         (self_cp_index e).
Proof.
  intros Hran. destruct (ran_loop _ _ _ _ _ _ _ _ _ _ _ Hran) as [out Hloop].
  eapply (detect_loop_inv
            (set_windows (set_avail (new_instance (zlen (stamps d))) cfg) npre npost)
            tt rr ntt (d_tt_p cfg) npre npost (data_avail_cp cfg)
            eq_refl eq_refl eq_refl
            (fun _ acc => Forall (fun icp => exists prev t,
                 In t (visited tt ntt npre npost (d_tt cfg)) /\
                 accepted_at (zlen (stamps d)) npre npost (data_avail_cp cfg)
                   tt rr ntt (d_tt_p cfg) prev t icp) acc))
    in Hloop.
  - destruct Hloop as [_ H]. exact H.
  - intros t icp prev acc Hin Hacc HP. apply Forall_app. split; [assumption |].
    constructor; [| constructor]. exists prev, t. split; assumption.
  - constructor.
Qed.

(** Consecutive acceptances: each accepted index is at least [npost] after
    every earlier one. *)
Lemma events_spaced dtdata ttdata rrdata cfg e d tt rr ntt npre npost :
  detection_ran dtdata ttdata rrdata cfg e d tt rr ntt npre npost ->
  StronglySorted (fun a b => a + npost <= b) (self_cp_index e).
Proof.
  intros Hran. destruct (ran_loop _ _ _ _ _ _ _ _ _ _ _ Hran) as [out Hloop].
  eapply (detect_loop_inv
            (set_windows (set_avail (new_instance (zlen (stamps d))) cfg) npre npost)
            tt rr ntt (d_tt_p cfg) npre npost (data_avail_cp cfg)
            eq_refl eq_refl eq_refl
            (fun prev acc => StronglySorted (fun a b => a + npost <= b) acc
                             /\ Forall (fun x => x <= prev) acc))
    in Hloop.
  - destruct Hloop as [_ [H _]]. exact H.
  - intros t icp prev acc Hin Hacc [Hsorted Hle].
    apply visited_In in Hin as (_ & _ & Hnpost & _).
    destruct Hacc as (Hsep & Hicp & _).
    apply passage_index_lower in Hicp.
    split.
    + induction Hsorted as [| a l Hs IH Ha]; cbn.
      * constructor; constructor.
      * inversion Hle; subst. constructor.
        -- apply IH. assumption.
        -- apply Forall_app. split; [assumption |]. constructor; [lia | constructor].
    + apply Forall_app. split.
      * eapply Forall_impl; [| exact Hle]. cbn. intros; lia.
      * constructor; [lia | constructor].
  - split; constructor.
Qed.

(* ------------------------------------------------------------------------ *)
(** ** Sanity checks of the embedding *)

Example py_int_truncates : py_int 2.9375%float = Ok 2 /\ py_int (-2.5)%float = Ok (-2).
Proof. split; reflexivity. Qed.

Example py_int_nan : py_int PrimFloat.nan = Raise ValueError.
Proof. reflexivity. Qed.

Example py_slice_negative_stop : py_slice [1; 2; 3; 4; 5] (mkslice 1 (-1)) = [2; 3; 4].
Proof. reflexivity. Qed.

Example run_two_events :
  run_two = ([], Ok self_two) /\ self_cp_index self_two = [1; 4]
  /\ self_cp_datetime self_two = [1200; 4800]
  /\ self_npre self_two = Some 1 /\ self_npost self_two = Some 3.
Proof. vm_compute. repeat split. Qed.

Example np_sum_in_lanes :
  np_sum (post_samples rr_lanes 16 8) = 2%float /\
  add_seq 0 (post_samples rr_lanes 16 8) = 0%float /\
  exists e, run_lanes = ([], Ok e) /\ indices e = [8] /\ self_npost e = Some 16.
Proof. vm_compute. repeat split. eexists. repeat split. Qed.

Example np_sum_long :
  np_sum (repeat 1%float 300) = 300%float /\
  np_sum (0x1p200 :: repeat 1 135 ++ (-0x1p200) :: repeat 1 163)%float = 156%float.
Proof. vm_compute. split; reflexivity. Qed.

Example daily_grid_divides_by_zero :
  cp_detection (DtIndex (grid 86400 5)) (NdArray tt_gap) (NdArray rr_gap)
    cfg_half = ([], Raise ZeroDivisionError).
Proof. vm_compute. reflexivity. Qed.

(* ------------------------------------------------------------------------ *)
(** ** Passage refinement *)

(** C1.  For every raw candidate [t] (a member of the candidate search for a
    positive [ntt]), the detector's refined passage index is [icp] exactly
    when there is a first index [j] of the sub-window [t .. t+ntt] whose
    temperature is at or below [ttdata[t] + d_tt_p], and [icp = j - 1]. *)
Theorem passage_index_first_drop ttdata ntt d p t icp :
  0 < ntt ->
  In t (drop_candidates ttdata ntt d) ->
  passage_index ttdata ntt p t = Ok icp <->
  exists tt0 j,
    nth_error ttdata (Z.to_nat t) = Some tt0 /\
    t <= j <= t + ntt /\
    (exists x, nth_error ttdata (Z.to_nat j) = Some x /\ (x <=? tt0 + p)%float = true) /\
    (forall i, t <= i < j ->
       exists x, nth_error ttdata (Z.to_nat i) = Some x /\ (x <=? tt0 + p)%float = false) /\
    icp = j - 1.
Proof.
  intros Hntt Hcand. apply drop_candidates_spec in Hcand as (Ht & Hlen & _); [| assumption].
  apply passage_index_spec; lia.
Qed.

Lemma passage_index_first_drop_witness :
  passage_index tt_gap 1 (-0.5)%float 1 = Ok 1 <->
  exists tt0 j,
    nth_error tt_gap (Z.to_nat 1) = Some tt0 /\
    1 <= j <= 1 + 1 /\
    (exists x, nth_error tt_gap (Z.to_nat j) = Some x
               /\ (x <=? tt0 + (-0.5))%float = true) /\
    (forall i, 1 <= i < j ->
       exists x, nth_error tt_gap (Z.to_nat i) = Some x
                 /\ (x <=? tt0 + (-0.5))%float = false) /\
    1 = j - 1.
Proof.
  apply (passage_index_first_drop tt_gap 1 (-2)%float (-0.5)%float 1 1).
  - lia.
  - vm_compute. left. reflexivity.
Defined.

(* ------------------------------------------------------------------------ *)
(** ** Separation of events *)

Lemma StronglySorted_pair {A} (R : A -> A -> Prop) l i j :
  StronglySorted R l -> In i l -> In j l -> i = j \/ R i j \/ R j i.
Proof.
  induction 1 as [| a l Hs IH Ha]; intros Hi Hj; [destruct Hi |].
  rewrite Forall_forall in Ha.
  destruct Hi as [<- | Hi], Hj as [<- | Hj]; auto.
Qed.

Lemma StronglySorted_weaken {A} (R R' : A -> A -> Prop) l :
  (forall a b, R a b -> R' a b) -> StronglySorted R l -> StronglySorted R' l.
Proof.
  intros HR. induction 1 as [| a l Hs IH Ha]; constructor; [assumption |].
  eapply Forall_impl; [| exact Ha]. auto.
Qed.

(** Events exist only when the three sample counts are positive. *)
Lemma event_counts_positive dtdata ttdata rrdata cfg e d tt rr ntt npre npost icp :
  detection_ran dtdata ttdata rrdata cfg e d tt rr ntt npre npost ->
  In icp (self_cp_index e) -> 0 < ntt /\ 0 < npre /\ 0 < npost.
Proof.
  intros Hran Hin. pose proof (events_accepted _ _ _ _ _ _ _ _ _ _ _ Hran) as Hacc.
  rewrite Forall_forall in Hacc. destruct (Hacc icp Hin) as (prev & t & Ht & _).
  apply visited_In in Ht. tauto.
Qed.

(** C2 (amended).  The accepted indices are strictly increasing; two accepted
    events with [i < j] are at least [npost] samples apart, so the post-period
    of the earlier one ends where that of the later one starts, at the latest.
    The gap can be exactly [npost]. *)
Theorem events_separated dtdata ttdata rrdata cfg e npost :
  constructed dtdata ttdata rrdata cfg e ->
  self_npost e = Some npost ->
  StronglySorted Z.lt (indices e) /\
  forall i j, In i (indices e) -> In j (indices e) -> i < j ->
    npost <= j - i /\
    forall npre si sj,
      index_cp_slices npre npost i "post" = Some si ->
      index_cp_slices npre npost j "post" = Some sj ->
      stop si <= start sj.
Proof.
  intros [out Hc] Hnpost. unfold indices.
  apply cp_detection_inv in Hc as [(Hnil & _) | (d & tt & rr & ntt & npre & npost' & Hran)].
  { rewrite Hnil. split; [constructor | intros i j []]. }
  pose proof (ran_npost _ _ _ _ _ _ _ _ _ _ _ Hran) as Hnp.
  rewrite Hnpost in Hnp. inversion Hnp; subst npost'. clear Hnp.
  pose proof (events_spaced _ _ _ _ _ _ _ _ _ _ _ Hran) as Hsp.
  assert (Hpos : forall icp, In icp (self_cp_index e) -> 0 < npost).
  { intros icp Hin. eapply event_counts_positive in Hin; [| exact Hran]. tauto. }
  split.
  - destruct (self_cp_index e) as [| icp l] eqn:Hl; [constructor |].
    specialize (Hpos icp (or_introl eq_refl)).
    eapply StronglySorted_weaken; [| exact Hsp]. cbn. intros; lia.
  - intros i j Hi Hj Hij. specialize (Hpos i Hi).
    assert (Hgap : i + npost <= j).
    { destruct (StronglySorted_pair _ _ i j Hsp Hi Hj) as [-> | [H | H]]; lia. }
    split; [lia |].
    intros npre' si sj Hsi Hsj. cbn in Hsi, Hsj.
    inversion Hsi; inversion Hsj; subst; cbn. lia.
Qed.

Lemma events_separated_witness :
  constructed (DtIndex (grid 1200 8)) (NdArray tt_two) (NdArray rr_two)
    default_config self_two /\
  self_npost self_two = Some 3 /\
  StronglySorted Z.lt (indices self_two) /\
  forall i j, In i (indices self_two) -> In j (indices self_two) -> i < j ->
    3 <= j - i /\
    forall npre si sj,
      index_cp_slices npre 3 i "post" = Some si ->
      index_cp_slices npre 3 j "post" = Some sj ->
      stop si <= start sj.
Proof.
  assert (Hc : constructed (DtIndex (grid 1200 8)) (NdArray tt_two) (NdArray rr_two)
                 default_config self_two)
    by (exists []; vm_compute; reflexivity).
  split; [exact Hc |]. split; [reflexivity |].
  exact (events_separated _ _ _ _ self_two 3 Hc eq_refl).
Defined.

(** C2 as stated fails: with the default thresholds, the events of [run_two]
    are at indices 1 and 4, and [npost] is 3. *)
Lemma events_gap_can_equal_npost :
  ~ (forall e npost i j,
       constructed (DtIndex (grid 1200 8)) (NdArray tt_two) (NdArray rr_two)
         default_config e ->
       self_npost e = Some npost ->
       In i (indices e) -> In j (indices e) -> i < j ->
       j - i > npost).
Proof.
  intros H.
  assert (Hc : constructed (DtIndex (grid 1200 8)) (NdArray tt_two) (NdArray rr_two)
                 default_config self_two)
    by (exists []; vm_compute; reflexivity).
  specialize (H self_two 3 1 4 Hc eq_refl).
  cbn in H. specialize (H (or_introl eq_refl) (or_intror (or_introl eq_refl))). lia.
Qed.

(* ------------------------------------------------------------------------ *)
(** ** Bounds of the event windows *)

(** C3.  For every accepted event [icp], the "all" period
    [icp - npre, icp + npost + 1) lies within the series: it starts at or
    after 0 and stops at or before the grid length. *)
Theorem events_within_bounds dtdata ttdata rrdata cfg e icp :
  constructed dtdata ttdata rrdata cfg e ->
  In icp (indices e) ->
  exists d npre npost s,
    dtdata = DtIndex d /\ self_ntime e = zlen (stamps d) /\
    self_npre e = Some npre /\ self_npost e = Some npost /\
    index_cp_slices npre npost icp "all" = Some s /\
    start s = icp - npre /\ stop s = icp + npost + 1 /\
    0 <= start s /\ stop s <= zlen (stamps d).
Proof.
  intros [out Hc] Hin. unfold indices in Hin.
  apply cp_detection_inv in Hc as [(Hnil & _) | (d & tt & rr & ntt & npre & npost & Hran)].
  { rewrite Hnil in Hin. destruct Hin. }
  pose proof (events_accepted _ _ _ _ _ _ _ _ _ _ _ Hran) as Hacc.
  rewrite Forall_forall in Hacc.
  destruct (Hacc icp Hin) as (prev & t & _ & _ & _ & Hlo & Hhi & _).
  exists d, npre, npost, (mkslice (icp - npre) (icp + npost + 1)).
  destruct Hran. cbn [start stop]. repeat split; auto.
Qed.

Lemma events_within_bounds_witness :
  constructed (DtIndex (grid 1200 8)) (NdArray tt_two) (NdArray rr_two)
    default_config self_two /\
  In 4 (indices self_two) /\
  exists d npre npost s,
    DtIndex (grid 1200 8) = DtIndex d /\ self_ntime self_two = zlen (stamps d) /\
    self_npre self_two = Some npre /\ self_npost self_two = Some npost /\
    index_cp_slices npre npost 4 "all" = Some s /\
    start s = 4 - npre /\ stop s = 4 + npost + 1 /\
    0 <= start s /\ stop s <= zlen (stamps d).
Proof.
  assert (Hc : constructed (DtIndex (grid 1200 8)) (NdArray tt_two) (NdArray rr_two)
                 default_config self_two)
    by (exists []; vm_compute; reflexivity).
  assert (Hin : In 4 (indices self_two)) by (cbn; auto).
  split; [exact Hc |]. split; [exact Hin |].
  exact (events_within_bounds _ _ _ _ self_two 4 Hc Hin).
Defined.

(* ------------------------------------------------------------------------ *)
(** ** Rainfall response *)

(** Binary64 addition of two non-negative numbers is a non-negative number
    (never NaN), by the specification of rounding. *)
Lemma shr_1_nonneg mrs : 0 <= shr_m mrs -> 0 <= shr_m (shr_1 mrs).
Proof.
  destruct mrs as [m r s]. cbn [shr_m]. intros Hm.
  destruct m as [| q | q]; [cbn; lia | destruct q; cbn; lia | lia].
Qed.

Lemma iter_shr_1_nonneg q : forall mrs,
  0 <= shr_m mrs -> 0 <= shr_m (iter_pos shr_1 q mrs).
Proof.
  induction q as [q IH | q IH |]; intros mrs Hm; cbn [iter_pos].
  - apply IH, IH, shr_1_nonneg, Hm.
  - apply IH, IH, Hm.
  - apply shr_1_nonneg, Hm.
Qed.

Lemma shr_nonneg mrs e n : 0 <= shr_m mrs -> 0 <= shr_m (fst (shr mrs e n)).
Proof.
  intros Hm. unfold shr. destruct n; cbn [fst]; try assumption.
  apply iter_shr_1_nonneg, Hm.
Qed.

Lemma round_nearest_even_nonneg m l : 0 <= m -> 0 <= round_nearest_even m l.
Proof.
  intros Hm. unfold round_nearest_even.
  destruct l as [| []]; try lia. destruct (Z.even m); lia.
Qed.

Lemma binary_round_aux_nonneg prec emax m e l :
  0 <= m -> sf_nonneg (binary_round_aux prec emax false m e l).
Proof.
  intros Hm. unfold binary_round_aux, shr_fexp.
  destruct (shr (shr_record_of_loc m l) e _) as [mrs' e'] eqn:H1.
  assert (Hm' : 0 <= shr_m mrs').
  { change mrs' with (fst (mrs', e')). rewrite <- H1. apply shr_nonneg.
    destruct l as [| []]; cbn; assumption. }
  destruct (shr (shr_record_of_loc _ loc_Exact) e' _) as [mrs'' e''] eqn:H2.
  assert (Hm'' : 0 <= shr_m mrs'').
  { change mrs'' with (fst (mrs'', e'')). rewrite <- H2. apply shr_nonneg.
    cbn. apply round_nearest_even_nonneg, Hm'. }
  destruct (shr_m mrs''); [exact I | | lia].
  destruct (e'' <=? emax - prec); reflexivity.
Qed.

Lemma SFadd_nonneg prec emax x y :
  sf_nonneg x -> sf_nonneg y -> sf_nonneg (SFadd prec emax x y).
Proof.
  destruct x as [sx | sx | | sx mx ex], y as [sy | sy | | sy my ey]; cbn [sf_nonneg];
    intros Hx Hy; subst; try contradiction; try (cbn; auto; fail).
  - destruct sx, sy; exact I.
  - unfold SFadd. cbn [cond_Zopp].
    unfold binary_normalize.
    destruct (Z.pos _ + Z.pos _) as [| q | q] eqn:E; try lia.
    unfold binary_round.
    destruct (shl_align q _ _) as [mz ez]. apply binary_round_aux_nonneg. lia.
Qed.

Lemma leb_zero_sf_nonneg x : (0 <=? x)%float = true -> sf_nonneg (Prim2SF x).
Proof.
  rewrite leb_spec. replace (Prim2SF 0%float) with (S754_zero false) by reflexivity.
  destruct (Prim2SF x) as [s | s | | s m e]; cbn; try discriminate; auto;
    destruct s; cbn; auto; discriminate.
Qed.

Lemma Forall_firstn {A} (P : A -> Prop) n : forall l,
  Forall P l -> Forall P (firstn n l).
Proof.
  induction n as [| n IH]; intros l Hl; [constructor |].
  destruct Hl; cbn; constructor; auto.
Qed.

Lemma Forall_skipn {A} (P : A -> Prop) n : forall l,
  Forall P l -> Forall P (skipn n l).
Proof.
  induction n as [| n IH]; intros l Hl; [exact Hl |].
  destruct Hl; cbn; [constructor | auto].
Qed.

(** The recursion of the pairwise summation never runs out of fuel: any
    fuel from the length of the array on gives the same sum, and an array of
    more than 128 values is the sum of its two parts. *)
Lemma pairwise_sum_fuel f1 : forall f2 a,
  (List.length a <= f1)%nat -> (List.length a <= f2)%nat ->
  pairwise_sum f1 a = pairwise_sum f2 a.
Proof.
  induction f1 as [| f1 IH]; intros f2 a H1 H2.
  - destruct a; [| cbn in H1; lia]. destruct f2; reflexivity.
  - destruct f2 as [| f2].
    + destruct a; [| cbn in H2; lia]. reflexivity.
    + cbn [pairwise_sum].
      destruct (Nat.ltb_spec (List.length a) 8); [reflexivity |].
      destruct (Nat.leb_spec (List.length a) 128); [reflexivity |].
      set (n2 := (Nat.div (List.length a) 2
                  - Nat.modulo (Nat.div (List.length a) 2) 8)%nat).
      assert (Hn2 : (0 < n2 < List.length a)%nat).
      { unfold n2.
        pose proof (Nat.div_mod_eq (List.length a) 2).
        pose proof (Nat.mod_upper_bound (List.length a) 2 ltac:(lia)).
        pose proof (Nat.mod_upper_bound (Nat.div (List.length a) 2) 8 ltac:(lia)).
        lia. }
      rewrite (IH f2 (firstn n2 a)), (IH f2 (skipn n2 a));
        try reflexivity; try (rewrite length_firstn; lia);
        rewrite length_skipn; lia.
Qed.

Lemma pairwise_sum_split a :
  (128 < List.length a)%nat ->
  let n2 := (Nat.div (List.length a) 2
             - Nat.modulo (Nat.div (List.length a) 2) 8)%nat in
  pairwise_sum (List.length a) a
  = (pairwise_sum (List.length (firstn n2 a)) (firstn n2 a)
     + pairwise_sum (List.length (skipn n2 a)) (skipn n2 a))%float.
Proof.
  intros Hn n2. destruct (List.length a) as [| k] eqn:Hk; [lia |].
  cbn [pairwise_sum]. rewrite Hk.
  destruct (Nat.ltb_spec (S k) 8); [lia |].
  destruct (Nat.leb_spec (S k) 128); [lia |].
  fold n2.
  assert (Hn2 : (0 < n2 < S k)%nat).
  { unfold n2.
    pose proof (Nat.div_mod_eq (S k) 2).
    pose proof (Nat.mod_upper_bound (S k) 2 ltac:(lia)).
    pose proof (Nat.mod_upper_bound (Nat.div (S k) 2) 8 ltac:(lia)).
    lia. }
  rewrite (pairwise_sum_fuel k (List.length (firstn n2 a)) (firstn n2 a)),
          (pairwise_sum_fuel k (List.length (skipn n2 a)) (skipn n2 a));
    try reflexivity; try lia;
    try (rewrite length_firstn; lia); rewrite length_skipn; lia.
Qed.

Lemma np_bufsize_pos : (0 < np_bufsize)%nat.
Proof. unfold np_bufsize. lia. Qed.

Lemma add_chunks_nil fuel acc : add_chunks fuel acc [] = acc.
Proof. destruct fuel; reflexivity. Qed.

Lemma add_chunks_fuel f1 : forall f2 acc l,
  (List.length l <= f1)%nat -> (List.length l <= f2)%nat ->
  add_chunks f1 acc l = add_chunks f2 acc l.
Proof.
  pose proof np_bufsize_pos as Hb.
  induction f1 as [| f1 IH]; intros f2 acc l H1 H2;
    destruct l as [| x l]; try (destruct f2; reflexivity); cbn in H1; try lia.
  destruct f2 as [| f2]; [cbn in H2; lia |].
  cbn [add_chunks]. apply IH; rewrite length_skipn; cbn [List.length] in *; lia.
Qed.

(** An array of at most 8192 values is summed as one chunk; a longer one is
    the sum of its first 8192 values followed by the chunks of the rest. *)
Lemma np_sum_one_chunk l :
  l <> [] -> (List.length l <= np_bufsize)%nat ->
  np_sum l = (0 + pairwise_sum (List.length l) l)%float.
Proof.
  intros Hne Hlen. unfold np_sum. destruct l as [| x l]; [congruence |].
  cbn [add_chunks List.length].
  rewrite firstn_all2 by exact Hlen. rewrite skipn_all2 by exact Hlen.
  apply add_chunks_nil.
Qed.

Lemma np_sum_chunks l :
  l <> [] ->
  np_sum l
  = add_chunks (List.length (skipn np_bufsize l))
      (0 + pairwise_sum (List.length (firstn np_bufsize l)) (firstn np_bufsize l))%float
      (skipn np_bufsize l).
Proof.
  intros Hne. pose proof np_bufsize_pos as Hb. unfold np_sum.
  destruct l as [| x l]; [congruence |].
  cbn [add_chunks List.length].
  apply add_chunks_fuel; rewrite ?length_skipn; cbn [List.length]; lia.
Qed.

(** A property of floats that addition keeps holds of the pairwise sum of
    floats that have it. *)
Section SumClosed.
Variable P : float -> Prop.
Hypothesis P_add : forall x y, P x -> P y -> P (x + y)%float.

Lemma add_seq_closed l : forall acc, P acc -> Forall P l -> P (add_seq acc l).
Proof.
  unfold add_seq. induction l as [| x l IH]; intros acc Hacc Hl; [exact Hacc |].
  inversion Hl; subst. cbn [fold_left]. apply IH; auto.
Qed.

Lemma add_lanes_closed k : forall r a,
  Forall P r -> Forall P a ->
  Forall P (fst (add_lanes k r a)) /\ Forall P (snd (add_lanes k r a)).
Proof.
  induction k as [| k IH]; intros r a Hr Ha; [split; assumption |].
  cbn [add_lanes]. apply IH; [| apply Forall_skipn, Ha].
  apply Forall_forall. intros z Hz. apply in_map_iff in Hz as ([x y] & <- & Hxy).
  rewrite Forall_forall in Hr.
  pose proof (Forall_firstn P 8 a Ha) as Hf. rewrite Forall_forall in Hf.
  apply P_add; [eapply Hr, in_combine_l | eapply Hf, in_combine_r]; exact Hxy.
Qed.

Lemma sum_lanes_closed r : P PrimFloat.neg_zero -> Forall P r -> P (sum_lanes r).
Proof.
  intros Hz Hr. unfold sum_lanes.
  destruct r as [| r0 [| r1 [| r2 [| r3 [| r4 [| r5 [| r6 [| r7 [| r8 r]]]]]]]]];
    try (apply add_seq_closed; assumption).
  repeat match goal with H : Forall P (_ :: _) |- _ => inversion H; subst; clear H end.
  auto 10.
Qed.

Lemma block_sum_closed a : P PrimFloat.neg_zero -> Forall P a -> P (block_sum a).
Proof.
  intros Hz Ha. unfold block_sum.
  destruct (add_lanes_closed (Nat.div (List.length a) 8 - 1) (firstn 8 a) (skipn 8 a))
    as [Hr Hrest]; [apply Forall_firstn, Ha | apply Forall_skipn, Ha |].
  apply add_seq_closed; [apply sum_lanes_closed |]; assumption.
Qed.

Lemma pairwise_sum_closed fuel : forall a,
  P PrimFloat.neg_zero -> Forall P a -> P (pairwise_sum fuel a).
Proof.
  induction fuel as [| fuel IH]; intros a Hz Ha; cbn [pairwise_sum];
    (destruct (Nat.ltb _ 8); [apply add_seq_closed; assumption |]);
    (destruct (Nat.leb _ 128); [apply block_sum_closed; assumption |]).
  - apply block_sum_closed; assumption.
  - apply P_add; apply IH; auto using Forall_firstn, Forall_skipn.
Qed.

Lemma add_chunks_closed fuel : forall acc l,
  P PrimFloat.neg_zero -> P acc -> Forall P l -> P (add_chunks fuel acc l).
Proof.
  induction fuel as [| fuel IH]; intros acc l Hz Hacc Hl;
    destruct l as [| x l]; cbn [add_chunks]; try assumption.
  apply IH; [assumption | | apply Forall_skipn, Hl].
  apply P_add; [assumption |].
  apply pairwise_sum_closed; [assumption | apply Forall_firstn, Hl].
Qed.

Lemma np_sum_closed l :
  P 0%float -> P PrimFloat.neg_zero -> Forall P l -> P (np_sum l).
Proof. intros H0 Hz Hl. unfold np_sum. apply add_chunks_closed; assumption. Qed.

End SumClosed.

Lemma np_sum_nonneg l :
  Forall (fun x => (0 <=? x)%float = true) l -> sf_nonneg (Prim2SF (np_sum l)).
Proof.
  intros Hl.
  apply (np_sum_closed (fun x => sf_nonneg (Prim2SF x))).
  - intros x y Hx Hy. rewrite add_spec. apply SFadd_nonneg; assumption.
  - exact I.
  - exact I.
  - eapply Forall_impl; [| exact Hl]. intros x. apply leb_zero_sf_nonneg.
Qed.

Lemma sf_nonneg_pos x :
  sf_nonneg (Prim2SF x) -> (x =? 0)%float = false -> (0 <? x)%float = true.
Proof.
  rewrite eqb_spec, ltb_spec.
  replace (Prim2SF 0%float) with (S754_zero false) by reflexivity.
  destruct (Prim2SF x) as [s | s | | s m e]; cbn; try discriminate; try contradiction;
    intros; subst; reflexivity.
Qed.

(** C4 (amended).  For every accepted event, the rainfall sum over its
    post-period does not compare equal to zero; when every rainfall sample of
    that post-period is a non-negative number (none missing, none negative),
    the sum is strictly greater than zero. *)
Theorem events_have_rain dtdata ttdata rrdata cfg e icp :
  constructed dtdata ttdata rrdata cfg e ->
  In icp (indices e) ->
  exists rr npost,
    rrdata = NdArray rr /\ self_npost e = Some npost /\
    (post_rain rr npost icp =? 0)%float = false /\
    (Forall (fun x => (0 <=? x)%float = true) (post_samples rr npost icp) ->
     (0 <? post_rain rr npost icp)%float = true).
Proof.
  intros [out Hc] Hin. unfold indices in Hin.
  apply cp_detection_inv in Hc as [(Hnil & _) | (d & tt & rr & ntt & npre & npost & Hran)].
  { rewrite Hnil in Hin. destruct Hin. }
  pose proof (events_accepted _ _ _ _ _ _ _ _ _ _ _ Hran) as Hacc.
  rewrite Forall_forall in Hacc.
  destruct (Hacc icp Hin) as (prev & t & _ & _ & _ & _ & _ & _ & _ & Hsum).
  exists rr, npost. destruct Hran.
  repeat split; auto.
  intros Hdata. apply sf_nonneg_pos; [| exact Hsum].
  apply np_sum_nonneg. exact Hdata.
Qed.

Lemma events_have_rain_witness :
  constructed (DtIndex (grid 1200 8)) (NdArray tt_two) (NdArray rr_two)
    default_config self_two /\
  In 4 (indices self_two) /\
  exists rr npost,
    NdArray rr_two = NdArray rr /\ self_npost self_two = Some npost /\
    (post_rain rr npost 4 =? 0)%float = false /\
    (Forall (fun x => (0 <=? x)%float = true) (post_samples rr npost 4) ->
     (0 <? post_rain rr npost 4)%float = true).
Proof.
  assert (Hc : constructed (DtIndex (grid 1200 8)) (NdArray tt_two) (NdArray rr_two)
                 default_config self_two)
    by (exists []; vm_compute; reflexivity).
  assert (Hin : In 4 (indices self_two)) by (cbn; auto).
  split; [exact Hc |]. split; [exact Hin |].
  exact (events_have_rain _ _ _ _ self_two 4 Hc Hin).
Defined.

(** C4 as stated fails: with a per-event availability threshold of 0.5, the
    event of [run_gap] at index 1 is accepted although the rainfall sum over
    its post-period [2, 5) is NaN, which is not greater than zero. *)
Lemma event_with_nan_rain_sum :
  constructed (DtIndex (grid 1200 5)) (NdArray tt_gap) (NdArray rr_gap)
    cfg_half self_gap /\
  In 1 (indices self_gap) /\
  self_npost self_gap = Some 3 /\
  PrimFloat.is_nan (post_rain rr_gap 3 1) = true /\
  (0 <? post_rain rr_gap 3 1)%float = false.
Proof.
  split; [exists []; vm_compute; reflexivity |].
  vm_compute. repeat split. left. reflexivity.
Qed.

(* ------------------------------------------------------------------------ *)
(** ** The period indexer *)

(** C5 (amended).  For every event index [i], the indexer returns
    pre = [i - npre, i + 1) (the passage sample included),
    post = [i + 1, i + npost + 1) and all = [i - npre, i + npost + 1); the
    result depends on the instance through [npre] and [npost] only. *)
Theorem index_cp_periods self npre npost i :
  self_npre self = Some npre ->
  self_npost self = Some npost ->
  _index_cp self i "pre" = ret (Some (mkslice (i - npre) (i + 1))) /\
  _index_cp self i "post" = ret (Some (mkslice (i + 1) (i + npost + 1))) /\
  _index_cp self i "all" = ret (Some (mkslice (i - npre) (i + npost + 1))).
Proof.
  intros H1 H2. rewrite !(index_cp_set self npre npost) by assumption.
  repeat split; reflexivity.
Qed.

Lemma index_cp_periods_witness :
  _index_cp self_two 4 "pre" = ret (Some (mkslice (4 - 1) (4 + 1))) /\
  _index_cp self_two 4 "post" = ret (Some (mkslice (4 + 1) (4 + 3 + 1))) /\
  _index_cp self_two 4 "all" = ret (Some (mkslice (4 - 1) (4 + 3 + 1))).
Proof.
  apply (index_cp_periods self_two 1 3 4); reflexivity.
Defined.

(** C5 as stated fails: the pre-period of the event at index 4 with
    [npre = 1] is [3, 5), not [3, 4). *)
Lemma index_cp_pre_includes_passage :
  _index_cp self_two 4 "pre" = ret (Some (mkslice 3 5)) /\
  _index_cp self_two 4 "pre" <> ret (Some (mkslice (4 - 1) 4)).
Proof.
  split; [reflexivity | vm_compute; discriminate].
Qed.

(* ------------------------------------------------------------------------ *)
(** ** Unknown names *)

Lemma py_in_false x l : py_in x l = false <-> ~ In x l.
Proof.
  unfold py_in. induction l as [| y l IH]; cbn.
  - split; [intros _ [] | reflexivity].
  - rewrite orb_false_iff, IH. destruct (String.eqb_spec x y) as [-> | Hne].
    + split; [intros [H _]; discriminate | intros H; exfalso; apply H; auto].
    + split; [intros [_ H] [Heq | Hin]; [congruence | auto] | auto].
Qed.

(** C9.  A function name outside [funcavail] makes the reduction print a
    diagnostic and return an empty frame; a period name outside [periods]
    makes [var_val] do the same; neither raises. *)
Theorem unknown_names_give_empty `{Pandas} eventdata self indata funcstr period funcstr' :
  ~ In funcstr funcavail ->
  ~ In period periods ->
  _calc_val eventdata funcstr
    = ([FunctionUnavailable funcstr], Ok (Frame empty_frame)) /\
  var_val self indata period funcstr'
    = ([PeriodUnavailable period], Ok (Frame empty_frame)).
Proof.
  intros Hf Hp. apply py_in_false in Hf. apply py_in_false in Hp.
  unfold _calc_val, var_val. rewrite Hf, Hp. split; reflexivity.
Qed.

Lemma unknown_names_give_empty_witness :
  _calc_val (pandas := sample_pandas) empty_frame "range"
    = ([FunctionUnavailable "range"], Ok (Frame empty_frame)) /\
  var_val (pandas := sample_pandas) self_two (NdArray tt_two) "during" "mean"
    = ([PeriodUnavailable "during"], Ok (Frame empty_frame)).
Proof.
  apply (unknown_names_give_empty empty_frame self_two (NdArray tt_two)
           "range" "during" "mean").
  - apply py_in_false. reflexivity.
  - apply py_in_false. reflexivity.
Defined.

(* ------------------------------------------------------------------------ *)
(** ** Perturbations *)

Lemma bind_assoc {A B C} (m : M A) (f : A -> M B) (g : B -> M C) :
  bind (bind m f) g = bind m (fun x => bind (f x) g).
Proof.
  destruct m as [o [a | e]]; cbn; [| reflexivity].
  destruct (f a) as [o' [b | e']]; cbn; [| reflexivity].
  destruct (g b) as [o'' r]. rewrite app_assoc. reflexivity.
Qed.

Lemma bind_ext {A B} (m : M A) (f g : A -> M B) :
  (forall a, f a = g a) -> bind m f = bind m g.
Proof.
  intros H. destruct m as [o [a | e]]; cbn; [rewrite H |]; reflexivity.
Qed.

Lemma lookup_In_fst {V} k (l : list (Z * V)) v :
  lookup k l = Some v -> In k (map fst l).
Proof.
  unfold lookup. induction l as [| [k' v'] l IH]; cbn; [discriminate |].
  destruct (Z.eqb_spec k' k); [auto |]. intros H. right. auto.
Qed.

Lemma lookup_map_keys {V} (F : Z -> V) keys k :
  In k keys -> lookup k (map (fun k' => (k', F k')) keys) = Some (F k).
Proof.
  unfold lookup. induction keys as [| k' keys IH]; cbn; [intros [] |].
  destruct (Z.eqb_spec k' k) as [-> | Hne]; [reflexivity |].
  intros [Heq | Hin]; [congruence | auto].
Qed.

Lemma series_sub_at x y k a b :
  lookup k x = Some a -> lookup k y = Some b ->
  lookup k (series_sub x y) = Some (a - b)%float.
Proof.
  intros Hx Hy. unfold series_sub.
  rewrite lookup_map_keys.
  - rewrite Hx, Hy. reflexivity.
  - unfold union_keys. apply in_or_app. left. eapply lookup_In_fst; eassumption.
Qed.

(** [var_pert] runs the two [var_val] queries, pre-period first, and
    subtracts. *)
Lemma var_pert_bind `{Pandas} self indata prefunc postfunc :
  var_pert self indata prefunc postfunc
  = (pre_val <- var_val self indata "pre" prefunc ;;
     post_val <- var_val self indata "post" postfunc ;;
     lift (py_sub post_val pre_val)).
Proof.
  change (var_val self indata "pre" prefunc)
    with (ev <- var_time self indata ;; _pre_val self ev prefunc).
  change (var_val self indata "post" postfunc)
    with (ev <- var_time self indata ;; _post_val self ev postfunc).
  unfold var_pert. rewrite bind_assoc.
  apply bind_ext; intros ev_pre. apply bind_ext; intros pre_val.
  rewrite bind_assoc. reflexivity.
Qed.

(* ------------------------------------------------------------------------ *)
(** ** Failed validation *)

(** C8 fails on the code.  A temperature array shorter than the grid makes
    the construction complete with no event, but the instance then lacks the
    attributes assigned under [if check_all:], and windowing a series of the
    grid's length raises [AttributeError]; so does an irregular grid. *)
Theorem failed_validation_breaks_queries `{Pandas} :
  run_short = ([LengthMismatch "TT"], Ok self_short) /\
  indices self_short = [] /\ number self_short = 0 /\
  self_data_avail_all self_short = None /\
  rr_time self_short = ([], Raise AttributeError) /\
  var_val self_short (NdArray [0; 1; 0]%float) "all" "sum" = ([], Raise AttributeError) /\
  exists e,
    cp_detection (DtIndex (mkDatetimeIndex [0; 600; 1300] None))
      (NdArray [300; 290; 290]%float) (NdArray [0; 1; 0]%float) default_config
    = ([NoRegularGrid], Ok e) /\
    indices e = [] /\ number e = 0 /\
    tt_time e = ([], Raise AttributeError).
Proof.
  vm_compute. repeat split. eexists. repeat split.
Qed.

(* ------------------------------------------------------------------------ *)
(** ** Binary64 rounding of sums and differences *)

(** The specification of binary64 addition and subtraction rounds the exact
    result: no binary64 number lies strictly between the exact sum and the
    computed one.  Values are counted in units of 2^-1074, which makes every
    finite number and every exact sum an integer. *)

Lemma digits2_bounds m :
  2 ^ (Z.pos (digits2_pos m) - 1) <= Z.pos m < 2 ^ Z.pos (digits2_pos m).
Proof.
  induction m as [m IH | m IH |]; cbn [digits2_pos].
  - rewrite Pos2Z.inj_succ. replace (Z.succ (Z.pos (digits2_pos m)) - 1)
      with (Z.succ (Z.pos (digits2_pos m) - 1)) by lia.
    rewrite !Z.pow_succ_r by lia. lia.
  - rewrite Pos2Z.inj_succ. replace (Z.succ (Z.pos (digits2_pos m)) - 1)
      with (Z.succ (Z.pos (digits2_pos m) - 1)) by lia.
    rewrite !Z.pow_succ_r by lia. lia.
  - cbn. lia.
Qed.

Lemma fexp_eq e : fexp prec emax e = Z.max (e - 53) (-1074).
Proof. reflexivity. Qed.

Lemma valid_finite_inv s m e :
  valid_binary (S754_finite s m e) = true ->
  -1074 <= e <= 971 /\ Z.pos m < 2 ^ 53 /\ (e = -1074 \/ 2 ^ 52 <= Z.pos m).
Proof.
  cbn [SpecFloat.valid_binary]. unfold bounded, canonical_mantissa.
  rewrite fexp_eq. intros H. apply andb_true_iff in H as [Hc Hb].
  apply Z.eqb_eq in Hc. apply Z.leb_le in Hb. change (emax - prec) with 971 in Hb.
  pose proof (digits2_bounds m) as [Hlo Hhi].
  destruct (Z.max_spec (Z.pos (digits2_pos m) + e - 53) (-1074)) as [[Hlt Hm] | [Hge Hm]];
    rewrite Hm in Hc.
  - assert (Hd : Z.pos (digits2_pos m) <= 52) by lia.
    split; [lia |]. split; [| left; lia].
    pose proof (Z.pow_le_mono_r 2 (Z.pos (digits2_pos m)) 52 ltac:(lia) Hd).
    pose proof (Z.pow_lt_mono_r 2 52 53 ltac:(lia) ltac:(lia) ltac:(lia)). lia.
  - assert (Hd : Z.pos (digits2_pos m) = 53) by lia.
    rewrite Hd in Hlo, Hhi. split; [lia |]. split; [exact Hhi |]. right. exact Hlo.
Qed.

Lemma pow2_pos k : 0 <= k -> 0 < 2 ^ k.
Proof. intros H. apply Z.pow_pos_nonneg; lia. Qed.

(** Comparison of two positive canonical values, through their units. *)
Lemma compare_canonical m1 e1 m2 e2 :
  -1074 <= e1 -> -1074 <= e2 ->
  Z.pos m1 < 2 ^ 53 -> Z.pos m2 < 2 ^ 53 ->
  (e1 = -1074 \/ 2 ^ 52 <= Z.pos m1) -> (e2 = -1074 \/ 2 ^ 52 <= Z.pos m2) ->
  match e1 ?= e2 with
  | Lt => Lt
  | Gt => Gt
  | Eq => Pos.compare_cont Eq m1 m2
  end = (Z.pos m1 * 2 ^ (e1 + 1074) ?= Z.pos m2 * 2 ^ (e2 + 1074)).
Proof.
  intros H1 H2 Hm1 Hm2 Hc1 Hc2.
  assert (Hstep : forall ma a mb b,
            0 <= a < b -> 0 < ma < 2 ^ 53 -> 2 ^ 52 <= mb ->
            ma * 2 ^ a < mb * 2 ^ b).
  { intros ma a mb b Hab Hma Hmb.
    pose proof (pow2_pos a ltac:(lia)) as Ha.
    pose proof (Z.pow_le_mono_r 2 (a + 1) b ltac:(lia) ltac:(lia)) as Hb.
    rewrite Z.pow_add_r in Hb by lia. change (2 ^ 1) with 2 in Hb.
    change (2 ^ 53) with (2 * 2 ^ 52) in Hma.
    set (A := 2 ^ a) in *. set (B := 2 ^ b) in *. set (C := 2 ^ 52) in *.
    assert (0 < C) by (unfold C; apply pow2_pos; lia).
    nia. }
  destruct (Z.compare_spec e1 e2) as [Heq | Hlt | Hgt].
  - subst e2. pose proof (pow2_pos (e1 + 1074) ltac:(lia)).
    change (Pos.compare_cont Eq m1 m2) with (Z.pos m1 ?= Z.pos m2).
    destruct (Z.compare_spec (Z.pos m1) (Z.pos m2)) as [Hm | Hm | Hm]; symmetry.
    + rewrite Hm. apply Z.compare_refl.
    + apply Z.compare_lt_iff. nia.
    + apply Z.compare_gt_iff. nia.
  - symmetry. apply Z.compare_lt_iff. apply Hstep; lia.
  - symmetry. apply Z.compare_gt_iff. apply Hstep; lia.
Qed.

Lemma compare_units x y :
  valid_binary x = true -> valid_binary y = true ->
  sf_finite x -> sf_finite y ->
  SFcompare x y = Some (sf_units x ?= sf_units y).
Proof.
  intros Hvx Hvy Hfx Hfy.
  destruct x as [sx | sx | | sx mx ex]; try contradiction;
    destruct y as [sy | sy | | sy my ey]; try contradiction.
  - reflexivity.
  - apply valid_finite_inv in Hvy as (He & _).
    pose proof (pow2_pos (ey + 1074) ltac:(lia)).
    cbn [SFcompare sf_units]. f_equal. symmetry.
    destruct sy; cbn [cond_Zopp]; [apply Z.compare_gt_iff | apply Z.compare_lt_iff]; nia.
  - apply valid_finite_inv in Hvx as (He & _).
    pose proof (pow2_pos (ex + 1074) ltac:(lia)).
    cbn [SFcompare sf_units]. f_equal. symmetry.
    destruct sx; cbn [cond_Zopp]; [apply Z.compare_lt_iff | apply Z.compare_gt_iff]; nia.
  - apply valid_finite_inv in Hvx as (Hex & Hmx & Hcx).
    apply valid_finite_inv in Hvy as (Hey & Hmy & Hcy).
    pose proof (pow2_pos (ex + 1074) ltac:(lia)).
    pose proof (pow2_pos (ey + 1074) ltac:(lia)).
    cbn [SFcompare sf_units]. f_equal.
    destruct sx, sy; cbn [cond_Zopp].
    + rewrite Z.compare_opp.
      rewrite <- (compare_canonical my ey mx ex) by (assumption || lia).
      rewrite (Z.compare_antisym ey ex).
      destruct (ey ?= ex); cbn [CompOpp]; try reflexivity.
      rewrite Pos.compare_cont_antisym. reflexivity.
    + symmetry. apply Z.compare_lt_iff. nia.
    + symmetry. apply Z.compare_gt_iff. nia.
    + apply compare_canonical; assumption || lia.
Qed.

Lemma SFleb_units x y :
  valid_binary x = true -> valid_binary y = true ->
  sf_finite x -> sf_finite y ->
  SFleb x y = true <-> sf_units x <= sf_units y.
Proof.
  intros Hvx Hvy Hfx Hfy. unfold SFleb.
  rewrite (compare_units x y Hvx Hvy Hfx Hfy).
  destruct (Z.compare_spec (sf_units x) (sf_units y)); split; intros; try lia;
    try reflexivity; try discriminate.
Qed.

Lemma SFltb_units x y :
  valid_binary x = true -> valid_binary y = true ->
  sf_finite x -> sf_finite y ->
  SFltb x y = true <-> sf_units x < sf_units y.
Proof.
  intros Hvx Hvy Hfx Hfy. unfold SFltb.
  rewrite (compare_units x y Hvx Hvy Hfx Hfy).
  destruct (Z.compare_spec (sf_units x) (sf_units y)); split; intros; try lia;
    try reflexivity; try discriminate.
Qed.

(** Shifting right. *)

Lemma shr_1_spec mrs :
  0 <= shr_m mrs ->
  shr_m (shr_1 mrs) = shr_m mrs / 2 /\
  shr_inexact (shr_1 mrs) = Z.odd (shr_m mrs) || shr_inexact mrs.
Proof.
  destruct mrs as [m r s]. unfold shr_inexact. cbn [shr_m shr_r shr_s]. intros Hm.
  destruct m as [| q | q]; [split; reflexivity | | lia].
  destruct q as [q | q |]; cbn [shr_1 shr_m shr_r shr_s Z.odd orb]; split;
    try reflexivity.
  - apply Z.div_unique with (r := 1); lia.
  - apply Z.div_unique with (r := 0); lia.
Qed.

Lemma shr_1_step M k mrs :
  0 <= M -> 0 <= k ->
  shr_m mrs = M / 2 ^ k ->
  (shr_inexact mrs = false <-> M mod 2 ^ k = 0) ->
  shr_m (shr_1 mrs) = M / 2 ^ (k + 1) /\
  (shr_inexact (shr_1 mrs) = false <-> M mod 2 ^ (k + 1) = 0).
Proof.
  intros HM Hk Hm Hin.
  pose proof (pow2_pos k Hk) as Hp.
  assert (Hq : 0 <= shr_m mrs) by (rewrite Hm; apply Z.div_pos; lia).
  destruct (shr_1_spec mrs Hq) as [H1 H2].
  rewrite Z.pow_add_r by lia. change (2 ^ 1) with 2.
  split.
  - rewrite H1, Hm. apply Z.div_div; lia.
  - rewrite H2, Z.rem_mul_r by lia.
    pose proof (Z.mod_pos_bound M (2 ^ k) Hp) as Hb1.
    pose proof (Z.mod_pos_bound (M / 2 ^ k) 2 ltac:(lia)) as Hb2.
    rewrite orb_false_iff, Hin, Hm, Zodd_mod.
    destruct (Z.eqb_spec ((M / 2 ^ k) mod 2) 1) as [E | E].
    + split; [intros [? _]; discriminate | nia].
    + split; [intros [_ Hz]; rewrite Hz; nia | intros; split; [reflexivity | nia]].
Qed.

Lemma iter_shr_1_spec p : forall M k mrs,
  0 <= M -> 0 <= k ->
  shr_m mrs = M / 2 ^ k ->
  (shr_inexact mrs = false <-> M mod 2 ^ k = 0) ->
  shr_m (iter_pos shr_1 p mrs) = M / 2 ^ (k + Z.pos p) /\
  (shr_inexact (iter_pos shr_1 p mrs) = false <-> M mod 2 ^ (k + Z.pos p) = 0).
Proof.
  induction p as [p IH | p IH |]; intros M k mrs HM Hk Hm Hin; cbn [iter_pos].
  - destruct (shr_1_step M k mrs HM Hk Hm Hin) as [H1 H2].
    destruct (IH M (k + 1) (shr_1 mrs) HM ltac:(lia) H1 H2) as [H3 H4].
    destruct (IH M (k + 1 + Z.pos p) _ HM ltac:(lia) H3 H4) as [H5 H6].
    replace (k + Z.pos p~1) with (k + 1 + Z.pos p + Z.pos p) by lia.
    split; assumption.
  - destruct (IH M k mrs HM Hk Hm Hin) as [H3 H4].
    destruct (IH M (k + Z.pos p) _ HM ltac:(lia) H3 H4) as [H5 H6].
    replace (k + Z.pos p~0) with (k + Z.pos p + Z.pos p) by lia.
    split; assumption.
  - apply shr_1_step; assumption.
Qed.

(** [shr_fexp] on an exact positive mantissa: the quotient by the power of
    two that brings it to the exponent of its format, and whether bits were
    lost. *)
Lemma shr_fexp_spec M ez :
  0 < M ->
  let n := fexp prec emax (Zdigits2 M + ez) - ez in
  let p := shr_fexp prec emax M ez loc_Exact in
  (n <= 0 -> p = (Build_shr_record M false false, ez)) /\
  (0 < n ->
   snd p = ez + n /\ shr_m (fst p) = M / 2 ^ n /\
   (shr_inexact (fst p) = false <-> M mod 2 ^ n = 0)).
Proof.
  intros HM n p. unfold p, shr_fexp. fold n. cbn [shr_record_of_loc].
  split; intros Hn.
  - unfold shr. destruct n; try lia; reflexivity.
  - unfold shr. destruct n as [| q | q]; try lia. cbn [fst snd].
    split; [reflexivity |].
    apply (iter_shr_1_spec q M 0); cbn [shr_m]; try lia.
    + rewrite Z.div_1_r. reflexivity.
    + unfold shr_inexact. cbn. rewrite Z.mod_1_r. tauto.
Qed.

(** Rounding. *)

Lemma digits_of_range m k :
  2 ^ (k - 1) <= Z.pos m < 2 ^ k -> Z.pos (digits2_pos m) = k.
Proof.
  intros [Hlo Hhi]. pose proof (digits2_bounds m) as [Dlo Dhi].
  set (d := Z.pos (digits2_pos m)) in *.
  assert (Hk : 0 < k).
  { destruct (Z.lt_ge_cases 0 k); [assumption |].
    rewrite (Z.pow_neg_r 2 (k - 1)) in Hlo by lia.
    destruct (Z.eq_dec k 0) as [-> | ]; [cbn in Hhi; lia |].
    rewrite Z.pow_neg_r in Hhi by lia. lia. }
  destruct (Z.lt_trichotomy d k) as [Hlt | [Heq | Hgt]]; [| exact Heq |].
  - pose proof (Z.pow_le_mono_r 2 d (k - 1) ltac:(lia) ltac:(lia)). lia.
  - pose proof (Z.pow_le_mono_r 2 k (d - 1) ltac:(lia) ltac:(lia)). lia.
Qed.

Lemma rne_spec mrs :
  let m1 := round_nearest_even (shr_m mrs) (loc_of_shr_record mrs) in
  m1 = shr_m mrs \/ (m1 = shr_m mrs + 1 /\ shr_inexact mrs = true).
Proof.
  destruct mrs as [m [] []]; cbn; try (destruct (Z.even m)); auto.
Qed.

(** No canonical value lies strictly between two consecutive multiples of
    the unit of a binade (or of the subnormal range). *)
Lemma no_value_between y q e' :
  valid_binary y = true -> sf_finite y ->
  -1074 <= e' -> 0 <= q -> (e' = -1074 \/ 2 ^ 52 <= q) ->
  q * 2 ^ (e' + 1074) < sf_units y ->
  (q + 1) * 2 ^ (e' + 1074) <= sf_units y.
Proof.
  intros Hv Hf He Hq Hc Hlt.
  pose proof (pow2_pos (e' + 1074) ltac:(lia)) as Hu.
  destruct y as [sy | sy | | sy my ey]; try contradiction; cbn [sf_units] in *; [nia |].
  apply valid_finite_inv in Hv as (Hey & Hmy & Hcy).
  pose proof (pow2_pos (ey + 1074) ltac:(lia)) as Huy.
  destruct sy; cbn [cond_Zopp] in *; [nia |].
  destruct (Z.le_gt_cases e' ey) as [Hle | Hgt].
  - assert (Epow : 2 ^ (ey + 1074) = 2 ^ (ey - e') * 2 ^ (e' + 1074))
      by (rewrite <- Z.pow_add_r by lia; f_equal; lia).
    rewrite Epow in Hlt |- *.
    pose proof (pow2_pos (ey - e') ltac:(lia)).
    set (u := 2 ^ (e' + 1074)) in *. set (w := 2 ^ (ey - e')) in *.
    rewrite Z.mul_assoc in Hlt |- *.
    apply Z.mul_lt_mono_pos_r in Hlt; [| assumption].
    apply Z.mul_le_mono_nonneg_r; lia.
  - exfalso. destruct Hc as [Hc | Hc]; [lia |].
    pose proof (Z.pow_le_mono_r 2 (ey + 1074 + 1) (e' + 1074) ltac:(lia) ltac:(lia)) as Hp.
    rewrite Z.pow_add_r in Hp by lia. change (2 ^ 1) with 2 in Hp.
    change (2 ^ 53) with (2 * 2 ^ 52) in Hmy.
    set (u := 2 ^ (e' + 1074)) in *. set (w := 2 ^ (ey + 1074)) in *.
    set (C := 2 ^ 52) in *.
    assert (0 < C) by (unfold C; apply pow2_pos; lia).
    nia.
Qed.

(** What [binary_round_aux] returns for an exact positive mantissa aligned at
    or below the exponent of its format: the quotient [q] of the value by
    the unit of that exponent, or [q + 1] when bits were lost. *)
Lemma binary_round_aux_form mz ez :
  -1074 <= ez ->
  ez <= fexp prec emax (Z.pos (digits2_pos mz) + ez) ->
  exists q m1 e',
    -1074 <= e' /\ 0 < q < 2 ^ 53 /\ (e' = -1074 \/ 2 ^ 52 <= q) /\
    q * 2 ^ (e' + 1074) <= Z.pos mz * 2 ^ (ez + 1074) < (q + 1) * 2 ^ (e' + 1074) /\
    (m1 = q \/ (m1 = q + 1 /\ q * 2 ^ (e' + 1074) < Z.pos mz * 2 ^ (ez + 1074))) /\
    binary_round_aux prec emax false (Z.pos mz) ez loc_Exact
    = if m1 <? 2 ^ 53
      then if e' <=? 971 then S754_finite false (Z.to_pos m1) e'
           else S754_infinity false
      else if e' + 1 <=? 971 then S754_finite false (Z.to_pos (2 ^ 52)) (e' + 1)
           else S754_infinity false.
Proof.
  intros Hez Hal.
  pose proof (digits2_bounds mz) as [Dlo Dhi].
  set (d := Z.pos (digits2_pos mz)) in *.
  destruct (shr_fexp_spec (Z.pos mz) ez ltac:(lia)) as [Hn0 Hnpos].
  cbn [Zdigits2] in Hn0, Hnpos. fold d in Hn0, Hnpos.
  rewrite fexp_eq in Hal, Hn0, Hnpos.
  set (n := Z.max (d + ez - 53) (-1074) - ez) in *.
  assert (Hn : 0 <= n) by (unfold n; lia).
  pose proof (pow2_pos (ez + 1074) ltac:(lia)) as Hw.
  unfold binary_round_aux.
  destruct (Z.eq_dec n 0) as [Hz | Hnz].
  - (* no bit is shifted out *)
    rewrite (Hn0 ltac:(lia)). cbn [shr_m loc_of_shr_record round_nearest_even].
    rewrite (Hn0 ltac:(lia)). cbn [shr_m].
    assert (Hd : d <= 53) by (unfold n in Hz; lia).
    assert (Hm : Z.pos mz < 2 ^ 53).
    { pose proof (Z.pow_le_mono_r 2 d 53 ltac:(lia) Hd). lia. }
    exists (Z.pos mz), (Z.pos mz), ez.
    split; [assumption |]. split; [lia |]. split.
    { destruct (Z.eq_dec ez (-1074)) as [| Hne]; [left; assumption | right].
      assert (d = 53) by (unfold n in Hz; lia). subst d.
      replace 52 with (53 - 1) by lia. congruence. }
    split; [nia |]. split; [left; reflexivity |].
    destruct (Z.ltb_spec (Z.pos mz) (2 ^ 53)); [| lia]. reflexivity.
  - (* [n] bits are shifted out *)
    destruct (Hnpos ltac:(lia)) as (He' & Hq & Hflag).
    destruct (shr_fexp prec emax (Z.pos mz) ez loc_Exact) as [mrs' e'].
    cbv beta iota. cbn [fst snd] in He', Hq, Hflag.
    assert (Hdn : n = d - 53 /\ e' = d + ez - 53) by (unfold n in *; lia).
    destruct Hdn as [Hdn He'd].
    pose proof (pow2_pos n Hn) as Hpn.
    assert (E1 : 2 ^ (d - 1) = 2 ^ 52 * 2 ^ n)
      by (rewrite <- Z.pow_add_r by lia; f_equal; lia).
    assert (E2 : 2 ^ d = 2 ^ 53 * 2 ^ n)
      by (rewrite <- Z.pow_add_r by lia; f_equal; lia).
    assert (Eu : 2 ^ (e' + 1074) = 2 ^ n * 2 ^ (ez + 1074))
      by (rewrite <- Z.pow_add_r by lia; f_equal; lia).
    set (q := Z.pos mz / 2 ^ n) in *.
    assert (Hqlo : 2 ^ 52 <= q).
    { apply Z.div_le_lower_bound; [assumption |]. rewrite Z.mul_comm. lia. }
    assert (Hqhi : q < 2 ^ 53).
    { apply Z.div_lt_upper_bound; [assumption |]. rewrite Z.mul_comm. lia. }
    pose proof (Z.div_mod (Z.pos mz) (2 ^ n) ltac:(lia)) as Hdm. fold q in Hdm.
    pose proof (Z.mod_pos_bound (Z.pos mz) (2 ^ n) Hpn) as Hr.
    set (r := Z.pos mz mod 2 ^ n) in *.
    assert (H52 : 0 < 2 ^ 52) by (apply pow2_pos; lia).
    assert (Hval : q * 2 ^ (e' + 1074) <= Z.pos mz * 2 ^ (ez + 1074)
                   < (q + 1) * 2 ^ (e' + 1074)).
    { rewrite Eu. set (w := 2 ^ (ez + 1074)) in *. set (N := 2 ^ n) in *.
      rewrite Hdm. nia. }
    assert (Hinex : shr_inexact mrs' = true ->
                    q * 2 ^ (e' + 1074) < Z.pos mz * 2 ^ (ez + 1074)).
    { intros Hi. assert (Hr0 : r <> 0).
      { intros E. apply Hflag in E. congruence. }
      rewrite Eu. set (w := 2 ^ (ez + 1074)) in *. set (N := 2 ^ n) in *.
      rewrite Hdm. nia. }
    pose proof (rne_spec mrs') as Hrne. cbn zeta in Hrne.
    set (m1 := round_nearest_even (shr_m mrs') (loc_of_shr_record mrs')) in *.
    rewrite <- Hq in Hqlo, Hqhi, Hval, Hinex. clear Hdm.
    exists (shr_m mrs'), m1, e'.
    split; [lia |]. split; [lia |]. split; [right; assumption |].
    split; [exact Hval |].
    split; [destruct Hrne as [-> | [-> Hi]]; [left; reflexivity | right; auto] |].
    assert (Hm1 : 2 ^ 52 <= m1 <= 2 ^ 53) by (destruct Hrne as [-> | [-> _]]; lia).
    destruct (Z.ltb_spec m1 (2 ^ 53)) as [Hlt | Hge].
    + (* no carry *)
      destruct m1 as [| p1 | p1] eqn:Em1; try lia.
      assert (Hd1 : Z.pos (digits2_pos p1) = 53)
        by (apply digits_of_range; change (53 - 1) with 52; lia).
      destruct (shr_fexp_spec (Z.pos p1) e' ltac:(lia)) as [Hs _].
      cbn [Zdigits2] in Hs. rewrite Hd1, fexp_eq in Hs.
      rewrite (Hs ltac:(lia)). cbn [shr_m]. reflexivity.
    + assert (Em1 : m1 = 2 ^ 53) by lia. rewrite Em1.
      unfold shr_fexp.
      replace (fexp prec emax (Zdigits2 (2 ^ 53) + e') - e') with 1
        by (rewrite fexp_eq; change (Zdigits2 (2 ^ 53)) with 54; lia).
      reflexivity.
Qed.

Lemma rounds_exact R : sf_finite R -> rounds_to (sf_units R) R.
Proof.
  destruct R as [s | s | | s m e]; try contradiction; intros _ y _ _; split; auto.
Qed.

Lemma binary_round_aux_rounds mz ez :
  -1074 <= ez ->
  ez <= fexp prec emax (Z.pos (digits2_pos mz) + ez) ->
  rounds_to (Z.pos mz * 2 ^ (ez + 1074))
            (binary_round_aux prec emax false (Z.pos mz) ez loc_Exact).
Proof.
  intros Hez Hal.
  destruct (binary_round_aux_form mz ez Hez Hal)
    as (q & m1 & e' & He' & Hq & Hc & Hval & Hm1 & ->).
  set (V := Z.pos mz * 2 ^ (ez + 1074)) in *.
  pose proof (pow2_pos (e' + 1074) ltac:(lia)) as Hu.
  assert (Hfaith : forall y, valid_binary y = true -> sf_finite y ->
            (sf_units y <= V -> sf_units y <= m1 * 2 ^ (e' + 1074)) /\
            (V <= sf_units y -> m1 * 2 ^ (e' + 1074) <= sf_units y)).
  { intros y Hv Hf.
    pose proof (no_value_between y q e' Hv Hf He' ltac:(lia) Hc) as Hgap.
    set (u := 2 ^ (e' + 1074)) in *.
    destruct Hm1 as [-> | [-> Hlt]]; split; intros Hy; lia. }
  assert (Hbig : 2 ^ 2045 <= 2 ^ (e' + 1074) -> 971 <= e').
  { intros Hp. destruct (Z.le_gt_cases 971 e'); [assumption | exfalso].
    pose proof (Z.pow_lt_mono_r 2 (e' + 1074) 2045 ltac:(lia) ltac:(lia) ltac:(lia)).
    lia. }
  destruct (Z.ltb_spec m1 (2 ^ 53)) as [Hlt | Hge].
  - destruct (Z.leb_spec e' 971) as [Hle | Hgt].
    + cbn [rounds_to sf_units cond_Zopp]. rewrite Z2Pos.id by (destruct Hm1; lia).
      exact Hfaith.
    + cbn [rounds_to]. unfold max_units.
      destruct Hc as [Hc | Hc]; [lia |].
      pose proof (Z.pow_le_mono_r 2 (2045 + 1) (e' + 1074) ltac:(lia) ltac:(lia)) as Hp.
      rewrite Z.pow_add_r in Hp by lia. change (2 ^ 1) with 2 in Hp.
      change (2 ^ 53) with (2 * 2 ^ 52) in *.
      assert (0 < 2 ^ 52) by (apply pow2_pos; lia).
      pose proof (pow2_pos 2045 ltac:(lia)).
      set (u := 2 ^ (e' + 1074)) in *. set (C := 2 ^ 52) in *. set (B := 2 ^ 2045) in *.
      nia.
  - assert (Hq53 : m1 = q + 1 /\ q = 2 ^ 53 - 1 /\ q * 2 ^ (e' + 1074) < V)
      by (destruct Hm1 as [-> | [-> ?]]; lia).
    destruct Hq53 as (-> & Eq & Hlt).
    destruct (Z.leb_spec (e' + 1) 971) as [Hle | Hgt].
    + cbn [rounds_to sf_units cond_Zopp]. rewrite Z2Pos.id by (apply pow2_pos; lia).
      replace (2 ^ 52 * 2 ^ (e' + 1 + 1074)) with ((q + 1) * 2 ^ (e' + 1074)).
      * exact Hfaith.
      * rewrite Eq. replace (e' + 1 + 1074) with (1 + (e' + 1074)) by lia.
        rewrite (Z.pow_add_r 2 1 (e' + 1074)) by lia.
        change (2 ^ 53 - 1 + 1) with (2 ^ 52 * 2 ^ 1). ring.
    + cbn [rounds_to]. unfold max_units.
      pose proof (Z.pow_le_mono_r 2 2045 (e' + 1074) ltac:(lia) ltac:(lia)) as Hp.
      rewrite Eq in Hlt.
      assert (0 < 2 ^ 53 - 1) by (change (2 ^ 53 - 1) with 9007199254740991; lia).
      set (u := 2 ^ (e' + 1074)) in *. set (B := 2 ^ 2045) in *.
      set (D := 2 ^ 53 - 1) in *. nia.
Qed.

Lemma binary_round_aux_opp m e l :
  binary_round_aux prec emax true m e l
  = SFopp (binary_round_aux prec emax false m e l).
Proof.
  unfold binary_round_aux.
  destruct (shr_fexp prec emax m e l) as [mrs' e'].
  destruct (shr_fexp prec emax _ e' loc_Exact) as [mrs'' e''].
  destruct (shr_m mrs''); [reflexivity | | reflexivity].
  destruct (e'' <=? emax - prec); reflexivity.
Qed.

Lemma SFopp_valid y : valid_binary (SFopp y) = valid_binary y.
Proof. destruct y; reflexivity. Qed.

Lemma SFopp_finite y : sf_finite (SFopp y) <-> sf_finite y.
Proof. destruct y; cbn; tauto. Qed.

Lemma SFopp_units y : sf_units (SFopp y) = - sf_units y.
Proof. destruct y as [| | | s m e]; cbn; try reflexivity. destruct s; cbn; lia. Qed.

Lemma rounds_to_opp V R : rounds_to V R -> rounds_to (- V) (SFopp R).
Proof.
  assert (Hgen : (forall y, valid_binary y = true -> sf_finite y ->
                    (sf_units y <= V -> sf_units y <= sf_units R) /\
                    (V <= sf_units y -> sf_units R <= sf_units y)) ->
                 forall y, valid_binary y = true -> sf_finite y ->
                   (sf_units y <= - V -> sf_units y <= sf_units (SFopp R)) /\
                   (- V <= sf_units y -> sf_units (SFopp R) <= sf_units y)).
  { intros H y Hv Hf. rewrite SFopp_units.
    destruct (H (SFopp y)) as [H1 H2];
      [rewrite SFopp_valid; assumption | apply SFopp_finite; assumption |].
    rewrite SFopp_units in H1, H2. split; intros; lia. }
  destruct R as [s | s | | s m e]; cbn [rounds_to SFopp]; intros H;
    try contradiction; try exact (Hgen H).
  destruct s; cbn [negb] in *; lia.
Qed.

(** Alignment. *)

Lemma iter_xO_spec d : forall m,
  Z.pos (Pos.iter xO m d) = Z.pos m * 2 ^ Z.pos d /\
  Z.pos (digits2_pos (Pos.iter xO m d)) = Z.pos (digits2_pos m) + Z.pos d.
Proof.
  induction d as [| d IH] using Pos.peano_ind; intros m.
  - cbn [Pos.iter digits2_pos]. rewrite Pos2Z.inj_succ, Pos2Z.inj_xO.
    change (2 ^ 1) with 2. split; lia.
  - rewrite Pos.iter_succ. cbn [digits2_pos].
    destruct (IH m) as [H1 H2].
    rewrite Pos2Z.inj_xO, !Pos2Z.inj_succ, H1, H2, Z.pow_succ_r by lia.
    split; ring.
Qed.

Lemma shl_align_fst m e e' :
  e' <= e -> Z.pos (fst (shl_align m e e')) = Z.pos m * 2 ^ (e - e').
Proof.
  intros Hle. unfold shl_align.
  destruct (e' - e) as [| d | d] eqn:Ed; try lia; cbn [fst].
  - replace (e - e') with 0 by lia. lia.
  - replace (e - e') with (Z.pos d) by lia. apply iter_xO_spec.
Qed.

Lemma binary_round_rounds sx mx ex :
  -1074 <= ex ->
  rounds_to (cond_Zopp sx (Z.pos mx * 2 ^ (ex + 1074)))
            (binary_round prec emax sx mx ex).
Proof.
  intros Hex.
  assert (Hpos : rounds_to (Z.pos mx * 2 ^ (ex + 1074))
                           (binary_round prec emax false mx ex)).
  { unfold binary_round, shl_align.
    set (F := fexp prec emax (Z.pos (digits2_pos mx) + ex)).
    assert (HF : -1074 <= F) by (unfold F; rewrite fexp_eq; lia).
    destruct (F - ex) as [| d | d] eqn:Ed.
    - apply binary_round_aux_rounds; [assumption | fold F; lia].
    - apply binary_round_aux_rounds; [assumption | fold F; lia].
    - destruct (iter_xO_spec d mx) as [H1 H2].
      replace (Z.pos mx * 2 ^ (ex + 1074))
        with (Z.pos (Pos.iter xO mx d) * 2 ^ (F + 1074)).
      + apply binary_round_aux_rounds; [assumption |].
        rewrite H2. replace (Z.pos (digits2_pos mx) + Z.pos d + F)
          with (Z.pos (digits2_pos mx) + ex) by lia.
        fold F. lia.
      + rewrite H1, <- Z.mul_assoc, <- Z.pow_add_r by lia. do 2 f_equal. lia. }
  destruct sx; [| exact Hpos].
  unfold binary_round in *.
  destruct (shl_align mx ex _) as [mz ez].
  rewrite binary_round_aux_opp. cbn [cond_Zopp]. apply rounds_to_opp, Hpos.
Qed.

Lemma binary_normalize_rounds m e :
  -1074 <= e ->
  rounds_to (m * 2 ^ (e + 1074)) (binary_normalize prec emax m e false).
Proof.
  intros He. destruct m as [| p | p]; cbn [binary_normalize].
  - intros y _ _. cbn [sf_units]. lia.
  - apply (binary_round_rounds false p e He).
  - replace (Z.neg p * 2 ^ (e + 1074)) with (cond_Zopp true (Z.pos p * 2 ^ (e + 1074)))
      by (cbn [cond_Zopp]; lia).
    apply (binary_round_rounds true p e He).
Qed.

Lemma aligned_units s m e ez :
  -1074 <= ez -> ez <= e ->
  cond_Zopp s (Z.pos (fst (shl_align m e ez))) * 2 ^ (ez + 1074)
  = sf_units (S754_finite s m e).
Proof.
  intros Hez Hle. rewrite shl_align_fst by assumption. cbn [sf_units].
  replace (e + 1074) with ((e - ez) + (ez + 1074)) by lia.
  rewrite (Z.pow_add_r 2 (e - ez) (ez + 1074)) by lia.
  destruct s; cbn [cond_Zopp]; ring.
Qed.

(** Binary64 addition and subtraction of finite numbers round the exact
    sum and difference. *)
Lemma SFadd_rounds x y :
  valid_binary x = true -> valid_binary y = true -> sf_finite x -> sf_finite y ->
  rounds_to (sf_units x + sf_units y) (SFadd prec emax x y).
Proof.
  intros Hvx Hvy Hfx Hfy.
  destruct x as [sx | sx | | sx mx ex]; try contradiction;
    destruct y as [sy | sy | | sy my ey]; try contradiction.
  - cbn [sf_units]. destruct sx, sy; apply (rounds_exact (S754_zero _) I).
  - apply (rounds_exact (S754_finite sy my ey) I).
  - cbn [sf_units SFadd]. rewrite Z.add_0_r. apply (rounds_exact (S754_finite sx mx ex) I).
  - apply valid_finite_inv in Hvx as (Hex & _). apply valid_finite_inv in Hvy as (Hey & _).
    cbn [SFadd].
    rewrite <- (aligned_units sx mx ex (Z.min ex ey)) by lia.
    rewrite <- (aligned_units sy my ey (Z.min ex ey)) by lia.
    rewrite <- Z.mul_add_distr_r. apply binary_normalize_rounds. lia.
Qed.

Lemma SFsub_rounds x y :
  valid_binary x = true -> valid_binary y = true -> sf_finite x -> sf_finite y ->
  rounds_to (sf_units x - sf_units y) (SFsub prec emax x y).
Proof.
  intros Hvx Hvy Hfx Hfy.
  destruct x as [sx | sx | | sx mx ex]; try contradiction;
    destruct y as [sy | sy | | sy my ey]; try contradiction.
  - cbn [sf_units]. destruct sx, sy; apply (rounds_exact (S754_zero _) I).
  - replace (sf_units (S754_zero sx) - sf_units (S754_finite sy my ey))
      with (sf_units (S754_finite (negb sy) my ey))
      by (cbn [sf_units]; destruct sy; cbn [cond_Zopp negb]; lia).
    apply (rounds_exact (S754_finite (negb sy) my ey) I).
  - cbn [sf_units SFsub]. rewrite Z.sub_0_r. apply (rounds_exact (S754_finite sx mx ex) I).
  - apply valid_finite_inv in Hvx as (Hex & _). apply valid_finite_inv in Hvy as (Hey & _).
    cbn [SFsub].
    rewrite <- (aligned_units sx mx ex (Z.min ex ey)) by lia.
    rewrite <- (aligned_units sy my ey (Z.min ex ey)) by lia.
    rewrite <- Z.mul_sub_distr_r. apply binary_normalize_rounds. lia.
Qed.

Lemma units_bounded y :
  valid_binary y = true -> sf_finite y -> - max_units <= sf_units y <= max_units.
Proof.
  intros Hv Hf. unfold max_units.
  pose proof (pow2_pos 2045 ltac:(lia)) as HB.
  assert (0 < 2 ^ 53 - 1) by (change (2 ^ 53 - 1) with 9007199254740991; lia).
  destruct y as [s | s | | s m e]; try contradiction; cbn [sf_units]; [nia |].
  apply valid_finite_inv in Hv as (He & Hm & _).
  pose proof (pow2_pos (e + 1074) ltac:(lia)) as Hu.
  pose proof (Z.pow_le_mono_r 2 (e + 1074) 2045 ltac:(lia) ltac:(lia)) as Hp.
  set (u := 2 ^ (e + 1074)) in *. set (B := 2 ^ 2045) in *. set (D := 2 ^ 53) in *.
  assert (Z.pos m * u <= (D - 1) * B) by nia.
  destruct s; cbn [cond_Zopp]; lia.
Qed.

(** The exact difference of two finite numbers lies below a bound that is
    strictly below [p] only if the exact sum of the subtrahend and [p]
    reaches the minuend; rounding keeps both facts. *)
Lemma sub_leb_add_leb_finite x y d p :
  valid_binary x = true -> valid_binary y = true ->
  valid_binary d = true -> valid_binary p = true ->
  valid_binary (SFsub prec emax x y) = true ->
  valid_binary (SFadd prec emax y p) = true ->
  sf_finite x -> sf_finite y -> sf_finite p ->
  SFleb (SFsub prec emax x y) d = true ->
  SFltb d p = true ->
  SFleb x (SFadd prec emax y p) = true.
Proof.
  intros Hvx Hvy Hvd Hvp Hv1 Hv2 Hfx Hfy Hfp Hle Hlt.
  pose proof (SFsub_rounds x y Hvx Hvy Hfx Hfy) as H1.
  pose proof (SFadd_rounds y p Hvy Hvp Hfy Hfp) as H2.
  pose proof (units_bounded x Hvx Hfx) as Bx.
  pose proof (units_bounded p Hvp Hfp) as Bp.
  set (R1 := SFsub prec emax x y) in *. set (R2 := SFadd prec emax y p) in *.
  assert (HA : sf_units x - sf_units y < sf_units p).
  { destruct (Z.lt_ge_cases (sf_units x - sf_units y) (sf_units p)) as [| Hge];
      [assumption | exfalso].
    assert (Hd : sf_finite R1 -> sf_finite d -> False).
    { intros Hf1 Hfd.
      apply (SFleb_units R1 d Hv1 Hvd Hf1 Hfd) in Hle.
      apply (SFltb_units d p Hvd Hvp Hfd Hfp) in Hlt.
      assert (Hr : sf_units p <= sf_units R1).
      { destruct R1; try contradiction; apply (H1 p Hvp Hfp); lia. }
      lia. }
    destruct R1 as [s1 | s1 | | s1 m1 e1]; cbn [rounds_to] in H1.
    - destruct d as [sd | sd | | sd md ed]; try (apply Hd; exact I).
      + destruct sd; [discriminate Hle |]. destruct p; try contradiction; discriminate Hlt.
      + discriminate Hle.
    - destruct s1; [lia |].
      destruct d as [sd | [] | | sd md ed]; try discriminate Hle.
      destruct p; try contradiction; discriminate Hlt.
    - contradiction.
    - destruct d as [sd | sd | | sd md ed]; try (apply Hd; exact I).
      + destruct sd; [destruct s1; discriminate Hle |].
        destruct p; try contradiction; discriminate Hlt.
      + destruct s1; discriminate Hle. }
  destruct R2 as [s2 | s2 | | s2 m2 e2] eqn:E2; cbn [rounds_to] in H2.
  - apply (SFleb_units x (S754_zero s2) Hvx Hv2 Hfx I). apply (H2 x Hvx Hfx). lia.
  - destruct s2; [lia |]. destruct x as [sx | sx | | sx mx ex]; try contradiction;
      reflexivity.
  - contradiction.
  - apply (SFleb_units x (S754_finite s2 m2 e2) Hvx Hv2 Hfx I). apply (H2 x Hvx Hfx). lia.
Qed.

Lemma SFadd_finite_not_nan y p :
  valid_binary y = true -> valid_binary p = true -> sf_finite y -> sf_finite p ->
  SFadd prec emax y p <> S754_nan.
Proof.
  intros Hvy Hvp Hfy Hfp E.
  pose proof (SFadd_rounds y p Hvy Hvp Hfy Hfp) as H. rewrite E in H. exact H.
Qed.

Lemma sub_leb_add_leb x y d p :
  valid_binary x = true -> valid_binary y = true ->
  valid_binary d = true -> valid_binary p = true ->
  valid_binary (SFsub prec emax x y) = true ->
  valid_binary (SFadd prec emax y p) = true ->
  SFleb (SFsub prec emax x y) d = true ->
  SFltb d p = true ->
  SFleb x (SFadd prec emax y p) = true.
Proof.
  intros Hvx Hvy Hvd Hvp Hv1 Hv2 Hle Hlt.
  assert (Hp : sf_finite p \/ p = S754_infinity false).
  { destruct p as [sp | [] | | sp mp ep]; cbn; auto;
      destruct d as [sd | [] | | sd md ed]; discriminate Hlt. }
  assert (Hx : sf_finite x \/ x = S754_infinity true).
  { destruct x as [sx | [] | | sx mx ex]; cbn; auto; exfalso.
    - (* x = +inf *)
      assert (E : SFsub prec emax (S754_infinity false) y = S754_infinity false
                  \/ SFsub prec emax (S754_infinity false) y = S754_nan)
        by (destruct y as [sy | [] | | sy my ey]; cbn; auto).
      destruct E as [E | E]; rewrite E in Hle.
      + destruct d as [sd | [] | | sd md ed]; try discriminate Hle.
        destruct p as [sp | [] | | sp mp ep]; discriminate Hlt.
      + discriminate Hle.
    - destruct y; discriminate Hle. }
  assert (Hy : sf_finite y \/ y = S754_infinity false).
  { destruct y as [sy | [] | | sy my ey]; cbn; auto; exfalso.
    - (* y = -inf *)
      assert (E : SFsub prec emax x (S754_infinity true) = S754_infinity false
                  \/ SFsub prec emax x (S754_infinity true) = S754_nan)
        by (destruct x as [sx | [] | | sx mx ex]; cbn; auto).
      destruct E as [E | E]; rewrite E in Hle.
      + destruct d as [sd | [] | | sd md ed]; try discriminate Hle.
        destruct p as [sp | [] | | sp mp ep]; discriminate Hlt.
      + discriminate Hle.
    - destruct x; discriminate Hle. }
  assert (Hinf : SFleb x (S754_infinity false) = true).
  { destruct Hx as [Hfx | ->]; [| reflexivity].
    destruct x; try contradiction; reflexivity. }
  destruct Hy as [Hfy | ->].
  - destruct Hp as [Hfp | ->].
    + destruct Hx as [Hfx | ->].
      * apply (sub_leb_add_leb_finite x y d p); assumption.
      * pose proof (SFadd_finite_not_nan y p Hvy Hvp Hfy Hfp) as Hnan.
        destruct (SFadd prec emax y p) as [s | [] | | s m e]; try reflexivity.
        congruence.
    + replace (SFadd prec emax y (S754_infinity false)) with (S754_infinity false)
        by (destruct y; try contradiction; reflexivity).
      exact Hinf.
  - replace (SFadd prec emax (S754_infinity false) p) with (S754_infinity false)
      by (destruct Hp as [Hfp | ->]; [destruct p; try contradiction |]; reflexivity).
    exact Hinf.
Qed.

(** The candidate test implies the passage test at the end of the window,
    whenever the drop threshold is strictly below the passage threshold. *)
Lemma drop_implies_passage (a b d p : float) :
  (a - b <=? d)%float = true -> (d <? p)%float = true ->
  (a <=? b + p)%float = true.
Proof.
  rewrite !leb_spec, ltb_spec, sub_spec, add_spec. unfold SF64sub, SF64add.
  apply sub_leb_add_leb; try apply Prim2SF_valid.
  - pose proof (Prim2SF_valid (a - b)) as H. rewrite sub_spec in H. exact H.
  - pose proof (Prim2SF_valid (b + p)) as H. rewrite add_spec in H. exact H.
Qed.

(* ------------------------------------------------------------------------ *)
(** ** Where the passage index falls *)

(** The refinement succeeds as soon as some sample of the window is at or
    below [ttdata[t] + d_tt_p]. *)
Lemma passage_index_total ttdata ntt p t tt0 j x :
  0 <= ntt -> 0 <= t -> t + ntt < zlen ttdata ->
  nth_error ttdata (Z.to_nat t) = Some tt0 ->
  t <= j <= t + ntt ->
  nth_error ttdata (Z.to_nat j) = Some x -> (x <=? tt0 + p)%float = true ->
  exists icp, passage_index ttdata ntt p t = Ok icp.
Proof.
  intros Hntt Ht Hlen Htt0 Hj Hx Hle. unfold passage_index; cbn [start].
  assert (Hget : py_getitem ttdata t = Ok tt0) by (apply py_getitem_Ok; [lia | assumption]).
  rewrite Hget. cbn [rbind]. unfold np_where.
  set (mask := map (fun y => (y <=? tt0 + p)%float)
                 (py_slice ttdata (mkslice t (t + ntt + 1)))).
  assert (Hin : In (j - t) (where_from 0 mask)).
  { apply where_from_In. split; [lia |]. rewrite Z.sub_0_r. unfold mask.
    rewrite nth_error_map, py_slice_nth by lia.
    replace (t + (j - t)) with j by lia. rewrite Hx. cbn. rewrite Hle. reflexivity. }
  destruct (where_from 0 mask) as [| k rest]; [destruct Hin |].
  eexists. reflexivity.
Qed.

(** C10 (amended).  When the drop threshold is strictly below the passage
    threshold, as binary64 numbers, the refinement never fails on a raw
    candidate [t]: the last sample of the window [t .. t + ntt] is at or
    below [ttdata[t] + d_tt_p], so the set of matching positions is not
    empty, and the refined index lies in [t - 1 .. t + ntt - 1].  It is at
    [t] or later exactly when [ttdata[t]] itself is not at or below
    [ttdata[t] + d_tt_p], that is unless the sum rounds to [ttdata[t]]. *)
Theorem passage_index_in_window ttdata ntt d p t :
  0 < ntt ->
  In t (drop_candidates ttdata ntt d) ->
  (d <? p)%float = true ->
  exists icp tt0 ttn,
    nth_error ttdata (Z.to_nat t) = Some tt0 /\
    nth_error ttdata (Z.to_nat (t + ntt)) = Some ttn /\
    (ttn <=? tt0 + p)%float = true /\
    passage_index ttdata ntt p t = Ok icp /\
    t - 1 <= icp <= t + ntt - 1 /\
    (t <= icp <-> (tt0 <=? tt0 + p)%float = false).
Proof.
  intros Hntt Hcand Hdp.
  apply drop_candidates_spec in Hcand as (Ht & Hlen & a & b & Ha & Hb & Hdrop);
    [| assumption].
  pose proof (drop_implies_passage a b d p Hdrop Hdp) as Hlast.
  destruct (passage_index_total ttdata ntt p t b (t + ntt) a) as [icp Hicp];
    try assumption; try lia.
  exists icp, b, a. repeat (split; [assumption |]).
  apply passage_index_spec in Hicp; [| lia ..].
  destruct Hicp as (tt0 & j & Htt0 & Hj & (x & Hx & Hle) & Hfirst & ->).
  rewrite Hb in Htt0. inversion Htt0; subst tt0.
  split; [lia |]. split.
  - intros Hicp. destruct (Hfirst t ltac:(lia)) as (y & Hy & Hny).
    rewrite Hb in Hy. inversion Hy; subst y. exact Hny.
  - intros Hnot. destruct (Z.eq_dec j t) as [-> | Hne]; [| lia].
    rewrite Hb in Hx. inversion Hx; subst x. congruence.
Qed.

Lemma passage_index_in_window_witness :
  exists icp tt0 ttn,
    nth_error tt_gap (Z.to_nat 1) = Some tt0 /\
    nth_error tt_gap (Z.to_nat (1 + 1)) = Some ttn /\
    (ttn <=? tt0 + (-0.5))%float = true /\
    passage_index tt_gap 1 (-0.5)%float 1 = Ok icp /\
    1 - 1 <= icp <= 1 + 1 - 1 /\
    (1 <= icp <-> (tt0 <=? tt0 + (-0.5))%float = false).
Proof.
  apply (passage_index_in_window tt_gap 1 (-2)%float (-0.5)%float 1).
  - lia.
  - vm_compute. left. reflexivity.
  - reflexivity.
Defined.

(** C10 as stated fails, in two ways.  With the default thresholds
    (-2 <= -0.5 < 0), the window starting at 2^60 is a raw candidate with
    finite endpoints; in binary64, 2^60 - 0.5 rounds to 2^60, so the starting
    sample itself is at or below the passage level and the refined index is
    [t - 1 = -1].  With both thresholds at -2 (-2 <= -2 < 0), [2^-60 - 2]
    rounds to -2, so 0 is a raw candidate of [2, 2^-60] with finite
    endpoints, but neither 2 nor 2^-60 is at or below [2 + -2 = 0]: no
    position matches and the refinement raises [IndexError]. *)
Lemma passage_index_before_candidate :
  ((d_tt default_config <=? d_tt_p default_config)%float = true /\
   (d_tt_p default_config <? 0)%float = true /\
   In 0 (drop_candidates [0x1p60; 0]%float 1 (d_tt default_config)) /\
   np_isfinite 0x1p60%float = true /\ np_isfinite 0%float = true /\
   passage_index [0x1p60; 0]%float 1 (d_tt_p default_config) 0 = Ok (-1) /\
   ~ (exists icp,
        passage_index [0x1p60; 0]%float 1 (d_tt_p default_config) 0 = Ok icp /\
        0 <= icp <= 0 + 1 - 1)) /\
  ((-2 <=? -2)%float = true /\ (-2 <? 0)%float = true /\
   In 0 (drop_candidates [2; 0x1p-60]%float 1 (-2)%float) /\
   np_isfinite 2%float = true /\ np_isfinite 0x1p-60%float = true /\
   passage_index [2; 0x1p-60]%float 1 (-2)%float 0 = Raise IndexError).
Proof.
  split.
  - repeat split; try (vm_compute; auto; fail).
    intros (icp & H & Hb). vm_compute in H. inversion H. lia.
  - repeat split; vm_compute; auto.
Qed.

(* ------------------------------------------------------------------------ *)
(** ** Windowed series *)

Lemma lookup_set_assoc_same {V} k (v : V) l : lookup k (set_assoc k v l) = Some v.
Proof.
  unfold lookup. induction l as [| [k' v'] l IH]; cbn.
  - rewrite Z.eqb_refl. reflexivity.
  - destruct (Z.eqb_spec k' k) as [-> | Hne]; cbn.
    + rewrite Z.eqb_refl. reflexivity.
    + destruct (Z.eqb_spec k' k); [congruence | exact IH].
Qed.

Lemma lookup_set_assoc_other {V} k k' (v : V) l :
  k <> k' -> lookup k (set_assoc k' v l) = lookup k l.
Proof.
  intros Hne. unfold lookup. induction l as [| [k'' v''] l IH]; cbn.
  - destruct (Z.eqb_spec k' k); [congruence | reflexivity].
  - destruct (Z.eqb_spec k'' k') as [-> | Hne']; cbn.
    + destruct (Z.eqb_spec k' k); [congruence | reflexivity].
    + destruct (Z.eqb_spec k'' k); [reflexivity | exact IH].
Qed.

Lemma assign_columns_other pairs : forall cols k,
  ~ In k (map fst pairs) -> lookup k (assign_columns pairs cols) = lookup k cols.
Proof.
  induction pairs as [| [k' c] pairs IH]; intros cols k Hnin; [reflexivity |].
  cbn in *. unfold assign_columns in IH. rewrite IH by tauto.
  apply lookup_set_assoc_other. intros ->. tauto.
Qed.

Lemma assign_columns_lookup pairs : forall cols k c,
  NoDup (map fst pairs) -> In (k, c) pairs ->
  lookup k (assign_columns pairs cols) = Some c.
Proof.
  induction pairs as [| [k' c'] pairs IH]; intros cols k c Hnd Hin; [destruct Hin |].
  cbn in Hnd. inversion Hnd as [| ? ? Hnotin Hnd']; subst.
  destruct Hin as [Heq | Hin].
  - inversion Heq; subst. cbn.
    change (lookup k (assign_columns pairs (set_assoc k c cols)) = Some c).
    rewrite assign_columns_other by assumption. apply lookup_set_assoc_same.
  - cbn. apply (IH (set_assoc k' c' cols)); assumption.
Qed.

Lemma map_fst_combine_same_length {A B} (l : list A) : forall (l' : list B),
  List.length l = List.length l' -> map fst (combine l l') = l.
Proof.
  induction l as [| a l IH]; intros [| b l'] H; cbn in *; try discriminate; [reflexivity |].
  f_equal. apply IH. lia.
Qed.

Lemma arange_from_length lo n : List.length (arange_from lo n) = n.
Proof. revert lo. induction n; intros lo; cbn; [| rewrite IHn]; reflexivity. Qed.

Lemma arange_from_In lo n k : In k (arange_from lo n) <-> lo <= k < lo + Z.of_nat n.
Proof.
  revert lo. induction n as [| n IH]; intros lo; cbn [arange_from In].
  - lia.
  - rewrite IH. lia.
Qed.

(** Row labels [lo, lo+1, ...] pair the label [k] with position [k - lo]. *)
Lemma lookup_combine_arange {V} n : forall lo (col : list V) k,
  lo <= k < lo + Z.of_nat n ->
  lookup k (combine (arange_from lo n) col) = nth_error col (Z.to_nat (k - lo)).
Proof.
  induction n as [| n IH]; intros lo col k Hk; [lia |].
  cbn [arange_from]. destruct col as [| v col].
  - cbn. destruct (Z.to_nat (k - lo)); reflexivity.
  - unfold lookup. cbn. destruct (Z.eqb_spec lo k) as [-> | Hne].
    + replace (Z.to_nat (k - k)) with O by lia. reflexivity.
    + replace (Z.to_nat (k - lo)) with (S (Z.to_nat (k - (lo + 1)))) by lia.
      cbn. apply IH. lia.
Qed.

Lemma lookup_combine_const {V} (v : V) l k :
  In k l -> lookup k (combine l (map (fun _ => v) l)) = Some v.
Proof.
  unfold lookup. induction l as [| a l IH]; cbn; [intros [] |].
  destruct (Z.eqb_spec a k); [reflexivity |].
  intros [Heq | Hin]; [congruence | auto].
Qed.

Lemma take_stamps_length l : forall idx out,
  take_stamps l idx = Ok out -> List.length out = List.length idx.
Proof.
  induction idx as [| i idx IH]; intros out; cbn.
  - intros H. inversion H. reflexivity.
  - destruct (py_getitem l i); [| discriminate]. cbn.
    destruct (take_stamps l idx) as [xs |]; [| discriminate]. cbn.
    intros H. inversion H. cbn. f_equal. apply IH. reflexivity.
Qed.

Lemma take_stamps_In l : forall idx out x,
  take_stamps l idx = Ok out -> In x out ->
  exists i, In i idx /\ py_getitem l i = Ok x.
Proof.
  induction idx as [| i idx IH]; intros out x; cbn.
  - intros H. inversion H. intros [].
  - destruct (py_getitem l i) as [y |] eqn:Hy; [| discriminate]. cbn.
    destruct (take_stamps l idx) as [xs |]; [| discriminate]. cbn.
    intros H. inversion H; subst. intros [<- | Hin].
    + exists i. auto.
    + destruct (IH xs x eq_refl Hin) as (i' & Hi' & Hget). exists i'. auto.
Qed.

(** Distinct in-range indices into distinct timestamps give distinct
    timestamps. *)
Lemma take_stamps_NoDup l : forall idx out,
  NoDup l -> NoDup idx -> Forall (fun i => 0 <= i) idx ->
  take_stamps l idx = Ok out -> NoDup out.
Proof.
  intros idx out Hl. revert out.
  induction idx as [| i idx IH]; intros out Hidx Hpos; cbn.
  - intros H. inversion H. constructor.
  - destruct (py_getitem l i) as [y |] eqn:Hy; [| discriminate]. cbn.
    destruct (take_stamps l idx) as [xs |] eqn:Hxs; [| discriminate]. cbn.
    intros H. inversion H; subst.
    inversion Hidx as [| ? ? Hnotin Hidx']; subst.
    inversion Hpos as [| ? ? Hi Hpos']; subst.
    constructor; [| apply IH; auto].
    intros Hin. destruct (take_stamps_In l idx xs y Hxs Hin) as (i' & Hi' & Hget).
    rewrite Forall_forall in Hpos'. specialize (Hpos' i' Hi').
    apply py_getitem_Ok in Hy; [| assumption].
    apply py_getitem_Ok in Hget; [| assumption].
    assert (Hlt : (Z.to_nat i < List.length l)%nat)
      by (apply nth_error_Some; congruence).
    rewrite NoDup_nth_error in Hl.
    assert (Heq : Z.to_nat i = Z.to_nat i') by (apply Hl; [assumption | congruence]).
    apply Hnotin. replace i with i' by lia. assumption.
Qed.

Lemma StronglySorted_lt_NoDup l : StronglySorted Z.lt l -> NoDup l.
Proof.
  induction 1 as [| a l Hs IH Ha]; constructor; [| assumption].
  intros Hin. rewrite Forall_forall in Ha. specialize (Ha a Hin). lia.
Qed.

Section Windowing.

Variable self : instance.
Variable indata : list float.
Variables npre npost : Z.
Variable avail_cp : float.
Variable warn_cp : bool.
Hypothesis self_has_npre : self_npre self = Some npre.
Hypothesis self_has_npost : self_npost self = Some npost.
Hypothesis self_has_avail : self_data_avail_cp self = Some avail_cp.
Hypothesis self_has_warn : self_warn_avail_cp self = Some warn_cp.
Hypothesis window_nonneg : 0 <= npre + npost + 1.

(** The loop of [var_time] assigns, in order, one column per event, keyed by
    the event's timestamp; it raises nothing when the events are in bounds. *)
Lemma var_time_loop_columns : forall idx keys cp outdata,
  0 <= cp ->
  df_index outdata = np_arange (- npre) (npost + 1) ->
  Forall (fun icp => 0 <= icp - npre /\ icp + npost + 1 <= zlen indata) idx ->
  List.length keys = List.length idx ->
  (forall n, (n < List.length idx)%nat ->
     nth_error (self_cp_datetime self) (Z.to_nat cp + n) = nth_error keys n) ->
  exists out,
    var_time_loop self indata cp idx outdata
    = (out, Ok (mkframe (df_index outdata)
                  (assign_columns
                     (combine keys (map (event_column indata avail_cp npre npost) idx))
                     (df_columns outdata)))).
Proof.
  induction idx as [| icp idx IH]; intros keys cp outdata Hcp Hidx Hbnd Hlen Hkeys.
  - destruct keys; [| discriminate]. exists []. destruct outdata. reflexivity.
  - destruct keys as [| key keys]; [discriminate |].
    inversion Hbnd as [| ? ? [Hlo Hhi] Hbnd']; subst.
    cbn [var_time_loop].
    rewrite (index_cp_set self npre npost) by assumption.
    cbn [index_cp_slices String.eqb Ascii.eqb Bool.eqb].
    rewrite !bind_ret_l, bind_getattr_Some.
    rewrite self_has_avail, bind_getattr_Some, self_has_warn, bind_getattr_Some.
    destruct (check_data_avail_value
                (py_slice indata (mkslice (icp - npre) (icp + npost + 1)))
                avail_cp warn_cp "event") as [o1 Hav].
    rewrite Hav. cbn [bind].
    assert (Hkey : py_getitem (self_cp_datetime self) cp = Ok key).
    { apply py_getitem_Ok; [assumption |].
      specialize (Hkeys O ltac:(cbn; lia)). rewrite Nat.add_0_r in Hkeys. exact Hkeys. }
    rewrite Hkey, bind_lift_Ok.
    assert (Hset : set_column outdata key
                     (if (avail_cp <=? data_avail
                            (py_slice indata (mkslice (icp - npre) (icp + npost + 1))))%float
                      then Some (py_slice indata (mkslice (icp - npre) (icp + npost + 1)))
                      else None)
                   = Ok (mkframe (df_index outdata)
                           (set_assoc key (event_column indata avail_cp npre npost icp)
                              (df_columns outdata)))).
    { unfold event_column, set_column.
      destruct (avail_cp <=? data_avail _)%float.
      - rewrite py_slice_length by lia. rewrite Hidx. unfold np_arange, zlen.
        rewrite arange_from_length.
        replace (icp + npost + 1 - (icp - npre)) with (npost + 1 - - npre) by lia.
        rewrite Z2Nat.id by lia. rewrite Z.eqb_refl. reflexivity.
      - rewrite Hidx. reflexivity. }
    rewrite Hset, bind_lift_Ok.
    destruct (IH keys (cp + 1)
                (mkframe (df_index outdata)
                   (set_assoc key (event_column indata avail_cp npre npost icp)
                      (df_columns outdata)))) as [o2 Hrest];
      try assumption; try lia.
    { cbn in Hlen. lia. }
    { intros n Hn. specialize (Hkeys (S n) ltac:(cbn; lia)). cbn [nth_error] in Hkeys.
      rewrite <- Hkeys. f_equal. lia. }
    rewrite Hrest. eexists. reflexivity.
Qed.

End Windowing.

(** The frame [var_time] returns once detection has run and found events. *)
Lemma var_time_frame dtdata ttdata rrdata cfg e d tt rr ntt npre npost series icp :
  detection_ran dtdata ttdata rrdata cfg e d tt rr ntt npre npost ->
  zlen series = self_ntime e ->
  In icp (self_cp_index e) ->
  exists out,
    var_time e (NdArray series)
    = (out, Ok (mkframe (np_arange (- npre) (npost + 1))
                  (assign_columns
                     (combine (self_cp_datetime e)
                        (map (event_column series (data_avail_cp cfg) npre npost)
                           (self_cp_index e)))
                     []))).
Proof.
  intros Hran Hlen Hin.
  destruct (event_counts_positive _ _ _ _ _ _ _ _ _ _ _ _ Hran Hin) as (_ & Hnpre & Hnpost).
  pose proof (events_accepted _ _ _ _ _ _ _ _ _ _ _ Hran) as Hacc.
  pose proof (take_stamps_length _ _ _ (ran_stamps _ _ _ _ _ _ _ _ _ _ _ Hran)) as Hlens.
  pose proof (ran_ntime _ _ _ _ _ _ _ _ _ _ _ Hran) as Hntime.
  assert (Hbnd : Forall (fun i => 0 <= i - npre /\ i + npost + 1 <= zlen series)
                   (self_cp_index e)).
  { eapply Forall_impl; [| exact Hacc]. cbn.
    intros i (prev & t & _ & _ & _ & Hlo & Hhi & _). rewrite Hlen, Hntime. lia. }
  destruct (var_time_loop_columns e series npre npost (data_avail_cp cfg)
              (warn_avail_cp cfg)
              (ran_npre _ _ _ _ _ _ _ _ _ _ _ Hran)
              (ran_npost _ _ _ _ _ _ _ _ _ _ _ Hran)
              (ran_avail_cp _ _ _ _ _ _ _ _ _ _ _ Hran)
              (ran_warn_cp _ _ _ _ _ _ _ _ _ _ _ Hran)
              ltac:(lia)
              (self_cp_index e) (self_cp_datetime e) 0
              (mkframe (np_arange (- npre) (npost + 1)) []))
    as [o2 Hloop]; try assumption; try reflexivity; try lia.
  destruct (check_data_avail_value series (data_avail_all cfg) (warn_avail_all cfg)
              "provided") as [o1 Hav].
  exists (o1 ++ o2).
  unfold var_time.
  rewrite check_data_len_pass by (cbn [data_len]; rewrite Hlen; reflexivity).
  rewrite bind_ret_l. cbn [negb].
  rewrite (ran_avail_all _ _ _ _ _ _ _ _ _ _ _ Hran), bind_getattr_Some.
  rewrite (ran_warn_all _ _ _ _ _ _ _ _ _ _ _ Hran), bind_getattr_Some.
  cbn [as_array]. rewrite bind_ret_l, Hav. cbn [bind].
  rewrite (ran_npre _ _ _ _ _ _ _ _ _ _ _ Hran), bind_getattr_Some.
  rewrite (ran_npost _ _ _ _ _ _ _ _ _ _ _ Hran), bind_getattr_Some.
  cbn [df_index df_columns] in Hloop. rewrite Hloop. reflexivity.
Qed.

(** C6.  For a series as long as the grid and the [n]-th accepted event, at
    index [icp] and timestamp [key] (the timestamps of the grid being
    distinct): [var_time] returns a frame whose rows are the offsets
    [-npre .. npost] and whose column [key] holds, at every offset [k], the
    sample [series[icp + k]] when the availability gate passes on the "all"
    slice, and NaN at every offset when it fails. *)
Theorem var_time_event_column dtdata ttdata rrdata cfg e series n icp key :
  constructed dtdata ttdata rrdata cfg e ->
  distinct_stamps dtdata ->
  zlen series = self_ntime e ->
  nth_error (indices e) n = Some icp ->
  nth_error (datetimes e) n = Some key ->
  exists npre npost out df,
    self_npre e = Some npre /\ self_npost e = Some npost /\
    var_time e (NdArray series) = (out, Ok df) /\
    df_index df = np_arange (- npre) (npost + 1) /\
    forall k, - npre <= k <= npost ->
      cell df key k =
      if (data_avail_cp cfg <=? data_avail
            (py_slice series (mkslice (icp - npre) (icp + npost + 1))))%float
      then nth_error series (Z.to_nat (icp + k))
      else Some PrimFloat.nan.
Proof.
  unfold indices, datetimes. intros [out0 Hc] Hdistinct Hlen Hicp Hkey.
  apply cp_detection_inv in Hc as [(Hnil & _) | (d & tt & rr & ntt & npre & npost & Hran)].
  { rewrite Hnil in Hicp. destruct n; discriminate. }
  assert (Hin : In icp (self_cp_index e)) by (eapply nth_error_In; eassumption).
  destruct (event_counts_positive _ _ _ _ _ _ _ _ _ _ _ _ Hran Hin) as (_ & Hnpre & Hnpost).
  pose proof (events_accepted _ _ _ _ _ _ _ _ _ _ _ Hran) as Hacc.
  assert (Hnd : NoDup (self_cp_datetime e)).
  { rewrite (ran_dt _ _ _ _ _ _ _ _ _ _ _ Hran) in Hdistinct. cbn in Hdistinct.
    apply (take_stamps_NoDup (stamps d) (self_cp_index e)); [assumption | | |].
    - apply StronglySorted_lt_NoDup.
      eapply StronglySorted_weaken;
        [| exact (events_spaced _ _ _ _ _ _ _ _ _ _ _ Hran)].
      cbn. intros; lia.
    - eapply Forall_impl; [| exact Hacc]. cbn.
      intros i (prev & t & _ & _ & _ & Hlo & _). lia.
    - exact (ran_stamps _ _ _ _ _ _ _ _ _ _ _ Hran). }
  pose proof (take_stamps_length _ _ _ (ran_stamps _ _ _ _ _ _ _ _ _ _ _ Hran)) as Hlens.
  pose proof (ran_ntime _ _ _ _ _ _ _ _ _ _ _ Hran) as Hntime.
  destruct (var_time_frame _ _ _ _ _ _ _ _ _ _ _ series icp Hran Hlen Hin) as [out Hframe].
  exists npre, npost, out,
    (mkframe (np_arange (- npre) (npost + 1))
       (assign_columns
          (combine (self_cp_datetime e)
             (map (event_column series (data_avail_cp cfg) npre npost) (self_cp_index e)))
          [])).
  split; [apply (ran_npre _ _ _ _ _ _ _ _ _ _ _ Hran) |].
  split; [apply (ran_npost _ _ _ _ _ _ _ _ _ _ _ Hran) |].
  split; [exact Hframe | split; [reflexivity |]].
  intros k Hk. unfold cell. cbn [df_columns df_index].
  rewrite (assign_columns_lookup _ [] key
             (event_column series (data_avail_cp cfg) npre npost icp)).
  - unfold event_column, np_arange.
    destruct (data_avail_cp cfg <=? data_avail _)%float.
    + rewrite lookup_combine_arange by lia.
      rewrite Forall_forall in Hacc.
      destruct (Hacc icp Hin) as (prev & t & _ & _ & _ & Hlo & Hhi & _).
      rewrite py_slice_nth by lia. f_equal. lia.
    + apply lookup_combine_const. apply arange_from_In. lia.
  - rewrite map_fst_combine_same_length; [assumption |].
    rewrite length_map. assumption.
  - apply (nth_error_In _ n). rewrite nth_error_combine, Hkey.
    rewrite nth_error_map, Hicp. reflexivity.
Qed.

Lemma var_time_event_column_witness :
  constructed (DtIndex (grid 1200 8)) (NdArray tt_two) (NdArray rr_two)
    default_config self_two /\
  exists npre npost out df,
    self_npre self_two = Some npre /\ self_npost self_two = Some npost /\
    var_time self_two (NdArray rr_two) = (out, Ok df) /\
    df_index df = np_arange (- npre) (npost + 1) /\
    forall k, - npre <= k <= npost ->
      cell df 4800 k =
      if (data_avail_cp default_config <=? data_avail
            (py_slice rr_two (mkslice (4 - npre) (4 + npost + 1))))%float
      then nth_error rr_two (Z.to_nat (4 + k))
      else Some PrimFloat.nan.
Proof.
  assert (Hc : constructed (DtIndex (grid 1200 8)) (NdArray tt_two) (NdArray rr_two)
                 default_config self_two)
    by (exists []; vm_compute; reflexivity).
  split; [exact Hc |].
  apply (var_time_event_column _ _ _ _ self_two rr_two 1%nat 4 4800 Hc).
  - cbn. repeat constructor; cbn; intuition discriminate.
  - reflexivity.
  - reflexivity.
  - reflexivity.
Defined.

Example var_time_two :
  var_time self_two (NdArray rr_two)
  = ([], Ok (mkframe [-1; 0; 1; 2; 3]
               [(1200, [0; 0; 1; 0; 0]%float); (4800, [0; 0; 1; 0; 0]%float)])).
Proof. vm_compute. reflexivity. Qed.

(** With a gap in the second window and the default unit threshold, the
    second column is NaN throughout and both warnings are printed. *)
Example var_time_gap :
  var_time self_two (NdArray [1; 2; 3; 4; 5; PrimFloat.nan; 7; 8]%float)
  = ([AvailWarning "provided" 0x1.ccccccccccccdp-1 0.875;
      AvailWarning "event" 1 0x1.999999999999ap-1]%float,
     Ok (mkframe [-1; 0; 1; 2; 3]
           [(1200, [1; 2; 3; 4; 5]%float);
            (4800, [PrimFloat.nan; PrimFloat.nan; PrimFloat.nan; PrimFloat.nan;
                    PrimFloat.nan])])).
Proof. vm_compute. reflexivity. Qed.

(* ------------------------------------------------------------------------ *)
(** ** What failed validation does guarantee *)

Lemma check_data_len_no_grid indata varstr :
  data_len indata <> None ->
  _check_data_len (new_instance (-1)) indata varstr = ret false.
Proof.
  intros Hlen. destruct (data_len indata) as [n |] eqn:Hn; [| congruence].
  assert (Hshape : match shape0 indata with
                   | Raise AttributeError => ret 0
                   | r => lift r
                   end = ret n)
    by (destruct indata; inversion Hn; reflexivity).
  assert (Hpos : 0 <= n).
  { destruct indata as [v | x |]; inversion Hn; [apply zlen_nonneg | lia]. }
  unfold _check_data_len. rewrite Hshape, bind_ret_l. cbn [new_instance self_ntime].
  destruct (Z.eqb_spec n (-1)); [lia | reflexivity].
Qed.

Lemma check_grid_regular d f :
  inferred_freq d = Some f -> 3 <= zlen (stamps d) ->
  exists tres, check_grid (DtIndex d) = ([], Ok (true, Some tres)).
Proof.
  intros Hf Hlen. unfold check_grid. rewrite Hf.
  destruct (nth_error_in_range (stamps d) 1 ltac:(lia)) as [d1 Hd1].
  destruct (nth_error_in_range (stamps d) 0 ltac:(lia)) as [d0 Hd0].
  apply py_getitem_Ok in Hd1; [| lia]. apply py_getitem_Ok in Hd0; [| lia].
  rewrite Hd1, bind_lift_Ok, Hd0, bind_lift_Ok. eexists. reflexivity.
Qed.

(** A zero-dimensional data argument makes the constructor raise, whatever
    the grid: [shape[0]] fails in the first length check that meets it. *)
Lemma scalar_data_raises dtdata ttdata rrdata cfg :
  freq_needs_three dtdata ->
  data_len ttdata = None \/ data_len rrdata = None ->
  exists out, cp_detection dtdata ttdata rrdata cfg = (out, Raise IndexError).
Proof.
  intros Hfreq Hsc. unfold cp_detection.
  assert (Hg : exists o g, check_grid dtdata = (o, Ok g)).
  { destruct dtdata as [d |]; [| eexists; eexists; reflexivity].
    cbn in Hfreq. destruct (inferred_freq d) as [f |] eqn:Hf.
    - destruct (check_grid_regular d f Hf (Hfreq ltac:(discriminate))) as [tres Hg].
      eauto.
    - unfold check_grid. rewrite Hf. eexists. eexists. reflexivity. }
  destruct Hg as (o & g & ->). cbn [bind].
  destruct (data_len ttdata) as [n |] eqn:Hn.
  - destruct Hsc as [Hsc | Hsc]; [discriminate |].
    apply data_len_None in Hsc as [x ->].
    match goal with
    | |- context [_check_data_len ?self ttdata "TT"] =>
        destruct (check_data_len_value self ttdata "TT" n Hn) as [o1 ->]
    end.
    cbn [bind]. rewrite check_data_len_scalar. eexists. reflexivity.
  - apply data_len_None in Hn as [x ->]. rewrite check_data_len_scalar.
    eexists. reflexivity.
Qed.

(** X1.  When validation fails structurally and both data arguments are
    arrays with a first dimension or objects without a shape, the
    construction completes: it raises nothing, and the instance has an empty
    event index set, no event timestamps and a count of zero.  When a data
    argument is a zero-dimensional array, the construction raises
    [IndexError] instead. *)
Theorem failed_validation_no_events dtdata ttdata rrdata cfg :
  structurally_invalid dtdata ttdata rrdata ->
  freq_needs_three dtdata ->
  (data_len ttdata <> None -> data_len rrdata <> None ->
   exists out e,
     cp_detection dtdata ttdata rrdata cfg = (out, Ok e) /\
     indices e = [] /\ datetimes e = [] /\ number e = 0) /\
  (data_len ttdata = None \/ data_len rrdata = None ->
   exists out, cp_detection dtdata ttdata rrdata cfg = (out, Raise IndexError)).
Proof.
  intros Hbad Hfreq. split; [| apply scalar_data_raises; assumption].
  intros Htt Hrr. unfold cp_detection.
  destruct (data_len ttdata) as [nt |] eqn:Hnt; [| congruence].
  destruct (data_len rrdata) as [nr |] eqn:Hnr; [| congruence].
  destruct dtdata as [d |].
  - cbn in Hbad, Hfreq.
    destruct (check_data_len_value (new_instance (zlen (stamps d))) ttdata "TT" nt Hnt)
      as [o1 H1].
    destruct (check_data_len_value (new_instance (zlen (stamps d))) rrdata "RR" nr Hnr)
      as [o2 H2].
    cbn [new_instance self_ntime] in H1, H2.
    destruct (inferred_freq d) as [f |] eqn:Hf.
    + destruct (check_grid_regular d f Hf (Hfreq ltac:(discriminate))) as [tres Hg].
      rewrite Hg. cbn [bind fst snd app]. rewrite H1. cbn [bind]. rewrite H2.
      cbn [bind andb].
      assert (Hall : (nt =? zlen (stamps d)) && (nr =? zlen (stamps d)) = false).
      { destruct Hbad as [Hbad | [Hbad | Hbad]]; [discriminate | |].
        - destruct (Z.eqb_spec nt (zlen (stamps d))); [congruence | reflexivity].
        - destruct (Z.eqb_spec nr (zlen (stamps d))); [congruence | apply andb_false_r]. }
      rewrite Hall.
      eexists. eexists. cbn. split; [reflexivity |]. repeat split.
    + unfold check_grid. rewrite Hf. cbn [bind print ret fst snd app].
      rewrite H1. cbn [bind]. rewrite H2. cbn.
      eexists. eexists. split; [reflexivity |]. repeat split.
  - cbn [check_grid bind print ret fst snd app].
    rewrite !check_data_len_no_grid by congruence. cbn.
    eexists. eexists. split; [reflexivity |]. repeat split.
Qed.

Lemma failed_validation_no_events_witness :
  (exists out e,
     cp_detection (DtIndex (grid 600 3)) (NdArray [300; 290]%float)
       (NdArray [0; 1; 0]%float) default_config = (out, Ok e) /\
     indices e = [] /\ datetimes e = [] /\ number e = 0) /\
  (exists out,
     cp_detection (DtIndex (grid 600 3)) (Scalar 300%float)
       (NdArray [0; 1; 0]%float) default_config = (out, Raise IndexError)).
Proof.
  split.
  - apply (failed_validation_no_events (DtIndex (grid 600 3))
             (NdArray [300; 290]%float) (NdArray [0; 1; 0]%float) default_config).
    + right. left. vm_compute. discriminate.
    + intros _. vm_compute. discriminate.
    + discriminate.
    + discriminate.
  - apply (failed_validation_no_events (DtIndex (grid 600 3))
             (Scalar 300%float) (NdArray [0; 1; 0]%float) default_config).
    + right. left. discriminate.
    + intros _. vm_compute. discriminate.
    + left. reflexivity.
Defined.

(** X2.  When [dtdata] is not a [DatetimeIndex] and the data arguments are
    not zero-dimensional, the construction completes after its one
    diagnostic; windowing then returns the empty frame, silently, for every
    array and every object without a shape, and raises [IndexError] for a
    zero-dimensional array. *)
Theorem no_grid_var_time_empty ttdata rrdata cfg :
  data_len ttdata <> None -> data_len rrdata <> None ->
  exists e,
    cp_detection OtherObject ttdata rrdata cfg = ([NotDatetimeIndex], Ok e) /\
    forall indata,
      (data_len indata <> None -> var_time e indata = ([], Ok empty_frame)) /\
      (data_len indata = None -> var_time e indata = ([], Raise IndexError)).
Proof.
  intros Htt Hrr.
  unfold cp_detection. cbn [check_grid bind print ret fst snd app].
  rewrite !check_data_len_no_grid by assumption. cbn.
  eexists. split; [reflexivity |].
  intros indata. unfold var_time.
  change (_check_data_len _ indata "Provided")
    with (_check_data_len (new_instance (-1)) indata "Provided").
  split; intros Hlen.
  - rewrite check_data_len_no_grid by assumption. reflexivity.
  - apply data_len_None in Hlen as [x ->]. reflexivity.
Qed.

Lemma no_grid_var_time_empty_witness :
  exists e,
    cp_detection OtherObject (NdArray tt_gap) Unshaped default_config
    = ([NotDatetimeIndex], Ok e) /\
    forall indata,
      (data_len indata <> None -> var_time e indata = ([], Ok empty_frame)) /\
      (data_len indata = None -> var_time e indata = ([], Raise IndexError)).
Proof.
  apply (no_grid_var_time_empty (NdArray tt_gap) Unshaped default_config);
    discriminate.
Defined.

(* ------------------------------------------------------------------------ *)
(** ** Where events come from *)

(** X3.  Every accepted event index is the refined passage index of a raw
    candidate of the drop search run with the code's own sample counts:
    [ntt], [npre] and [npost] are [int(d_time / tres)], [int(time_pre / tres)]
    and [int(time_post / tres)] for the step [tres] of the grid, all three are
    positive, and the candidate belongs to the search over the temperature
    array with that [ntt] and the drop threshold. *)
Theorem events_from_candidates dtdata ttdata rrdata cfg e icp :
  constructed dtdata ttdata rrdata cfg e ->
  In icp (indices e) ->
  exists d tt tres ntt npre npost t,
    dtdata = DtIndex d /\ ttdata = NdArray tt /\
    grid_tres d = Ok tres /\
    sample_count (d_time cfg) tres = Ok ntt /\
    sample_count (time_pre cfg) tres = Ok npre /\
    sample_count (time_post cfg) tres = Ok npost /\
    self_npre e = Some npre /\ self_npost e = Some npost /\
    0 < ntt /\ 0 < npre /\ 0 < npost /\
    In t (drop_candidates tt ntt (d_tt cfg)) /\
    passage_index tt ntt (d_tt_p cfg) t = Ok icp.
Proof.
  intros [out Hc] Hin. unfold indices in Hin.
  apply cp_detection_inv in Hc as [(Hnil & _) | (d & tt & rr & ntt & npre & npost & Hran)].
  { rewrite Hnil in Hin. destruct Hin. }
  pose proof (events_accepted _ _ _ _ _ _ _ _ _ _ _ Hran) as Hacc.
  rewrite Forall_forall in Hacc.
  destruct (Hacc icp Hin) as (prev & t & Ht & _ & Hicp & _).
  apply visited_In in Ht as (Hntt & Hnpre & Hnpost & Ht).
  destruct (ran_counts _ _ _ _ _ _ _ _ _ _ _ Hran) as (tres & Htres & H1 & H2 & H3).
  exists d, tt, tres, ntt, npre, npost, t. destruct Hran. repeat split; assumption.
Qed.

Lemma events_from_candidates_witness :
  constructed (DtIndex (grid 1200 8)) (NdArray tt_two) (NdArray rr_two)
    default_config self_two /\
  exists d tt tres ntt npre npost t,
    DtIndex (grid 1200 8) = DtIndex d /\ NdArray tt_two = NdArray tt /\
    grid_tres d = Ok tres /\
    sample_count (d_time default_config) tres = Ok ntt /\
    sample_count (time_pre default_config) tres = Ok npre /\
    sample_count (time_post default_config) tres = Ok npost /\
    self_npre self_two = Some npre /\ self_npost self_two = Some npost /\
    0 < ntt /\ 0 < npre /\ 0 < npost /\
    In t (drop_candidates tt ntt (d_tt default_config)) /\
    passage_index tt ntt (d_tt_p default_config) t = Ok 4.
Proof.
  assert (Hc : constructed (DtIndex (grid 1200 8)) (NdArray tt_two) (NdArray rr_two)
                 default_config self_two)
    by (exists []; vm_compute; reflexivity).
  split; [exact Hc |].
  apply (events_from_candidates _ _ _ _ self_two 4 Hc).
  cbn. auto.
Defined.

(* ------------------------------------------------------------------------ *)
(** ** Perturbations, event by event *)

Lemma py_in_true x l : py_in x l = true <-> In x l.
Proof.
  unfold py_in. rewrite existsb_exists. split.
  - intros (y & Hin & Heq). apply String.eqb_eq in Heq. subst. assumption.
  - intros Hin. exists x. split; [assumption | apply String.eqb_refl].
Qed.

Lemma set_assoc_keys {V} k k' (v : V) l :
  In k (map fst (set_assoc k' v l)) <-> k = k' \/ In k (map fst l).
Proof.
  induction l as [| [k'' v''] l IH]; cbn.
  - intuition.
  - destruct (Z.eqb_spec k'' k'); cbn; [subst | rewrite IH]; intuition.
Qed.

Lemma assign_columns_keys pairs : forall cols k,
  In k (map fst (assign_columns pairs cols)) <->
  In k (map fst pairs) \/ In k (map fst cols).
Proof.
  induction pairs as [| [k' c] pairs IH]; intros cols k.
  - cbn. intuition.
  - change (assign_columns ((k', c) :: pairs) cols)
      with (assign_columns pairs (set_assoc k' c cols)).
    rewrite IH, set_assoc_keys. cbn. intuition.
Qed.

Lemma lookup_of_In {V} k (l : list (Z * V)) :
  In k (map fst l) -> exists v, lookup k l = Some v.
Proof.
  unfold lookup. induction l as [| [k' v'] l IH]; cbn; [intros [] |].
  destruct (Z.eqb_spec k' k); [intros _; eexists; reflexivity |].
  intros [Heq | Hin]; [congruence | auto].
Qed.

Lemma py_getitem_last {A} (l : list A) :
  l <> [] -> exists x, py_getitem l (-1) = Ok x.
Proof.
  intros Hne. unfold py_getitem. cbn [Z.ltb Z.compare].
  assert (Hlen : 1 <= zlen l) by (destruct l; [congruence | unfold zlen; cbn; lia]).
  destruct (Z.ltb_spec (-1 + zlen l) 0); [lia |].
  destruct (nth_error l (Z.to_nat (-1 + zlen l))) eqn:E; [eauto |].
  apply nth_error_None in E. unfold zlen in *. lia.
Qed.

(** A recognized reduction of a frame with rows gives one value per column. *)
Lemma calc_val_recognized `{Pandas} d funcstr :
  In funcstr funcavail -> df_index d <> [] ->
  exists s, _calc_val d funcstr = ([], Ok (Series s))
            /\ map fst s = map fst (df_columns d).
Proof.
  intros Hf Hrows.
  assert (Hkeys : forall F : list float -> float,
            map fst (map (fun kc : Z * list float => (fst kc, F (snd kc))) (df_columns d))
            = map fst (df_columns d)).
  { intros F. rewrite map_map. reflexivity. }
  cbn in Hf.
  destruct Hf as [<- | [<- | [<- | [<- | [<- | [<- | [<- | []]]]]]]];
    try (eexists; split; [reflexivity | apply Hkeys]).
  - destruct (df_index d) as [| r rows] eqn:Hidx; [congruence |].
    unfold _calc_val. cbn [py_in funcavail existsb String.eqb Ascii.eqb Bool.eqb orb negb].
    unfold iloc_row. rewrite Hidx. cbn [py_getitem Z.ltb Z.compare Z.to_nat nth_error rbind lift].
    eexists. split; [reflexivity |]. rewrite map_map. reflexivity.
  - destruct (py_getitem_last (df_index d) Hrows) as [r Hr].
    unfold _calc_val. cbn [py_in funcavail existsb String.eqb Ascii.eqb Bool.eqb orb negb].
    unfold iloc_row. rewrite Hr. cbn [rbind lift].
    eexists. split; [reflexivity |]. rewrite map_map. reflexivity.
Qed.

Lemma select_rows_keys keep d :
  map fst (df_columns (select_rows keep d)) = map fst (df_columns d).
Proof. unfold select_rows. cbn [df_columns]. rewrite map_map. reflexivity. Qed.

Lemma select_rows_nonempty keep d r :
  In r (df_index d) -> keep r = true -> df_index (select_rows keep d) <> [].
Proof.
  intros Hin Hkeep. unfold select_rows. cbn [df_index].
  assert (H : In r (filter keep (df_index d))) by (apply filter_In; auto).
  destruct (filter keep (df_index d)); [destruct H | discriminate].
Qed.

Lemma pre_val_recognized `{Pandas} self d funcstr npre npost :
  self_npre self = Some npre -> self_npost self = Some npost ->
  df_empty d = false -> In funcstr funcavail -> In 0 (df_index d) ->
  exists s, _pre_val self d funcstr = ([], Ok (Series s))
            /\ map fst s = map fst (df_columns d).
Proof.
  intros Hnpre Hnpost Hempty Hf Hrow. unfold _pre_val. rewrite Hempty.
  rewrite (index_cp_set self npre npost) by assumption.
  cbn [index_cp_slices String.eqb Ascii.eqb Bool.eqb].
  rewrite bind_ret_l, bind_getattr_Some. cbn [stop].
  destruct (calc_val_recognized (select_rows (fun l => l <=? 0 + 1 - 1) d) funcstr Hf)
    as (s & Hs & Hkeys).
  { apply (select_rows_nonempty _ d 0); [assumption | reflexivity]. }
  exists s. split; [exact Hs |]. rewrite Hkeys. apply select_rows_keys.
Qed.

Lemma post_val_recognized `{Pandas} self d funcstr npre npost :
  self_npre self = Some npre -> self_npost self = Some npost ->
  df_empty d = false -> In funcstr funcavail -> In 1 (df_index d) ->
  exists s, _post_val self d funcstr = ([], Ok (Series s))
            /\ map fst s = map fst (df_columns d).
Proof.
  intros Hnpre Hnpost Hempty Hf Hrow. unfold _post_val. rewrite Hempty.
  rewrite (index_cp_set self npre npost) by assumption.
  cbn [index_cp_slices String.eqb Ascii.eqb Bool.eqb].
  rewrite bind_ret_l, bind_getattr_Some. cbn [start].
  destruct (calc_val_recognized (select_rows (fun l => 0 + 1 <=? l) d) funcstr Hf)
    as (s & Hs & Hkeys).
  { apply (select_rows_nonempty _ d 1); [assumption | reflexivity]. }
  exists s. split; [exact Hs |]. rewrite Hkeys. apply select_rows_keys.
Qed.

(** C7.  For every series as long as the grid and every pair of recognized
    function names, [var_pert] is the post-period [var_val] minus the
    pre-period [var_val], each obtained from the same series by its own run
    of the query; both are per-event series and, for every accepted event
    (by its timestamp [key]), the perturbation holds the post value minus the
    pre value. *)
Theorem var_pert_post_minus_pre `{Pandas} dtdata ttdata rrdata cfg e series
    prefunc postfunc key :
  constructed dtdata ttdata rrdata cfg e ->
  zlen series = self_ntime e ->
  In prefunc funcavail -> In postfunc funcavail ->
  In key (datetimes e) ->
  var_pert e (NdArray series) prefunc postfunc
  = (pre_val <- var_val e (NdArray series) "pre" prefunc ;;
     post_val <- var_val e (NdArray series) "post" postfunc ;;
     lift (py_sub post_val pre_val))
  /\
  exists o1 o2 pre post pert a b,
    var_val e (NdArray series) "pre" prefunc = (o1, Ok (Series pre)) /\
    var_val e (NdArray series) "post" postfunc = (o2, Ok (Series post)) /\
    var_pert e (NdArray series) prefunc postfunc = (o1 ++ o2, Ok (Series pert)) /\
    lookup key pre = Some a /\ lookup key post = Some b /\
    lookup key pert = Some (b - a)%float.
Proof.
  unfold datetimes. intros [out0 Hc] Hlen Hf Hg Hkey.
  split; [apply var_pert_bind |].
  apply cp_detection_inv in Hc as [(_ & Hnil & _) | (d & tt & rr & ntt & npre & npost & Hran)].
  { rewrite Hnil in Hkey. destruct Hkey. }
  pose proof (take_stamps_length _ _ _ (ran_stamps _ _ _ _ _ _ _ _ _ _ _ Hran)) as Hlens.
  destruct (self_cp_index e) as [| icp idx] eqn:Hidx.
  { destruct (self_cp_datetime e); [destruct Hkey | discriminate]. }
  assert (Hin : In icp (self_cp_index e)) by (rewrite Hidx; left; reflexivity).
  destruct (event_counts_positive _ _ _ _ _ _ _ _ _ _ _ _ Hran Hin) as (_ & Hnpre & Hnpost).
  destruct (var_time_frame _ _ _ _ _ _ _ _ _ _ _ series icp Hran Hlen Hin) as [out Hframe].
  rewrite Hidx in Hframe.
  set (df := mkframe (np_arange (- npre) (npost + 1))
               (assign_columns
                  (combine (self_cp_datetime e)
                     (map (event_column series (data_avail_cp cfg) npre npost)
                        (icp :: idx)))
                  [])) in *.
  assert (Hcol : In key (map fst (df_columns df))).
  { unfold df. cbn [df_columns]. apply assign_columns_keys. left.
    rewrite map_fst_combine_same_length; [assumption |].
    rewrite length_map. assumption. }
  assert (Hrows : forall r, - npre <= r <= npost -> In r (df_index df)).
  { intros r Hr. unfold df, np_arange. cbn [df_index]. apply arange_from_In. lia. }
  assert (Hempty : df_empty df = false).
  { unfold df_empty. apply orb_false_iff. split; apply Z.eqb_neq.
    - pose proof (Hrows 0 ltac:(lia)) as H0.
      destruct (df_index df); [destruct H0 | unfold zlen; cbn; lia].
    - destruct (df_columns df); [destruct Hcol | unfold zlen; cbn; lia]. }
  destruct (pre_val_recognized e df prefunc npre npost
              (ran_npre _ _ _ _ _ _ _ _ _ _ _ Hran) (ran_npost _ _ _ _ _ _ _ _ _ _ _ Hran)
              Hempty Hf (Hrows 0 ltac:(lia))) as (pre & Hpre & Hprekeys).
  destruct (post_val_recognized e df postfunc npre npost
              (ran_npre _ _ _ _ _ _ _ _ _ _ _ Hran) (ran_npost _ _ _ _ _ _ _ _ _ _ _ Hran)
              Hempty Hg (Hrows 1 ltac:(lia))) as (post & Hpost & Hpostkeys).
  assert (Hvpre : var_val e (NdArray series) "pre" prefunc = (out, Ok (Series pre))).
  { change (var_val e (NdArray series) "pre" prefunc)
      with (ev <- var_time e (NdArray series) ;; _pre_val e ev prefunc).
    rewrite Hframe. cbn [bind]. rewrite Hpre, app_nil_r. reflexivity. }
  assert (Hvpost : var_val e (NdArray series) "post" postfunc = (out, Ok (Series post))).
  { change (var_val e (NdArray series) "post" postfunc)
      with (ev <- var_time e (NdArray series) ;; _post_val e ev postfunc).
    rewrite Hframe. cbn [bind]. rewrite Hpost, app_nil_r. reflexivity. }
  destruct (lookup_of_In key pre) as [a Ha]; [rewrite Hprekeys; exact Hcol |].
  destruct (lookup_of_In key post) as [b Hb]; [rewrite Hpostkeys; exact Hcol |].
  exists out, out, pre, post, (series_sub post pre), a, b.
  repeat split; try assumption.
  - rewrite var_pert_bind, Hvpre. cbn [bind]. rewrite Hvpost. cbn.
    rewrite app_nil_r. reflexivity.
  - apply series_sub_at; assumption.
Qed.

Lemma var_pert_post_minus_pre_witness :
  constructed (DtIndex (grid 1200 8)) (NdArray tt_two) (NdArray rr_two)
    default_config self_two /\
  var_pert (pandas := sample_pandas) self_two (NdArray rr_two) "mean" "max"
  = (pre_val <- var_val (pandas := sample_pandas) self_two (NdArray rr_two) "pre" "mean" ;;
     post_val <- var_val (pandas := sample_pandas) self_two (NdArray rr_two) "post" "max" ;;
     lift (py_sub post_val pre_val))
  /\
  exists o1 o2 pre post pert a b,
    var_val (pandas := sample_pandas)
      self_two (NdArray rr_two) "pre" "mean"
    = (o1, Ok (Series pre)) /\
    var_val (pandas := sample_pandas)
      self_two (NdArray rr_two) "post" "max"
    = (o2, Ok (Series post)) /\
    var_pert (pandas := sample_pandas)
      self_two (NdArray rr_two) "mean" "max"
    = (o1 ++ o2, Ok (Series pert)) /\
    lookup 4800 pre = Some a /\ lookup 4800 post = Some b /\
    lookup 4800 pert = Some (b - a)%float.
Proof.
  assert (Hc : constructed (DtIndex (grid 1200 8)) (NdArray tt_two) (NdArray rr_two)
                 default_config self_two)
    by (exists []; vm_compute; reflexivity).
  split; [exact Hc |].
  apply (var_pert_post_minus_pre _ _ _ _ self_two rr_two "mean" "max" 4800 Hc).
  - reflexivity.
  - cbn. auto.
  - cbn. auto.
  - cbn. auto.
Defined.

(* ======================================================================== *)
(** * Further properties *)

(* ------------------------------------------------------------------------ *)
(** ** The constructed instance *)

(** A completed construction stored its inputs, and either skipped detection
    (no event, none of the detection attributes set) or ran it. *)
Lemma cp_detection_cases dtdata ttdata rrdata cfg out e :
  cp_detection dtdata ttdata rrdata cfg = (out, Ok e) ->
  (self_dtdata e = dtdata /\ self_ttdata e = ttdata /\ self_rrdata e = rrdata /\
   self_ncp e = zlen (self_cp_index e) /\ self_ntime e = grid_len dtdata) /\
  ((self_cp_index e = [] /\ self_cp_datetime e = [] /\ unconfigured e) \/
   exists d tt rr ntt npre npost,
     detection_ran dtdata ttdata rrdata cfg e d tt rr ntt npre npost).
Proof.
  unfold cp_detection. intros H.
  apply bind_Ok in H as (? & [check_dt tres] & ? & Hg & H & _).
  apply bind_Ok in H as (? & clt & ? & Hclt & H & _).
  apply bind_Ok in H as (? & clr & ? & Hclr & H & _).
  apply bind_Ok in H as (? & [self' cp_index] & ? & Hr & H & _).
  apply bind_Ok in H as (? & cp_datetime & ? & Hcpd & H & _).
  apply ret_inv in H as [<- _]. cbn [fst snd] in *.
  assert (Hdt : check_dt = match dtdata with DtIndex _ => true | OtherObject => false end).
  { unfold check_grid in Hg. destruct dtdata as [d |].
    - destruct (inferred_freq d).
      + apply bind_Ok in Hg as (? & ? & ? & _ & Hg & _).
        apply bind_Ok in Hg as (? & ? & ? & _ & Hg & _).
        apply ret_inv in Hg as [Hg _]. inversion Hg. reflexivity.
      + cbn in Hg. inversion Hg. reflexivity.
    - cbn in Hg. inversion Hg. reflexivity. }
  assert (Hskip : (self', cp_index)
                  = (new_instance
                       match dtdata with
                       | DtIndex d => if check_dt then zlen (stamps d) else -1
                       | OtherObject => -1
                       end, []) ->
                  (self_dtdata (set_results self' dtdata ttdata rrdata cp_index cp_datetime)
                   = dtdata /\
                   self_ttdata (set_results self' dtdata ttdata rrdata cp_index cp_datetime)
                   = ttdata /\
                   self_rrdata (set_results self' dtdata ttdata rrdata cp_index cp_datetime)
                   = rrdata /\
                   self_ncp (set_results self' dtdata ttdata rrdata cp_index cp_datetime)
                   = zlen (self_cp_index
                             (set_results self' dtdata ttdata rrdata cp_index cp_datetime)) /\
                   self_ntime (set_results self' dtdata ttdata rrdata cp_index cp_datetime)
                   = grid_len dtdata) /\
                  ((self_cp_index
                      (set_results self' dtdata ttdata rrdata cp_index cp_datetime) = [] /\
                    self_cp_datetime
                      (set_results self' dtdata ttdata rrdata cp_index cp_datetime) = [] /\
                    unconfigured
                      (set_results self' dtdata ttdata rrdata cp_index cp_datetime)) \/
                   exists d tt rr ntt npre npost,
                     detection_ran dtdata ttdata rrdata cfg
                       (set_results self' dtdata ttdata rrdata cp_index cp_datetime)
                       d tt rr ntt npre npost)).
  { intros Heq. inversion Heq; subst self' cp_index. split.
    - cbn. repeat split. rewrite Hdt. destruct dtdata; reflexivity.
    - left. split; [reflexivity |]. split; [| unfold unconfigured; cbn; tauto].
      destruct dtdata as [d |]; [destruct check_dt |];
        cbn in Hcpd; inversion Hcpd; reflexivity. }
  destruct tres as [tres |];
    [| apply Hskip; apply ret_inv in Hr as [Hr _]; symmetry; exact Hr].
  destruct (check_dt && true && clt && clr) eqn:Hall;
    [| apply Hskip; apply ret_inv in Hr as [Hr _]; symmetry; exact Hr].
  clear Hskip Hdt.
  apply check_grid_Ok in Hg as (d & -> & -> & Htres).
  apply andb_true_iff in Hall as [Hall ->]. apply andb_true_iff in Hall as [_ ->].
  apply check_data_len_Ok in Hclt as (nt & Hnt & Hclt).
  apply check_data_len_Ok in Hclr as (nr & Hnr & Hclr).
  apply detect_Ok in Hr
    as (tt & rr & ntt & npre & npost & out' & -> & -> & Hntt & Hnpre & Hnpost
        & -> & Hloop).
  cbn [new_instance self_ntime data_len] in Hclt, Hclr, Hnt, Hnr.
  inversion Hnt; subst nt. inversion Hnr; subst nr.
  symmetry in Hclt, Hclr. apply Z.eqb_eq in Hclt, Hclr.
  cbn in Hcpd. apply lift_Ok_inv in Hcpd as [Hcpd _].
  split; [cbn; repeat split |].
  right. exists d, tt, rr, ntt, npre, npost.
  constructor; cbn; try reflexivity; try assumption.
  - exists tres. auto.
  - exists out'. exact Hloop.
Qed.

Lemma take_stamps_nth l : forall idx out n i,
  take_stamps l idx = Ok out -> nth_error idx n = Some i ->
  exists x, nth_error out n = Some x /\ py_getitem l i = Ok x.
Proof.
  induction idx as [| j idx IH]; intros out n i; cbn.
  - intros _ H. destruct n; discriminate.
  - destruct (py_getitem l j) as [y |] eqn:Hy; [| discriminate]. cbn.
    destruct (take_stamps l idx) as [xs |]; [| discriminate]. cbn.
    intros H. inversion H; subst. destruct n as [| n]; cbn.
    + intros Hn. inversion Hn; subst. eauto.
    + intros Hn. apply (IH xs n i eq_refl Hn).
Qed.

(** X4.  A completed construction stores its three inputs and the grid
    length; the reported count is the number of event indices; there is one
    event timestamp per event index, and it is the grid's timestamp at that
    index, which lies inside the grid. *)
Theorem instance_records_events dtdata ttdata rrdata cfg e :
  constructed dtdata ttdata rrdata cfg e ->
  self_dtdata e = dtdata /\ self_ttdata e = ttdata /\ self_rrdata e = rrdata /\
  self_ntime e = grid_len dtdata /\
  number e = zlen (indices e) /\
  List.length (datetimes e) = List.length (indices e) /\
  forall n icp,
    nth_error (indices e) n = Some icp ->
    exists d, dtdata = DtIndex d /\ 0 <= icp < zlen (stamps d) /\
              nth_error (datetimes e) n = nth_error (stamps d) (Z.to_nat icp).
Proof.
  unfold number, indices, datetimes. intros [out Hc].
  apply cp_detection_cases in Hc
    as ((Hdt & Htt & Hrr & Hncp & Hnt) &
        [(Hnil & Hnil' & _) | (d & tt & rr & ntt & npre & npost & Hran)]).
  - repeat split; try assumption.
    + rewrite Hnil, Hnil'. reflexivity.
    + intros n icp Hn. rewrite Hnil in Hn. destruct n; discriminate.
  - repeat split; try assumption.
    + apply (take_stamps_length (stamps d)). exact (ran_stamps _ _ _ _ _ _ _ _ _ _ _ Hran).
    + intros n icp Hn. exists d.
      split; [exact (ran_dt _ _ _ _ _ _ _ _ _ _ _ Hran) |].
      assert (Hin : In icp (self_cp_index e)) by (eapply nth_error_In; eassumption).
      destruct (event_counts_positive _ _ _ _ _ _ _ _ _ _ _ _ Hran Hin)
        as (_ & Hnpre & Hnpost).
      pose proof (events_accepted _ _ _ _ _ _ _ _ _ _ _ Hran) as Hacc.
      rewrite Forall_forall in Hacc.
      destruct (Hacc icp Hin) as (prev & t & _ & _ & _ & Hlo & Hhi & _).
      split; [lia |].
      destruct (take_stamps_nth _ _ _ n icp (ran_stamps _ _ _ _ _ _ _ _ _ _ _ Hran) Hn)
        as (x & Hx & Hget).
      apply py_getitem_Ok in Hget; [| lia]. congruence.
Qed.

Lemma instance_records_events_witness :
  constructed (DtIndex (grid 1200 8)) (NdArray tt_two) (NdArray rr_two)
    default_config self_two /\
  self_dtdata self_two = DtIndex (grid 1200 8) /\
  self_ttdata self_two = NdArray tt_two /\ self_rrdata self_two = NdArray rr_two /\
  self_ntime self_two = grid_len (DtIndex (grid 1200 8)) /\
  number self_two = zlen (indices self_two) /\
  List.length (datetimes self_two) = List.length (indices self_two) /\
  forall n icp,
    nth_error (indices self_two) n = Some icp ->
    exists d, DtIndex (grid 1200 8) = DtIndex d /\ 0 <= icp < zlen (stamps d) /\
              nth_error (datetimes self_two) n = nth_error (stamps d) (Z.to_nat icp).
Proof.
  assert (Hc : constructed (DtIndex (grid 1200 8)) (NdArray tt_two) (NdArray rr_two)
                 default_config self_two)
    by (exists []; vm_compute; reflexivity).
  split; [exact Hc |].
  exact (instance_records_events _ _ _ _ self_two Hc).
Defined.

(* ------------------------------------------------------------------------ *)
(** ** What every accepted event has passed *)

(** X5.  For every accepted event, the availability check on the "all"
    period of the temperature array and of the rainfall array passes at the
    per-event threshold (and so prints nothing, whatever the warning flag). *)
Theorem events_pass_availability dtdata ttdata rrdata cfg e icp :
  constructed dtdata ttdata rrdata cfg e ->
  In icp (indices e) ->
  exists tt rr npre npost,
    ttdata = NdArray tt /\ rrdata = NdArray rr /\
    self_npre e = Some npre /\ self_npost e = Some npost /\
    forall warn warnstr,
      _check_data_avail (py_slice tt (all_slice npre npost icp))
        (data_avail_cp cfg) warn warnstr = ([], Ok true) /\
      _check_data_avail (py_slice rr (all_slice npre npost icp))
        (data_avail_cp cfg) warn warnstr = ([], Ok true).
Proof.
  unfold indices. intros [out Hc] Hin.
  apply cp_detection_inv in Hc as [(Hnil & _) | (d & tt & rr & ntt & npre & npost & Hran)].
  { rewrite Hnil in Hin. destruct Hin. }
  pose proof (events_accepted _ _ _ _ _ _ _ _ _ _ _ Hran) as Hacc.
  rewrite Forall_forall in Hacc.
  destruct (Hacc icp Hin) as (prev & t & _ & _ & _ & _ & _ & Havtt & Havrr & _).
  exists tt, rr, npre, npost. destruct Hran. repeat split; try assumption.
  - unfold _check_data_avail, all_slice. rewrite Havtt. reflexivity.
  - unfold _check_data_avail, all_slice. rewrite Havrr. reflexivity.
Qed.

Lemma events_pass_availability_witness :
  constructed (DtIndex (grid 1200 5)) (NdArray tt_gap) (NdArray rr_gap)
    cfg_half self_gap /\
  exists tt rr npre npost,
    NdArray tt_gap = NdArray tt /\ NdArray rr_gap = NdArray rr /\
    self_npre self_gap = Some npre /\ self_npost self_gap = Some npost /\
    forall warn warnstr,
      _check_data_avail (py_slice tt (all_slice npre npost 1))
        (data_avail_cp cfg_half) warn warnstr = ([], Ok true) /\
      _check_data_avail (py_slice rr (all_slice npre npost 1))
        (data_avail_cp cfg_half) warn warnstr = ([], Ok true).
Proof.
  assert (Hc : constructed (DtIndex (grid 1200 5)) (NdArray tt_gap) (NdArray rr_gap)
                 cfg_half self_gap)
    by (exists []; vm_compute; reflexivity).
  split; [exact Hc |].
  apply (events_pass_availability _ _ _ _ self_gap 1 Hc).
  cbn. auto.
Defined.

(* ------------------------------------------------------------------------ *)
(** ** A record without rainfall *)

Lemma Forall_py_slice {A} (P : A -> Prop) l s :
  Forall P l -> Forall P (py_slice l s).
Proof. intros Hl. unfold py_slice. apply Forall_firstn, Forall_skipn, Hl. Qed.

Lemma eqb_zero_sf_zero x : (x =? 0)%float = true <-> sf_zero (Prim2SF x).
Proof.
  rewrite eqb_spec. replace (Prim2SF 0%float) with (S754_zero false) by reflexivity.
  destruct (Prim2SF x) as [[] | [] | | [] m e]; cbn; split; intros H;
    try discriminate; try contradiction; try exact I; try reflexivity.
Qed.

(** Zeros add up to a zero, in whatever order they are added. *)
Lemma np_sum_zero l :
  Forall (fun x => (x =? 0)%float = true) l -> sf_zero (Prim2SF (np_sum l)).
Proof.
  intros Hl.
  apply (np_sum_closed (fun x => sf_zero (Prim2SF x))).
  - intros x y Hx Hy. rewrite add_spec.
    destruct (Prim2SF x) as [sx | | |]; try contradiction.
    destruct (Prim2SF y) as [sy | | |]; try contradiction.
    destruct sx, sy; exact I.
  - exact I.
  - exact I.
  - eapply Forall_impl; [| exact Hl]. intros x. apply eqb_zero_sf_zero.
Qed.

(** X6.  When every rainfall sample compares equal to zero, no event is
    accepted, whatever the temperatures and the configuration. *)
Theorem dry_record_no_events dtdata ttdata rr cfg e :
  constructed dtdata ttdata (NdArray rr) cfg e ->
  Forall (fun x => (x =? 0)%float = true) rr ->
  indices e = [] /\ number e = 0.
Proof.
  unfold indices, number. intros [out Hc] Hdry.
  assert (Hnone : self_cp_index e = []).
  { pose proof Hc as Hinv.
    apply cp_detection_inv in Hinv
      as [(Hnil & _) | (d & tt & rr' & ntt & npre & npost & Hran)]; [assumption |].
    destruct (self_cp_index e) as [| icp idx] eqn:Hidx; [reflexivity | exfalso].
    pose proof (events_accepted _ _ _ _ _ _ _ _ _ _ _ Hran) as Hacc.
    rewrite Hidx in Hacc. inversion Hacc as [| ? ? Hicp _]; subst.
    destruct Hicp as (prev & t & _ & _ & _ & _ & _ & _ & _ & Hsum).
    pose proof (ran_rr _ _ _ _ _ _ _ _ _ _ _ Hran) as Hrr. inversion Hrr; subst rr'.
    assert (Hz : sf_zero (Prim2SF (np_sum
                   (py_slice rr (mkslice (icp + 1) (icp + npost + 1)))))).
    { apply np_sum_zero, Forall_py_slice, Hdry. }
    apply eqb_zero_sf_zero in Hz. congruence. }
  split; [exact Hnone |].
  apply cp_detection_cases in Hc as ((_ & _ & _ & Hncp & _) & _).
  rewrite Hncp, Hnone. reflexivity.
Qed.

Lemma dry_record_no_events_witness :
  exists e,
    constructed (DtIndex (grid 1200 5)) (NdArray tt_gap)
      (NdArray [0; 0; (-0)%float; 0; 0]%float) cfg_half e /\
    indices e = [] /\ number e = 0.
Proof.
  assert (Hc : exists e, constructed (DtIndex (grid 1200 5)) (NdArray tt_gap)
                 (NdArray [0; 0; (-0)%float; 0; 0]%float) cfg_half e).
  { eexists. exists []. vm_compute. reflexivity. }
  destruct Hc as [e Hc]. exists e. split; [exact Hc |].
  apply (dry_record_no_events _ _ _ _ e Hc).
  repeat constructor.
Defined.

(* ------------------------------------------------------------------------ *)
(** ** A grid stepping by whole days *)

(** X7.  On a grid with an inferred frequency whose first step is a whole
    number of days, and arrays of the grid's length, the construction raises
    [ZeroDivisionError] for every configuration: the step's [seconds]
    component is 0, so [tres] is 0. *)
Theorem whole_day_step_raises d f s0 s1 rest tt rr cfg :
  inferred_freq d = Some f ->
  stamps d = s0 :: s1 :: rest ->
  (s1 - s0) mod 86400 = 0 ->
  zlen tt = zlen (stamps d) ->
  zlen rr = zlen (stamps d) ->
  exists out,
    cp_detection (DtIndex d) (NdArray tt) (NdArray rr) cfg
    = (out, Raise ZeroDivisionError).
Proof.
  intros Hf Hst Hday Htt Hrr. unfold cp_detection, check_grid.
  assert (H1' : py_getitem (stamps d) 1 = Ok s1) by (rewrite Hst; reflexivity).
  assert (H0' : py_getitem (stamps d) 0 = Ok s0) by (rewrite Hst; reflexivity).
  rewrite Hf, H1', bind_lift_Ok, H0', bind_lift_Ok, bind_ret_l. cbn [fst snd].
  rewrite Hday.
  rewrite !check_data_len_pass
    by (cbn [data_len new_instance self_ntime]; congruence).
  rewrite !bind_ret_l. cbn [andb].
  unfold detect. cbn [set_avail self_data_avail_all self_warn_avail_all as_array].
  rewrite !bind_getattr_Some, !bind_ret_l.
  destruct (check_data_avail_value tt (data_avail_all cfg) (warn_avail_all cfg) "TT")
    as [o1 H1].
  destruct (check_data_avail_value rr (data_avail_all cfg) (warn_avail_all cfg) "RR")
    as [o2 H2].
  rewrite H1. cbn [bind]. rewrite H2. cbn [bind].
  assert (Hdiv : sample_count (d_time cfg) (float_of_Z 0 / 60)%float
                 = Raise ZeroDivisionError) by reflexivity.
  rewrite Hdiv. cbn. eexists. reflexivity.
Qed.

Lemma whole_day_step_raises_witness :
  exists out,
    cp_detection (DtIndex (grid 86400 5)) (NdArray tt_gap) (NdArray rr_gap) default_config
    = (out, Raise ZeroDivisionError).
Proof.
  apply (whole_day_step_raises (grid 86400 5) "T" 0 86400 [172800; 259200; 345600]
           tt_gap rr_gap default_config); reflexivity.
Defined.

(* ------------------------------------------------------------------------ *)
(** ** The three periods of one event *)

Lemma firstn_plus {A} (a b : nat) (l : list A) :
  firstn (a + b) l = firstn a l ++ firstn b (skipn a l).
Proof.
  revert l. induction a as [| a IH]; intros l; [reflexivity |].
  destruct l as [| x l]; cbn; [rewrite firstn_nil; reflexivity |].
  f_equal. apply IH.
Qed.

(** X8.  For an event whose "all" period lies inside a sequence, the
    pre-period and the post-period slices tile the "all" slice: the first has
    [npre + 1] samples and ends with the passage sample, the second has
    [npost] samples, and together they are the [npre + npost + 1] samples of
    "all". *)
Theorem periods_tile_window {A} (l : list A) npre npost i :
  0 <= npre -> 0 <= npost ->
  0 <= i - npre -> i + npost + 1 <= zlen l ->
  exists pre post all,
    index_cp_slices npre npost i "pre" = Some pre /\
    index_cp_slices npre npost i "post" = Some post /\
    index_cp_slices npre npost i "all" = Some all /\
    py_slice l pre ++ py_slice l post = py_slice l all /\
    zlen (py_slice l pre) = npre + 1 /\
    zlen (py_slice l post) = npost /\
    nth_error (py_slice l pre) (Z.to_nat npre) = nth_error l (Z.to_nat i).
Proof.
  intros Hnpre Hnpost Hlo Hhi.
  exists (mkslice (i - npre) (i + 1)), (mkslice (i + 1) (i + npost + 1)),
    (mkslice (i - npre) (i + npost + 1)).
  repeat split; try reflexivity.
  - rewrite !py_slice_inside by lia.
    replace (Z.to_nat (i + npost + 1 - (i - npre)))
      with (Z.to_nat (i + 1 - (i - npre)) + Z.to_nat (i + npost + 1 - (i + 1)))%nat by lia.
    rewrite firstn_plus, skipn_skipn. do 3 f_equal. lia.
  - rewrite py_slice_length by lia. lia.
  - rewrite py_slice_length by lia. lia.
  - rewrite py_slice_nth by lia. f_equal. lia.
Qed.

Lemma periods_tile_window_witness :
  exists pre post all,
    index_cp_slices 1 3 4 "pre" = Some pre /\
    index_cp_slices 1 3 4 "post" = Some post /\
    index_cp_slices 1 3 4 "all" = Some all /\
    py_slice tt_two pre ++ py_slice tt_two post = py_slice tt_two all /\
    zlen (py_slice tt_two pre) = 1 + 1 /\
    zlen (py_slice tt_two post) = 3 /\
    nth_error (py_slice tt_two pre) (Z.to_nat 1) = nth_error tt_two (Z.to_nat 4).
Proof.
  apply (periods_tile_window tt_two 1 3 4); vm_compute; congruence.
Defined.

(* ------------------------------------------------------------------------ *)
(** ** Queries on data of the wrong length *)

Lemma check_data_len_mismatch e indata varstr :
  data_len indata <> Some (self_ntime e) -> data_len indata <> None ->
  _check_data_len e indata varstr = (length_diag e varstr, Ok false).
Proof.
  intros Hne Hsome. destruct (data_len indata) as [n |] eqn:Hn; [| congruence].
  assert (Hshape : match shape0 indata with
                   | Raise AttributeError => ret 0
                   | r => lift r
                   end = ret n)
    by (destruct indata; inversion Hn; reflexivity).
  unfold _check_data_len, length_diag. rewrite Hshape, bind_ret_l.
  destruct (Z.eqb_spec n (self_ntime e)); [congruence |].
  destruct (self_ntime e =? -1); reflexivity.
Qed.

(** X9.  On any instance, configured or not, data whose length differs from
    [self.ntime] (an object without [shape] counting as length 0) never
    raises: [var_time] returns the empty frame, every [var_val] on a known
    period returns it too, whatever the function name, and [var_pert]
    returns it after printing the length diagnostic twice, once per run of
    [var_time].  A zero-dimensional array has no length to compare: the same
    queries raise [IndexError] on it, before printing anything. *)
Theorem wrong_length_queries_empty `{Pandas} e indata :
  data_len indata <> Some (self_ntime e) ->
  (data_len indata <> None ->
   var_time e indata = (length_diag e "Provided", Ok empty_frame) /\
   (forall period funcstr,
       In period periods ->
       var_val e indata period funcstr
       = (length_diag e "Provided", Ok (Frame empty_frame))) /\
   (forall prefunc postfunc,
       var_pert e indata prefunc postfunc
       = (length_diag e "Provided" ++ length_diag e "Provided",
          Ok (Frame empty_frame)))) /\
  (data_len indata = None ->
   var_time e indata = ([], Raise IndexError) /\
   (forall period funcstr,
       In period periods ->
       var_val e indata period funcstr = ([], Raise IndexError)) /\
   (forall prefunc postfunc,
       var_pert e indata prefunc postfunc = ([], Raise IndexError))).
Proof.
  intros Hne. split.
  - intros Hsome.
    assert (Hvt : var_time e indata = (length_diag e "Provided", Ok empty_frame)).
    { unfold var_time. rewrite (check_data_len_mismatch e indata "Provided" Hne Hsome).
      cbn. rewrite app_nil_r. reflexivity. }
    split; [exact Hvt |]. split.
    + intros period funcstr Hin. cbn in Hin.
      destruct Hin as [<- | [<- | [<- | []]]];
        unfold var_val;
        cbn [py_in periods existsb String.eqb Ascii.eqb Bool.eqb orb negb];
        rewrite Hvt; cbn; rewrite app_nil_r; reflexivity.
    + intros prefunc postfunc. unfold var_pert. rewrite Hvt. cbn.
      rewrite !app_nil_r. reflexivity.
  - intros Hnone. apply data_len_None in Hnone as [x ->].
    assert (Hvt : var_time e (Scalar x) = ([], Raise IndexError)) by reflexivity.
    split; [exact Hvt |]. split.
    + intros period funcstr Hin. cbn in Hin.
      destruct Hin as [<- | [<- | [<- | []]]];
        unfold var_val;
        cbn [py_in periods existsb String.eqb Ascii.eqb Bool.eqb orb negb];
        rewrite Hvt; reflexivity.
    + intros prefunc postfunc. unfold var_pert. rewrite Hvt. reflexivity.
Qed.

Lemma wrong_length_queries_empty_witness :
  (var_time self_two (NdArray tt_gap)
   = (length_diag self_two "Provided", Ok empty_frame) /\
   (forall period funcstr,
       In period periods ->
       var_val (pandas := sample_pandas) self_two (NdArray tt_gap) period funcstr
       = (length_diag self_two "Provided", Ok (Frame empty_frame))) /\
   (forall prefunc postfunc,
       var_pert (pandas := sample_pandas) self_two (NdArray tt_gap) prefunc postfunc
       = (length_diag self_two "Provided" ++ length_diag self_two "Provided",
          Ok (Frame empty_frame)))) /\
  (var_time self_two (Scalar 300%float) = ([], Raise IndexError) /\
   (forall period funcstr,
       In period periods ->
       var_val (pandas := sample_pandas) self_two (Scalar 300%float) period funcstr
       = ([], Raise IndexError)) /\
   (forall prefunc postfunc,
       var_pert (pandas := sample_pandas) self_two (Scalar 300%float) prefunc postfunc
       = ([], Raise IndexError))).
Proof.
  split.
  - apply (wrong_length_queries_empty (H := sample_pandas) self_two (NdArray tt_gap)).
    + vm_compute. discriminate.
    + discriminate.
  - apply (wrong_length_queries_empty (H := sample_pandas) self_two (Scalar 300%float)).
    + discriminate.
    + reflexivity.
Defined.

(* ------------------------------------------------------------------------ *)
(** ** The windowed frame, exactly *)

Lemma check_data_avail_pair indata threshold warn warnstr :
  _check_data_avail indata threshold warn warnstr
  = (avail_diag indata threshold warn warnstr,
     Ok (threshold <=? data_avail indata)%float).
Proof.
  unfold avail_diag.
  destruct (check_data_avail_value indata threshold warn warnstr) as [o Ho].
  rewrite Ho. reflexivity.
Qed.


Lemma set_assoc_fresh {V} k (v : V) l :
  ~ In k (map fst l) -> set_assoc k v l = l ++ [(k, v)].
Proof.
  induction l as [| [k' v'] l IH]; cbn; intros Hnin; [reflexivity |].
  destruct (Z.eqb_spec k' k) as [-> | Hne]; [tauto |].
  f_equal. apply IH. tauto.
Qed.

Lemma assign_columns_fresh pairs : forall cols,
  NoDup (map fst pairs) ->
  (forall k, In k (map fst pairs) -> ~ In k (map fst cols)) ->
  assign_columns pairs cols = cols ++ pairs.
Proof.
  induction pairs as [| [k c] pairs IH]; intros cols Hnd Hfresh.
  - cbn. rewrite app_nil_r. reflexivity.
  - cbn in Hnd. inversion Hnd as [| ? ? Hk Hnd']; subst.
    change (assign_columns ((k, c) :: pairs) cols)
      with (assign_columns pairs (set_assoc k c cols)).
    rewrite set_assoc_fresh by (apply Hfresh; left; reflexivity).
    rewrite IH; [rewrite <- app_assoc; reflexivity | assumption |].
    intros k' Hk' Hin. rewrite map_app in Hin. apply in_app_or in Hin as [Hin | Hin].
    + apply (Hfresh k'); [right; assumption | assumption].
    + cbn in Hin. destruct Hin as [<- | []]. contradiction.
Qed.

Section WindowingExact.

Variable self : instance.
Variable indata : list float.
Variables npre npost : Z.
Variable avail_cp : float.
Variable warn_cp : bool.
Hypothesis self_has_npre : self_npre self = Some npre.
Hypothesis self_has_npost : self_npost self = Some npost.
Hypothesis self_has_avail : self_data_avail_cp self = Some avail_cp.
Hypothesis self_has_warn : self_warn_avail_cp self = Some warn_cp.

(** The loop of [var_time], with what it prints. *)
Lemma var_time_loop_exact : forall idx keys cp outdata,
  0 <= cp ->
  df_index outdata = np_arange (- npre) (npost + 1) ->
  Forall (fun icp => 0 <= icp - npre /\ icp - npre <= icp + npost + 1
                     /\ icp + npost + 1 <= zlen indata) idx ->
  List.length keys = List.length idx ->
  (forall n, (n < List.length idx)%nat ->
     nth_error (self_cp_datetime self) (Z.to_nat cp + n) = nth_error keys n) ->
  var_time_loop self indata cp idx outdata
  = (event_diags indata avail_cp warn_cp npre npost idx,
     Ok (mkframe (df_index outdata)
           (assign_columns
              (combine keys (map (event_column indata avail_cp npre npost) idx))
              (df_columns outdata)))).
Proof.
  induction idx as [| icp idx IH]; intros keys cp outdata Hcp Hidx Hbnd Hlen Hkeys.
  - destruct keys; [| discriminate]. destruct outdata. reflexivity.
  - destruct keys as [| key keys]; [discriminate |].
    inversion Hbnd as [| ? ? (Hlo & Hmid & Hhi) Hbnd']; subst.
    cbn [var_time_loop].
    rewrite (index_cp_set self npre npost) by assumption.
    cbn [index_cp_slices String.eqb Ascii.eqb Bool.eqb].
    rewrite !bind_ret_l, bind_getattr_Some.
    rewrite self_has_avail, bind_getattr_Some, self_has_warn, bind_getattr_Some.
    rewrite check_data_avail_pair. cbn [bind].
    assert (Hkey : py_getitem (self_cp_datetime self) cp = Ok key).
    { apply py_getitem_Ok; [assumption |].
      specialize (Hkeys O ltac:(cbn; lia)). rewrite Nat.add_0_r in Hkeys. exact Hkeys. }
    rewrite Hkey, bind_lift_Ok.
    assert (Hset : set_column outdata key
                     (if (avail_cp <=? data_avail
                            (py_slice indata (mkslice (icp - npre) (icp + npost + 1))))%float
                      then Some (py_slice indata (mkslice (icp - npre) (icp + npost + 1)))
                      else None)
                   = Ok (mkframe (df_index outdata)
                           (set_assoc key (event_column indata avail_cp npre npost icp)
                              (df_columns outdata)))).
    { unfold event_column, set_column.
      destruct (avail_cp <=? data_avail _)%float.
      - rewrite py_slice_length by lia. rewrite Hidx. unfold np_arange, zlen.
        rewrite arange_from_length.
        replace (icp + npost + 1 - (icp - npre)) with (npost + 1 - - npre) by lia.
        rewrite Z2Nat.id by lia. rewrite Z.eqb_refl. reflexivity.
      - rewrite Hidx. reflexivity. }
    rewrite Hset, bind_lift_Ok.
    rewrite (IH keys (cp + 1)
               (mkframe (df_index outdata)
                  (set_assoc key (event_column indata avail_cp npre npost icp)
                     (df_columns outdata))));
      try assumption; try lia.
    + reflexivity.
    + cbn in Hlen. lia.
    + intros n Hn. specialize (Hkeys (S n) ltac:(cbn; lia)). cbn [nth_error] in Hkeys.
      rewrite <- Hkeys. f_equal. lia.
Qed.

End WindowingExact.

Lemma event_windows_inside dtdata ttdata rrdata cfg e d tt rr ntt npre npost :
  detection_ran dtdata ttdata rrdata cfg e d tt rr ntt npre npost ->
  Forall (fun icp => 0 <= icp - npre /\ icp - npre <= icp + npost + 1
                     /\ icp + npost + 1 <= self_ntime e) (self_cp_index e).
Proof.
  intros Hran. pose proof (events_accepted _ _ _ _ _ _ _ _ _ _ _ Hran) as Hacc.
  eapply Forall_impl; [| exact Hacc]. cbn.
  intros i (prev & t & Ht & _ & _ & Hlo & Hhi & _).
  apply visited_In in Ht as (_ & Hnpre & Hnpost & _).
  rewrite (ran_ntime _ _ _ _ _ _ _ _ _ _ _ Hran). lia.
Qed.

Lemma event_stamps_NoDup dtdata ttdata rrdata cfg e d tt rr ntt npre npost :
  detection_ran dtdata ttdata rrdata cfg e d tt rr ntt npre npost ->
  NoDup (stamps d) -> NoDup (self_cp_datetime e).
Proof.
  intros Hran Hnd.
  apply (take_stamps_NoDup (stamps d) (self_cp_index e)); [assumption | | |].
  - destruct (self_cp_index e) as [| icp idx] eqn:Hidx; [constructor |].
    assert (Hin : In icp (self_cp_index e)) by (rewrite Hidx; left; reflexivity).
    destruct (event_counts_positive _ _ _ _ _ _ _ _ _ _ _ _ Hran Hin) as (_ & _ & Hnpost).
    rewrite <- Hidx. apply StronglySorted_lt_NoDup.
    eapply StronglySorted_weaken; [| exact (events_spaced _ _ _ _ _ _ _ _ _ _ _ Hran)].
    cbn. intros; lia.
  - eapply Forall_impl; [| exact (events_accepted _ _ _ _ _ _ _ _ _ _ _ Hran)].
    cbn. intros i (prev & t & Ht & _ & _ & Hlo & _).
    apply visited_In in Ht as (_ & Hnpre & _). lia.
  - exact (ran_stamps _ _ _ _ _ _ _ _ _ _ _ Hran).
Qed.

(** [var_time] once detection has run, with what it prints. *)
Lemma var_time_ran dtdata ttdata rrdata cfg e d tt rr ntt npre npost series :
  detection_ran dtdata ttdata rrdata cfg e d tt rr ntt npre npost ->
  zlen series = self_ntime e ->
  var_time e (NdArray series)
  = (avail_diag series (data_avail_all cfg) (warn_avail_all cfg) "provided"
     ++ event_diags series (data_avail_cp cfg) (warn_avail_cp cfg) npre npost
          (self_cp_index e),
     Ok (mkframe (np_arange (- npre) (npost + 1))
           (assign_columns
              (combine (self_cp_datetime e)
                 (map (event_column series (data_avail_cp cfg) npre npost)
                    (self_cp_index e)))
              []))).
Proof.
  intros Hran Hlen.
  pose proof (take_stamps_length _ _ _ (ran_stamps _ _ _ _ _ _ _ _ _ _ _ Hran)) as Hlens.
  pose proof (event_windows_inside _ _ _ _ _ _ _ _ _ _ _ Hran) as Hbnd.
  rewrite <- Hlen in Hbnd.
  pose proof (var_time_loop_exact e series npre npost (data_avail_cp cfg)
                (warn_avail_cp cfg)
                (ran_npre _ _ _ _ _ _ _ _ _ _ _ Hran)
                (ran_npost _ _ _ _ _ _ _ _ _ _ _ Hran)
                (ran_avail_cp _ _ _ _ _ _ _ _ _ _ _ Hran)
                (ran_warn_cp _ _ _ _ _ _ _ _ _ _ _ Hran)
                (self_cp_index e) (self_cp_datetime e) 0
                (mkframe (np_arange (- npre) (npost + 1)) [])
                ltac:(lia) eq_refl Hbnd Hlens (fun n _ => eq_refl)) as Hloop.
  unfold var_time.
  rewrite check_data_len_pass by (cbn [data_len]; rewrite Hlen; reflexivity).
  rewrite bind_ret_l. cbn [negb].
  rewrite (ran_avail_all _ _ _ _ _ _ _ _ _ _ _ Hran), bind_getattr_Some.
  rewrite (ran_warn_all _ _ _ _ _ _ _ _ _ _ _ Hran), bind_getattr_Some.
  cbn [as_array]. rewrite bind_ret_l, check_data_avail_pair. cbn [bind].
  rewrite (ran_npre _ _ _ _ _ _ _ _ _ _ _ Hran), bind_getattr_Some.
  rewrite (ran_npost _ _ _ _ _ _ _ _ _ _ _ Hran), bind_getattr_Some.
  cbn [df_index df_columns] in Hloop. rewrite Hloop. reflexivity.
Qed.

(** An instance with a sample count set went through detection. *)
Lemma configured_ran dtdata ttdata rrdata cfg e npre npost :
  constructed dtdata ttdata rrdata cfg e ->
  self_npre e = Some npre -> self_npost e = Some npost ->
  exists d tt rr ntt,
    detection_ran dtdata ttdata rrdata cfg e d tt rr ntt npre npost.
Proof.
  intros [out Hc] Hnpre Hnpost.
  apply cp_detection_cases in Hc
    as (_ & [(_ & _ & Hun) | (d & tt & rr & ntt & npre' & npost' & Hran)]).
  - destruct Hun as (_ & _ & _ & _ & Hun & _). congruence.
  - pose proof (ran_npre _ _ _ _ _ _ _ _ _ _ _ Hran) as H1.
    pose proof (ran_npost _ _ _ _ _ _ _ _ _ _ _ Hran) as H2.
    rewrite Hnpre in H1. rewrite Hnpost in H2. inversion H1; inversion H2; subst.
    eauto.
Qed.





(* ------------------------------------------------------------------------ *)
(** ** Queries when there is no event *)



(* ------------------------------------------------------------------------ *)
(** ** Queries after a failed validation of a grid *)

Lemma no_freq_unconfigured d ttdata rrdata cfg out e :
  inferred_freq d = None ->
  cp_detection (DtIndex d) ttdata rrdata cfg = (out, Ok e) ->
  unconfigured e.
Proof.
  intros Hf H. unfold cp_detection, check_grid in H. rewrite Hf in H.
  apply bind_Ok in H as (? & g & ? & Hg & H & _).
  cbn in Hg. inversion Hg; subst g. cbn [fst snd] in H.
  apply bind_Ok in H as (? & clt & ? & _ & H & _).
  apply bind_Ok in H as (? & clr & ? & _ & H & _).
  rewrite bind_ret_l in H. cbn [fst snd] in H.
  apply bind_Ok in H as (? & cpd & ? & _ & H & _).
  apply ret_inv in H as [<- _]. unfold unconfigured. cbn. tauto.
Qed.

Lemma invalid_grid_unconfigured d ttdata rrdata cfg e :
  constructed (DtIndex d) ttdata rrdata cfg e ->
  structurally_invalid (DtIndex d) ttdata rrdata ->
  unconfigured e.
Proof.
  intros [out Hc] Hbad. cbn in Hbad.
  destruct Hbad as [Hf | Hlen]; [eapply no_freq_unconfigured; eassumption |].
  apply cp_detection_cases in Hc
    as (_ & [(_ & _ & Hun) | (d' & tt & rr & ntt & npre & npost & Hran)]);
    [exact Hun | exfalso].
  pose proof (ran_dt _ _ _ _ _ _ _ _ _ _ _ Hran) as Hd. inversion Hd; subst d'.
  rewrite (ran_tt _ _ _ _ _ _ _ _ _ _ _ Hran), (ran_rr _ _ _ _ _ _ _ _ _ _ _ Hran) in Hlen.
  cbn in Hlen.
  pose proof (ran_len_tt _ _ _ _ _ _ _ _ _ _ _ Hran).
  pose proof (ran_len_rr _ _ _ _ _ _ _ _ _ _ _ Hran).
  destruct Hlen as [Hlen | Hlen]; apply Hlen; congruence.
Qed.

(** X13.  After a structural failure of validation on a [DatetimeIndex] (no
    inferred frequency, or a data array of another length than the grid), the
    attributes assigned under [if check_all:] are missing, and every windowing
    query on data of the grid's length raises [AttributeError] before printing
    anything: [var_time], [var_val] on a known period, and [var_pert]. *)
Theorem invalid_grid_queries_raise `{Pandas} d ttdata rrdata cfg e indata :
  constructed (DtIndex d) ttdata rrdata cfg e ->
  structurally_invalid (DtIndex d) ttdata rrdata ->
  data_len indata = Some (zlen (stamps d)) ->
  unconfigured e /\
  var_time e indata = ([], Raise AttributeError) /\
  (forall period funcstr,
      In period periods ->
      var_val e indata period funcstr = ([], Raise AttributeError)) /\
  (forall prefunc postfunc,
      var_pert e indata prefunc postfunc = ([], Raise AttributeError)).
Proof.
  intros Hc Hbad Hlen.
  pose proof (invalid_grid_unconfigured _ _ _ _ _ Hc Hbad) as Hun.
  assert (Hnt : self_ntime e = zlen (stamps d)).
  { destruct Hc as [out Hc].
    apply cp_detection_cases in Hc as ((_ & _ & _ & _ & Hnt) & _). exact Hnt. }
  assert (Hvt : var_time e indata = ([], Raise AttributeError)).
  { unfold var_time.
    rewrite check_data_len_pass by congruence. rewrite bind_ret_l. cbn [negb].
    destruct Hun as (_ & Hall & _). rewrite Hall. reflexivity. }
  split; [exact Hun |]. split; [exact Hvt |]. split.
  - intros period funcstr Hin. cbn in Hin.
    destruct Hin as [<- | [<- | [<- | []]]];
      unfold var_val; cbn [py_in periods existsb String.eqb Ascii.eqb Bool.eqb orb negb];
      rewrite Hvt; reflexivity.
  - intros prefunc postfunc. unfold var_pert. rewrite Hvt. reflexivity.
Qed.

Lemma invalid_grid_queries_raise_witness :
  constructed (DtIndex (grid 600 3)) (NdArray [300; 290]%float)
    (NdArray [0; 1; 0]%float) default_config self_short /\
  unconfigured self_short /\
  var_time self_short (NdArray [0; 1; 0]%float) = ([], Raise AttributeError) /\
  (forall period funcstr,
      In period periods ->
      var_val (pandas := sample_pandas) self_short (NdArray [0; 1; 0]%float) period funcstr
      = ([], Raise AttributeError)) /\
  (forall prefunc postfunc,
      var_pert (pandas := sample_pandas)
        self_short (NdArray [0; 1; 0]%float) prefunc postfunc
      = ([], Raise AttributeError)).
Proof.
  assert (Hc : constructed (DtIndex (grid 600 3)) (NdArray [300; 290]%float)
                 (NdArray [0; 1; 0]%float) default_config self_short)
    by (eexists; vm_compute; reflexivity).
  split; [exact Hc |].
  apply (invalid_grid_queries_raise _ _ _ _ self_short (NdArray [0; 1; 0]%float) Hc).
  - right. left. vm_compute. discriminate.
  - reflexivity.
Defined.

(* ------------------------------------------------------------------------ *)
(** ** Warnings never change the detection *)

Lemma when_print_pair (b : bool) (x : diag) :
  when b (print x) = ((if b then [x] else []), Ok tt).
Proof. destruct b; reflexivity. Qed.

(** The loop reads the instance through four attributes only. *)
Lemma detect_loop_ext self self' ttdata rrdata ntt p npre npost avail_cp :
  self_npre self = Some npre -> self_npost self = Some npost ->
  self_data_avail_cp self = Some avail_cp ->
  self_npre self' = Some npre -> self_npost self' = Some npost ->
  self_data_avail_cp self' = Some avail_cp ->
  self_ntime self = self_ntime self' ->
  forall t_ttlim prev acc,
    detect_loop self ttdata rrdata ntt p t_ttlim prev acc
    = detect_loop self' ttdata rrdata ntt p t_ttlim prev acc.
Proof.
  intros H1 H2 H3 H1' H2' H3' Hnt.
  induction t_ttlim as [| t rest IH]; intros prev acc; [reflexivity |].
  cbn [detect_loop].
  rewrite H2, H2', !bind_getattr_Some.
  destruct (t - prev <=? npost); [apply IH |].
  destruct (passage_index ttdata ntt p t) as [icp | ex]; [| reflexivity].
  rewrite !bind_lift_Ok.
  rewrite !(index_cp_set self npre npost), !(index_cp_set self' npre npost) by assumption.
  cbn [index_cp_slices String.eqb Ascii.eqb Bool.eqb].
  rewrite !bind_ret_l, !bind_getattr_Some. cbn [start stop].
  rewrite <- Hnt.
  destruct ((icp - npre <? 0) || (self_ntime self <? icp + npost + 1)); [apply IH |].
  rewrite H3, H3', !bind_getattr_Some.
  rewrite !check_data_avail_quiet, !bind_ret_l.
  destruct (negb _ || negb _); [apply IH |].
  destruct (np_sum _ =? 0)%float; apply IH.
Qed.

Lemma detect_config_ext self ttdata rrdata tres cfg cfg' out self1 cp_index :
  same_detection_config cfg cfg' ->
  detect self ttdata rrdata tres cfg = (out, Ok (self1, cp_index)) ->
  exists out' self1',
    detect self ttdata rrdata tres cfg' = (out', Ok (self1', cp_index)).
Proof.
  intros (Hdtt & Hdtime & Hpre & Hpost & Hp & Hav) H.
  unfold detect in H. cbn [set_avail self_data_avail_all self_warn_avail_all] in H.
  rewrite !bind_getattr_Some in H.
  apply bind_Ok in H as (? & tt & ? & Htt & H & _).
  apply bind_Ok in H as (? & rr & ? & Hrr & H & _).
  apply bind_Ok in H as (? & ? & ? & _ & H & _).
  apply bind_Ok in H as (? & ? & ? & _ & H & _).
  apply bind_Ok in H as (? & ntt & ? & Hntt & H & _).
  apply bind_Ok in H as (? & npre & ? & Hnpre & H & _).
  apply bind_Ok in H as (? & npost & ? & Hnpost & H & _).
  apply bind_Ok in H as (? & ? & ? & _ & H & _).
  apply bind_Ok in H as (? & ? & ? & _ & H & _).
  apply bind_Ok in H as (? & ? & ? & _ & H & _).
  apply bind_Ok in H as (oloop & l & ? & Hloop & H & _).
  apply ret_inv in H as [H _]. inversion H; subst self1 l. clear H.
  apply lift_Ok_inv in Hntt as [Hntt _].
  apply lift_Ok_inv in Hnpre as [Hnpre _].
  apply lift_Ok_inv in Hnpost as [Hnpost _].
  unfold detect. cbn [set_avail self_data_avail_all self_warn_avail_all].
  rewrite !bind_getattr_Some, Htt. cbn [bind]. rewrite Hrr. cbn [bind].
  rewrite !check_data_avail_pair. cbn [bind].
  rewrite <- Hdtime, <- Hpre, <- Hpost, Hntt, Hnpre, Hnpost.
  rewrite !bind_lift_Ok, !when_print_pair. cbn [bind].
  rewrite <- Hdtt, <- Hp.
  rewrite (detect_loop_ext _
             (set_windows (set_avail self cfg) npre npost)
             tt rr ntt (d_tt_p cfg) npre npost (data_avail_cp cfg))
    by (cbn; congruence).
  rewrite Hloop. cbn. eexists. eexists. reflexivity.
Qed.

(** X14.  The global availability threshold and the two warning flags never
    change the detection: a construction that completes with one
    configuration completes with any configuration that differs in these
    three settings only, with the same event indices, timestamps and count. *)
Theorem warnings_never_change_events dtdata ttdata rrdata cfg cfg' e :
  constructed dtdata ttdata rrdata cfg e ->
  same_detection_config cfg cfg' ->
  exists e',
    constructed dtdata ttdata rrdata cfg' e' /\
    indices e' = indices e /\ datetimes e' = datetimes e /\ number e' = number e.
Proof.
  unfold constructed, indices, datetimes, number. intros [out H] Hsame.
  unfold cp_detection in H.
  apply bind_Ok in H as (o1 & [check_dt tres] & ? & Hg & H & _).
  apply bind_Ok in H as (o2 & clt & ? & Hclt & H & _).
  apply bind_Ok in H as (o3 & clr & ? & Hclr & H & _).
  apply bind_Ok in H as (o4 & [self1 cp_index] & ? & Hr & H & _).
  apply bind_Ok in H as (o5 & cp_datetime & ? & Hcpd & H & _).
  apply ret_inv in H as [<- _]. cbn [fst snd] in *.
  assert (Hgoal : forall o4' self1' o',
            match tres with
            | Some tres0 =>
                if check_dt && match tres with Some _ => true | None => false end
                   && clt && clr
                then detect
                       (new_instance
                          match dtdata with
                          | DtIndex d => if check_dt then zlen (stamps d) else -1
                          | OtherObject => -1
                          end) ttdata rrdata tres0 cfg'
                else ret (new_instance
                            match dtdata with
                            | DtIndex d => if check_dt then zlen (stamps d) else -1
                            | OtherObject => -1
                            end, [])
            | None => ret (new_instance
                             match dtdata with
                             | DtIndex d => if check_dt then zlen (stamps d) else -1
                             | OtherObject => -1
                             end, [])
            end = (o4', Ok (self1', cp_index)) ->
            o' = o1 ++ o2 ++ o3 ++ o4' ++ o5 ++ [] ->
            cp_detection dtdata ttdata rrdata cfg'
            = (o', Ok (set_results self1' dtdata ttdata rrdata cp_index cp_datetime))).
  { intros o4' self1' o' Hr' ->. unfold cp_detection.
    rewrite Hg. cbn [bind fst snd]. rewrite Hclt. cbn [bind].
    rewrite Hclr. cbn [bind]. rewrite Hr'. cbn [bind fst snd]. rewrite Hcpd. reflexivity. }
  assert (Hr' : exists o4' self1',
            match tres with
            | Some tres0 =>
                if check_dt && match tres with Some _ => true | None => false end
                   && clt && clr
                then detect
                       (new_instance
                          match dtdata with
                          | DtIndex d => if check_dt then zlen (stamps d) else -1
                          | OtherObject => -1
                          end) ttdata rrdata tres0 cfg'
                else ret (new_instance
                            match dtdata with
                            | DtIndex d => if check_dt then zlen (stamps d) else -1
                            | OtherObject => -1
                            end, [])
            | None => ret (new_instance
                             match dtdata with
                             | DtIndex d => if check_dt then zlen (stamps d) else -1
                             | OtherObject => -1
                             end, [])
            end = (o4', Ok (self1', cp_index))).
  { clear Hgoal. destruct tres as [tres0 |].
    - destruct (check_dt && true && clt && clr).
      + eapply detect_config_ext; eassumption.
      + apply ret_inv in Hr as [Hr _]. inversion Hr. eexists. eexists. reflexivity.
    - apply ret_inv in Hr as [Hr _]. inversion Hr. eexists. eexists. reflexivity. }
  destruct Hr' as (o4' & self1' & Hr').
  exists (set_results self1' dtdata ttdata rrdata cp_index cp_datetime).
  split; [| cbn; auto].
  exists (o1 ++ o2 ++ o3 ++ o4' ++ o5 ++ []).
  eapply Hgoal; [exact Hr' | reflexivity].
Qed.

Lemma warnings_never_change_events_witness :
  constructed (DtIndex (grid 1200 8)) (NdArray tt_two) (NdArray rr_two)
    default_config self_two /\
  exists e',
    constructed (DtIndex (grid 1200 8)) (NdArray tt_two) (NdArray rr_two)
      (mkconfig (-2) 20 30 60 (-0.5) 1 0.5 false false) e' /\
    indices e' = indices self_two /\ datetimes e' = datetimes self_two /\
    number e' = number self_two.
Proof.
  assert (Hc : constructed (DtIndex (grid 1200 8)) (NdArray tt_two) (NdArray rr_two)
                 default_config self_two)
    by (exists []; vm_compute; reflexivity).
  split; [exact Hc |].
  apply (warnings_never_change_events _ _ _ default_config
           (mkconfig (-2) 20 30 60 (-0.5) 1 0.5 false false) self_two Hc).
  repeat split.
Defined.

(* ------------------------------------------------------------------------ *)
(** ** The raw candidates *)

Lemma where_from_sorted mask : forall i,
  StronglySorted Z.lt (where_from i mask) /\ Forall (fun k => i <= k) (where_from i mask).
Proof.
  induction mask as [| b rest IH]; intros i; cbn [where_from].
  - split; constructor.
  - destruct (IH (i + 1)) as [Hs Hge].
    assert (Hge' : Forall (fun k => i <= k) (where_from (i + 1) rest)).
    { eapply Forall_impl; [| exact Hge]. cbn. intros; lia. }
    destruct b; [| split; assumption].
    split.
    + constructor; [assumption |].
      eapply Forall_impl; [| exact Hge]. cbn. intros; lia.
    + constructor; [lia | assumption].
Qed.

Lemma is_nan_spec x : PrimFloat.is_nan x = true <-> Prim2SF x = S754_nan.
Proof.
  unfold PrimFloat.is_nan. rewrite eqb_spec. unfold SFeqb.
  destruct (Prim2SF x) as [[] | [] | | [] m e]; cbn;
    try (split; [discriminate | discriminate]);
    try (split; [reflexivity | reflexivity]).
  all: rewrite ?Z.compare_refl, ?Pos.compare_cont_refl, ?Pos.compare_refl; cbn.
  all: try (split; [discriminate | discriminate]).
Qed.

Lemma is_nan_false_iff x : PrimFloat.is_nan x = false <-> Prim2SF x <> S754_nan.
Proof.
  rewrite <- is_nan_spec. destruct (PrimFloat.is_nan x); split; congruence.
Qed.

(** A drop compared against a threshold is false as soon as one of the two
    samples is missing. *)
Lemma drop_test_not_nan a b d :
  (a - b <=? d)%float = true ->
  PrimFloat.is_nan a = false /\ PrimFloat.is_nan b = false.
Proof.
  rewrite leb_spec, sub_spec. intros H.
  split; apply is_nan_false_iff; intros Hnan; rewrite Hnan in H.
  - cbn in H. discriminate.
  - destruct (Prim2SF a); cbn in H; discriminate.
Qed.

(** X15.  For a positive [ntt], the raw candidates are exactly the positions
    [t] with [0 <= t < N - ntt] whose sample [ntt] steps later is lower by at
    least the drop threshold; they come in strictly increasing order, and a
    position where either of the two samples is NaN is never a candidate. *)
Theorem drop_candidates_exact ttdata ntt d :
  0 < ntt ->
  StronglySorted Z.lt (drop_candidates ttdata ntt d) /\
  forall t,
    In t (drop_candidates ttdata ntt d) <->
    0 <= t < zlen ttdata - ntt /\
    exists a b, nth_error ttdata (Z.to_nat (t + ntt)) = Some a /\
                nth_error ttdata (Z.to_nat t) = Some b /\
                (a - b <=? d)%float = true /\
                PrimFloat.is_nan a = false /\ PrimFloat.is_nan b = false.
Proof.
  intros Hntt. split.
  - unfold drop_candidates, np_where. apply where_from_sorted.
  - intros t. rewrite drop_candidates_spec by assumption. split.
    + intros (Ht & Hlen & a & b & Ha & Hb & Hle).
      split; [lia |]. exists a, b. repeat split; try assumption;
        apply (drop_test_not_nan a b d Hle).
    + intros (Ht & a & b & Ha & Hb & Hle & _).
      split; [lia |]. split; [lia |]. eauto.
Qed.

Lemma drop_candidates_exact_witness :
  StronglySorted Z.lt (drop_candidates tt_two 1 (-2)%float) /\
  forall t,
    In t (drop_candidates tt_two 1 (-2)%float) <->
    0 <= t < zlen tt_two - 1 /\
    exists a b, nth_error tt_two (Z.to_nat (t + 1)) = Some a /\
                nth_error tt_two (Z.to_nat t) = Some b /\
                (a - b <=? -2)%float = true /\
                PrimFloat.is_nan a = false /\ PrimFloat.is_nan b = false.
Proof.
  apply (drop_candidates_exact tt_two 1 (-2)%float). lia.
Defined.

(* ------------------------------------------------------------------------ *)
(** ** When the refinement raises *)

Lemma py_getitem_raise {A} (l : list A) i ex :
  py_getitem l i = Raise ex -> ex = IndexError.
Proof.
  unfold py_getitem. destruct (_ <? 0); [intros H; inversion H; reflexivity |].
  destruct (nth_error l _); intros H; inversion H; reflexivity.
Qed.

(** X16.  For a raw candidate [t], the refinement raises nothing but
    [IndexError], and it raises it exactly when no sample of the window
    [t .. t + ntt] is at or below [ttdata[t] + d_tt_p]. *)
Theorem passage_index_raises ttdata ntt d p t :
  0 < ntt ->
  In t (drop_candidates ttdata ntt d) ->
  (forall ex, passage_index ttdata ntt p t = Raise ex -> ex = IndexError) /\
  (passage_index ttdata ntt p t = Raise IndexError <->
   exists tt0,
     nth_error ttdata (Z.to_nat t) = Some tt0 /\
     forall j x, t <= j <= t + ntt ->
                 nth_error ttdata (Z.to_nat j) = Some x ->
                 (x <=? tt0 + p)%float = false).
Proof.
  intros Hntt Hcand.
  apply drop_candidates_spec in Hcand as (Ht & Hlen & _); [| assumption].
  destruct (nth_error_in_range ttdata t ltac:(lia)) as [tt0 Htt0].
  assert (Honly : forall ex, passage_index ttdata ntt p t = Raise ex -> ex = IndexError).
  { intros ex. unfold passage_index; cbn [start].
    destruct (py_getitem ttdata t) as [y |] eqn:Hy; cbn [rbind].
    - destruct (py_getitem (np_where _) 0) as [k |] eqn:Hk; cbn [rbind];
        [discriminate |].
      intros H. inversion H; subst. eapply py_getitem_raise; eassumption.
    - intros H. inversion H; subst. eapply py_getitem_raise; eassumption. }
  split; [exact Honly |]. split.
  - intros Hraise. exists tt0. split; [assumption |].
    intros j x Hj Hx. destruct (x <=? tt0 + p)%float eqn:Hle; [| reflexivity].
    destruct (passage_index_total ttdata ntt p t tt0 j x) as [icp Hicp];
      try assumption; try lia.
    congruence.
  - intros (tt0' & Htt0' & Hnone).
    destruct (passage_index ttdata ntt p t) as [icp | ex] eqn:Hres.
    + apply passage_index_spec in Hres; [| lia ..].
      destruct Hres as (tt0'' & j & Htt0'' & Hj & (x & Hx & Hle) & _).
      assert (tt0'' = tt0') by congruence. subst tt0''.
      rewrite (Hnone j x Hj Hx) in Hle. discriminate.
    + f_equal. apply Honly. reflexivity.
Qed.

Lemma passage_index_raises_witness :
  (forall ex, passage_index [2; 0x1p-60]%float 1 (-2)%float 0 = Raise ex
              -> ex = IndexError) /\
  (passage_index [2; 0x1p-60]%float 1 (-2)%float 0 = Raise IndexError <->
   exists tt0,
     nth_error [2; 0x1p-60]%float (Z.to_nat 0) = Some tt0 /\
     forall j x, 0 <= j <= 0 + 1 ->
                 nth_error [2; 0x1p-60]%float (Z.to_nat j) = Some x ->
                 (x <=? tt0 + -2)%float = false).
Proof.
  apply (passage_index_raises [2; 0x1p-60]%float 1 (-2)%float (-2)%float 0).
  - lia.
  - vm_compute. left. reflexivity.
Defined.

(* ------------------------------------------------------------------------ *)
(** ** First and last values of the periods *)

Lemma lookup_map_values {V W} (F : V -> W) k (l : list (Z * V)) :
  lookup k (map (fun kc => (fst kc, F (snd kc))) l) = option_map F (lookup k l).
Proof.
  unfold lookup. induction l as [| [k' v] l IH]; cbn; [reflexivity |].
  destruct (Z.eqb_spec k' k); [reflexivity | exact IH].
Qed.

Lemma lookup_combine_nth {V} keys : forall (vals : list V) n key v,
  NoDup keys ->
  nth_error keys n = Some key -> nth_error vals n = Some v ->
  lookup key (combine keys vals) = Some v.
Proof.
  unfold lookup.
  induction keys as [| k keys IH]; intros vals n key v Hnd Hk Hv;
    [destruct n; discriminate |].
  destruct vals as [| w vals]; [destruct n; discriminate |].
  inversion Hnd as [| ? ? Hnotin Hnd']; subst.
  destruct n as [| n]; cbn in Hk, Hv.
  - inversion Hk; inversion Hv; subst. cbn. rewrite Z.eqb_refl. reflexivity.
  - cbn. destruct (Z.eqb_spec k key) as [-> | Hne].
    + exfalso. apply Hnotin. eapply nth_error_In; eassumption.
    + eapply IH; eassumption.
Qed.

Lemma filter_rows_above {V} n : forall lo (col : list V) hi,
  hi < lo ->
  filter (fun p : Z * V => fst p <=? hi) (combine (arange_from lo n) col) = [].
Proof.
  induction n as [| n IH]; intros lo col hi Hlt; [reflexivity |].
  destruct col as [| c col]; [reflexivity |]. cbn.
  destruct (Z.leb_spec lo hi); [lia |]. apply IH. lia.
Qed.

(** Rows up to the label [hi]: the first [hi - lo + 1] values of a column. *)
Lemma filter_rows_upto {V} n : forall lo (col : list V) hi,
  lo <= hi ->
  map snd (filter (fun p : Z * V => fst p <=? hi) (combine (arange_from lo n) col))
  = firstn (Z.to_nat (hi - lo + 1)) (firstn n col).
Proof.
  induction n as [| n IH]; intros lo col hi Hle.
  - cbn. rewrite firstn_nil. reflexivity.
  - destruct col as [| c col]; [cbn; rewrite firstn_nil; reflexivity |].
    cbn [arange_from combine filter fst]. destruct (Z.leb_spec lo hi); [| lia].
    replace (Z.to_nat (hi - lo + 1)) with (S (Z.to_nat (hi - lo))) by lia.
    cbn [map snd firstn]. f_equal.
    destruct (Z.eq_dec lo hi) as [-> | Hne].
    + rewrite filter_rows_above by lia. rewrite Z.sub_diag. reflexivity.
    + rewrite IH by lia. do 2 f_equal. lia.
Qed.

Lemma filter_rows_all {V} n : forall lo (col : list V) a,
  a <= lo ->
  map snd (filter (fun p : Z * V => a <=? fst p) (combine (arange_from lo n) col))
  = firstn n col.
Proof.
  induction n as [| n IH]; intros lo col a Hle; [reflexivity |].
  destruct col as [| c col]; [reflexivity |].
  cbn [arange_from combine filter fst]. destruct (Z.leb_spec a lo); [| lia].
  cbn [map snd firstn]. f_equal. apply IH. lia.
Qed.

(** Rows from the label [a] on: a column without its first [a - lo] values. *)
Lemma filter_rows_from {V} n : forall lo (col : list V) a,
  lo <= a ->
  map snd (filter (fun p : Z * V => a <=? fst p) (combine (arange_from lo n) col))
  = skipn (Z.to_nat (a - lo)) (firstn n col).
Proof.
  induction n as [| n IH]; intros lo col a Hle.
  - cbn. rewrite skipn_nil. reflexivity.
  - destruct (Z.eq_dec lo a) as [-> | Hne].
    + rewrite filter_rows_all by lia. rewrite Z.sub_diag. reflexivity.
    + destruct col as [| c col]; [cbn; rewrite skipn_nil; reflexivity |].
      cbn [arange_from combine filter fst]. destruct (Z.leb_spec a lo); [lia |].
      replace (Z.to_nat (a - lo)) with (S (Z.to_nat (a - (lo + 1)))) by lia.
      cbn [firstn skipn]. apply IH. lia.
Qed.

Lemma py_getitem_first {A} (l : list A) :
  py_getitem l 0 = match nth_error l 0 with Some x => Ok x | None => Raise IndexError end.
Proof. reflexivity. Qed.

Lemma py_getitem_last_nth {A} (l : list A) n v :
  List.length l = S n -> nth_error l n = Some v -> py_getitem l (-1) = Ok v.
Proof.
  intros Hlen Hv. unfold py_getitem. cbn [Z.ltb Z.compare].
  assert (Hz : -1 + zlen l = Z.of_nat n) by (unfold zlen; lia).
  rewrite Hz. destruct (Z.ltb_spec (Z.of_nat n) 0); [lia |].
  rewrite Nat2Z.id, Hv. reflexivity.
Qed.

Lemma calc_val_first_last `{Pandas} d :
  df_index d <> [] ->
  _calc_val d "first"
  = ([], Ok (Series (map (fun kc : Z * list float =>
                            (fst kc, match py_getitem (snd kc) 0 with
                                     | Ok x => x
                                     | Raise _ => PrimFloat.nan
                                     end)) (df_columns d)))) /\
  _calc_val d "last"
  = ([], Ok (Series (map (fun kc : Z * list float =>
                            (fst kc, match py_getitem (snd kc) (-1) with
                                     | Ok x => x
                                     | Raise _ => PrimFloat.nan
                                     end)) (df_columns d)))).
Proof.
  intros Hrows. split.
  - destruct (df_index d) as [| r rows] eqn:Hidx; [congruence |].
    unfold _calc_val. cbn [py_in funcavail existsb String.eqb Ascii.eqb Bool.eqb orb negb].
    unfold iloc_row. rewrite Hidx. reflexivity.
  - destruct (py_getitem_last (df_index d) Hrows) as [r Hr].
    unfold _calc_val. cbn [py_in funcavail existsb String.eqb Ascii.eqb Bool.eqb orb negb].
    unfold iloc_row. rewrite Hr. reflexivity.
Qed.

Lemma event_column_length series avail_cp npre npost icp :
  0 <= icp - npre -> icp - npre <= icp + npost + 1 -> icp + npost + 1 <= zlen series ->
  List.length (event_column series avail_cp npre npost icp)
  = Z.to_nat (npost + 1 - - npre).
Proof.
  intros Hlo Hmid Hhi. unfold event_column.
  destruct (avail_cp <=? data_avail _)%float.
  - pose proof (py_slice_length series (icp - npre) (icp + npost + 1) Hlo Hmid Hhi) as H.
    unfold zlen in H. lia.
  - rewrite length_map. unfold np_arange. apply arange_from_length.
Qed.

Lemma event_column_nth series avail_cp npre npost icp k :
  0 <= icp - npre -> icp + npost + 1 <= zlen series ->
  - npre <= k <= npost ->
  nth_error (event_column series avail_cp npre npost icp) (Z.to_nat (k + npre))
  = windowed_value series avail_cp npre npost icp k.
Proof.
  intros Hlo Hhi Hk. unfold event_column, windowed_value, all_slice.
  destruct (avail_cp <=? data_avail _)%float.
  - rewrite py_slice_nth by lia. f_equal. lia.
  - rewrite nth_error_map. unfold np_arange.
    destruct (nth_error (arange_from (- npre) (Z.to_nat (npost + 1 - - npre)))
                (Z.to_nat (k + npre))) eqn:E; [reflexivity |].
    apply nth_error_None in E. rewrite arange_from_length in E. lia.
Qed.

Lemma last_of_rows_upto (col : list float) n lo hi v :
  List.length col = n -> lo <= hi < lo + Z.of_nat n ->
  nth_error col (Z.to_nat (hi - lo)) = Some v ->
  match py_getitem
          (map snd (filter (fun p : Z * float => fst p <=? hi)
                      (combine (arange_from lo n) col))) (-1) with
  | Ok x => x
  | Raise _ => PrimFloat.nan
  end = v.
Proof.
  intros Hlen Hhi Hv. rewrite filter_rows_upto by lia.
  rewrite (firstn_all2 (n := n)) by lia.
  rewrite (py_getitem_last_nth _ (Z.to_nat (hi - lo)) v); [reflexivity | |].
  - rewrite length_firstn. lia.
  - rewrite nth_error_firstn.
    destruct (Nat.ltb_spec (Z.to_nat (hi - lo)) (Z.to_nat (hi - lo + 1))); [assumption | lia].
Qed.

Lemma first_of_rows_from (col : list float) n lo a v :
  List.length col = n -> lo <= a < lo + Z.of_nat n ->
  nth_error col (Z.to_nat (a - lo)) = Some v ->
  match py_getitem
          (map snd (filter (fun p : Z * float => a <=? fst p)
                      (combine (arange_from lo n) col))) 0 with
  | Ok x => x
  | Raise _ => PrimFloat.nan
  end = v.
Proof.
  intros Hlen Ha Hv. rewrite filter_rows_from by lia.
  rewrite (firstn_all2 (n := n)) by lia.
  rewrite py_getitem_first, nth_error_skipn, Nat.add_0_r, Hv. reflexivity.
Qed.

(** X17.  For an accepted event and a series of the grid's length: the last
    value of the pre-period is the value at the passage sample itself, the
    first value of the post-period is the value one sample later, and the
    first and last values of the "all" period are the values [npre] samples
    before and [npost] samples after the passage; each is the sample of the
    series when the gate passes on the event's window and NaN when it
    fails. *)
Theorem period_boundary_values `{Pandas} dtdata ttdata rrdata cfg e series n icp key
    npre npost :
  constructed dtdata ttdata rrdata cfg e ->
  distinct_stamps dtdata ->
  self_npre e = Some npre -> self_npost e = Some npost ->
  zlen series = self_ntime e ->
  nth_error (indices e) n = Some icp ->
  nth_error (datetimes e) n = Some key ->
  exists out pre_last post_first all_first all_last,
    var_val e (NdArray series) "pre" "last" = (out, Ok (Series pre_last)) /\
    var_val e (NdArray series) "post" "first" = (out, Ok (Series post_first)) /\
    var_val e (NdArray series) "all" "first" = (out, Ok (Series all_first)) /\
    var_val e (NdArray series) "all" "last" = (out, Ok (Series all_last)) /\
    lookup key pre_last = windowed_value series (data_avail_cp cfg) npre npost icp 0 /\
    lookup key post_first = windowed_value series (data_avail_cp cfg) npre npost icp 1 /\
    lookup key all_first
    = windowed_value series (data_avail_cp cfg) npre npost icp (- npre) /\
    lookup key all_last = windowed_value series (data_avail_cp cfg) npre npost icp npost.
Proof.
  unfold indices, datetimes. intros Hc Hdist Hnpre Hnpost Hlen Hicp Hkey.
  destruct (configured_ran _ _ _ _ _ _ _ Hc Hnpre Hnpost) as (d & tt & rr & ntt & Hran).
  assert (Hin : In icp (self_cp_index e)) by (eapply nth_error_In; eassumption).
  destruct (event_counts_positive _ _ _ _ _ _ _ _ _ _ _ _ Hran Hin) as (_ & Hpre & Hpost).
  pose proof (take_stamps_length _ _ _ (ran_stamps _ _ _ _ _ _ _ _ _ _ _ Hran)) as Hlens.
  pose proof (event_windows_inside _ _ _ _ _ _ _ _ _ _ _ Hran) as Hbnd.
  rewrite Forall_forall in Hbnd. destruct (Hbnd icp Hin) as (Hlo & _ & Hhi).
  rewrite <- Hlen in Hhi.
  assert (Hnd : NoDup (self_cp_datetime e)).
  { rewrite (ran_dt _ _ _ _ _ _ _ _ _ _ _ Hran) in Hdist.
    exact (event_stamps_NoDup _ _ _ _ _ _ _ _ _ _ _ Hran Hdist). }
  set (cols := combine (self_cp_datetime e)
                 (map (event_column series (data_avail_cp cfg) npre npost)
                    (self_cp_index e))).
  set (rows := Z.to_nat (npost + 1 - - npre)).
  set (col := event_column series (data_avail_cp cfg) npre npost icp).
  set (df := mkframe (arange_from (- npre) rows) cols).
  assert (Hvt : var_time e (NdArray series)
                = (avail_diag series (data_avail_all cfg) (warn_avail_all cfg) "provided"
                   ++ event_diags series (data_avail_cp cfg) (warn_avail_cp cfg)
                        npre npost (self_cp_index e), Ok df)).
  { rewrite (var_time_ran _ _ _ _ _ _ _ _ _ _ _ series Hran Hlen).
    rewrite assign_columns_fresh; [reflexivity | | intros k _ []].
    rewrite map_fst_combine_same_length by (rewrite length_map; assumption).
    exact Hnd. }
  assert (Hcol : lookup key cols = Some col).
  { apply (lookup_combine_nth _ _ n); [assumption | assumption |].
    rewrite nth_error_map, Hicp. reflexivity. }
  assert (Hcollen : List.length col = rows).
  { apply event_column_length; lia. }
  assert (Hval : forall k, - npre <= k <= npost ->
            exists v, nth_error col (Z.to_nat (k + npre)) = Some v /\
                      windowed_value series (data_avail_cp cfg) npre npost icp k = Some v).
  { intros k Hk. unfold col. rewrite event_column_nth by lia.
    destruct (windowed_value series (data_avail_cp cfg) npre npost icp k) as [v |] eqn:E;
      [eauto | exfalso].
    rewrite <- event_column_nth in E by lia. apply nth_error_None in E.
    fold col in E. unfold rows in Hcollen. lia. }
  assert (Hempty : df_empty df = false).
  { unfold df_empty, df. cbn [df_index df_columns]. apply orb_false_iff.
    split; apply Z.eqb_neq.
    - unfold zlen. rewrite arange_from_length. unfold rows. lia.
    - destruct cols; [discriminate | unfold zlen; cbn; lia]. }
  assert (Hrow : forall r, - npre <= r <= npost -> In r (df_index df)).
  { intros r Hr. unfold df. cbn [df_index]. apply arange_from_In. unfold rows. lia. }
  destruct (Hval 0 ltac:(lia)) as (v0 & Hv0 & Hw0).
  destruct (Hval 1 ltac:(lia)) as (v1 & Hv1 & Hw1).
  destruct (Hval (- npre) ltac:(lia)) as (vf & Hvf & Hwf).
  destruct (Hval npost ltac:(lia)) as (vl & Hvl & Hwl).
  rewrite Hw0, Hw1, Hwf, Hwl.
  eexists. eexists. eexists. eexists. eexists.
  split; [| split; [| split; [| split]]].
  - unfold var_val. cbn [py_in periods existsb String.eqb Ascii.eqb Bool.eqb orb negb].
    rewrite Hvt. cbn [bind]. unfold _pre_val. rewrite Hempty.
    rewrite (index_cp_set e npre npost) by assumption.
    cbn [index_cp_slices String.eqb Ascii.eqb Bool.eqb].
    rewrite bind_ret_l, bind_getattr_Some. cbn [stop].
    rewrite (proj2 (calc_val_first_last _
               (select_rows_nonempty (fun l => l <=? 0 + 1 - 1) df 0
                  (Hrow 0 ltac:(lia)) eq_refl))).
    rewrite app_nil_r. reflexivity.
  - unfold var_val. cbn [py_in periods existsb String.eqb Ascii.eqb Bool.eqb orb negb].
    rewrite Hvt. cbn [bind]. unfold _post_val. rewrite Hempty.
    rewrite (index_cp_set e npre npost) by assumption.
    cbn [index_cp_slices String.eqb Ascii.eqb Bool.eqb].
    rewrite bind_ret_l, bind_getattr_Some. cbn [start].
    rewrite (proj1 (calc_val_first_last _
               (select_rows_nonempty (fun l => 0 + 1 <=? l) df 1
                  (Hrow 1 ltac:(lia)) eq_refl))).
    rewrite app_nil_r. reflexivity.
  - unfold var_val. cbn [py_in periods existsb String.eqb Ascii.eqb Bool.eqb orb negb].
    rewrite Hvt. cbn [bind]. unfold _all_val. rewrite Hempty.
    assert (Hrows : df_index df <> []).
    { intros E. pose proof (Hrow 0 ltac:(lia)) as H0. rewrite E in H0. destruct H0. }
    rewrite (proj1 (calc_val_first_last df Hrows)).
    rewrite app_nil_r. reflexivity.
  - unfold var_val. cbn [py_in periods existsb String.eqb Ascii.eqb Bool.eqb orb negb].
    rewrite Hvt. cbn [bind]. unfold _all_val. rewrite Hempty.
    assert (Hrows : df_index df <> []).
    { intros E. pose proof (Hrow 0 ltac:(lia)) as H0. rewrite E in H0. destruct H0. }
    rewrite (proj2 (calc_val_first_last df Hrows)).
    rewrite app_nil_r. reflexivity.
  - repeat split.
    + unfold select_rows. cbn [df_columns df_index df].
      rewrite (lookup_map_values
                 (fun c : list float =>
                    match py_getitem c (-1) with Ok x => x | Raise _ => PrimFloat.nan end)).
      rewrite (lookup_map_values
                 (fun c : list float =>
                    map snd (filter (fun p : Z * float => fst p <=? 0 + 1 - 1)
                               (combine (arange_from (- npre) rows) c)))).
      rewrite Hcol. cbn [option_map]. f_equal.
      apply (last_of_rows_upto col rows (- npre) (0 + 1 - 1) v0);
        [assumption | unfold rows; lia |].
      replace (Z.to_nat (0 + 1 - 1 - - npre)) with (Z.to_nat (0 + npre)) by lia.
      exact Hv0.
    + unfold select_rows. cbn [df_columns df_index df].
      rewrite (lookup_map_values
                 (fun c : list float =>
                    match py_getitem c 0 with Ok x => x | Raise _ => PrimFloat.nan end)).
      rewrite (lookup_map_values
                 (fun c : list float =>
                    map snd (filter (fun p : Z * float => 0 + 1 <=? fst p)
                               (combine (arange_from (- npre) rows) c)))).
      rewrite Hcol. cbn [option_map]. f_equal.
      apply (first_of_rows_from col rows (- npre) (0 + 1) v1);
        [assumption | unfold rows; lia |].
      replace (Z.to_nat (0 + 1 - - npre)) with (Z.to_nat (1 + npre)) by lia.
      exact Hv1.
    + cbn [df_columns df].
      rewrite (lookup_map_values
                 (fun c : list float =>
                    match py_getitem c 0 with Ok x => x | Raise _ => PrimFloat.nan end)).
      rewrite Hcol. cbn [option_map]. f_equal.
      rewrite py_getitem_first.
      replace (Z.to_nat (- npre + npre)) with O in Hvf by lia.
      rewrite Hvf. reflexivity.
    + cbn [df_columns df].
      rewrite (lookup_map_values
                 (fun c : list float =>
                    match py_getitem c (-1) with Ok x => x | Raise _ => PrimFloat.nan end)).
      rewrite Hcol. cbn [option_map]. f_equal.
      rewrite (py_getitem_last_nth col (Z.to_nat (npost + npre)) vl);
        [reflexivity | unfold rows in Hcollen; lia | exact Hvl].
Qed.

Lemma period_boundary_values_witness :
  constructed (DtIndex (grid 1200 8)) (NdArray tt_two) (NdArray rr_two)
    default_config self_two /\
  exists out pre_last post_first all_first all_last,
    var_val (pandas := sample_pandas)
      self_two (NdArray tt_two) "pre" "last"
    = (out, Ok (Series pre_last)) /\
    var_val (pandas := sample_pandas)
      self_two (NdArray tt_two) "post" "first"
    = (out, Ok (Series post_first)) /\
    var_val (pandas := sample_pandas)
      self_two (NdArray tt_two) "all" "first"
    = (out, Ok (Series all_first)) /\
    var_val (pandas := sample_pandas)
      self_two (NdArray tt_two) "all" "last"
    = (out, Ok (Series all_last)) /\
    lookup 4800 pre_last
    = windowed_value tt_two (data_avail_cp default_config) 1 3 4 0 /\
    lookup 4800 post_first
    = windowed_value tt_two (data_avail_cp default_config) 1 3 4 1 /\
    lookup 4800 all_first
    = windowed_value tt_two (data_avail_cp default_config) 1 3 4 (- 1) /\
    lookup 4800 all_last
    = windowed_value tt_two (data_avail_cp default_config) 1 3 4 3.
Proof.
  assert (Hc : constructed (DtIndex (grid 1200 8)) (NdArray tt_two) (NdArray rr_two)
                 default_config self_two)
    by (exists []; vm_compute; reflexivity).
  split; [exact Hc |].
  apply (period_boundary_values _ _ _ _ self_two tt_two 1%nat 4 4800 1 3 Hc).
  - cbn. repeat constructor; cbn; intuition discriminate.
  - reflexivity.
  - reflexivity.
  - reflexivity.
  - reflexivity.
  - reflexivity.
Defined.

Example boundary_values_two `{Pandas} :
  var_val self_two (NdArray tt_two) "pre" "last"
    = ([], Ok (Series [(1200, 300%float); (4800, 290%float)])) /\
  var_val self_two (NdArray tt_two) "post" "first"
    = ([], Ok (Series [(1200, 290%float); (4800, 0x1p60%float)])).
Proof. vm_compute. split; reflexivity. Qed.
